(** * Inventory tracker: report aggregation and form arithmetic

    A shallow embedding of the report aggregator of [ReportsSection]
    ([generateReports] and the eight [generate...Report] helpers) and of the
    arithmetic of [InventoryForm] ([calculateValues], [handleSaveRecord]),
    followed by the properties proved about them.

    Conventions of the embedding.
    - Quantities ([opening_stock], [new_stock], ...) are integers, [Z].
      Sums and differences of quantities are exact.
    - A value produced by the JavaScript operator [/] is a [number]: a
      rational, an infinity or [NaN].  A quotient of two integers that the
      code hands on as it is ([avg_daily_usage], [stock_turnover]) is kept
      as the exact rational, which names the double nearest to it.  Where
      the code computes on with the quotient, as in [(n / d) * 100], each
      operation returns the nearest double ([toDouble]: 53 significant
      bits, ties to even).  The exponent range of doubles is not modelled:
      quotients of integers that a double holds exactly stay within it.
    - A calendar date (the ISO string [YYYY-MM-DD] of a record) is embedded
      as its day number since 1970-01-01, so that [new Date(d).getTime()]
      is [msPerDay * d] and grouping by the date string is grouping by the
      day number.
    - The wall clock read by [new Date()] is an explicit argument [now], in
      milliseconds since the epoch, and the time zone of the process an
      explicit argument [zone].
    - A string is held as the bytes of its UTF-8 encoding.
    - A JavaScript [Map] is an association list in insertion order, as
      returned by [Map.prototype.entries].
    - Reading a field of [undefined] throws a [TypeError]; a computation
      that may throw returns an [option], [None] standing for the throw. *)

From Stdlib Require Import ZArith QArith List String Ascii Bool Lia.
From Stdlib Require Import Permutation Sorted.
From Stdlib Require Import Qround Qpower Qabs Lqa.
Import ListNotations.
Open Scope Z_scope.

(* ------------------------------------------------------------------ *)
(** * JavaScript values and library functions used by the components *)
(* ------------------------------------------------------------------ *)

Module JS.

(** The result of an arithmetic expression that involves [/]. *)
Inductive number : Type :=
| Fin (q : Q)
| PInf
| NInf
| NaN.

Definition ofZ (z : Z) : number := Fin (inject_Z z).

(** [a / b] on two integers, as the exact quotient: a quotient that the
    code hands on as it is. *)
Definition div (a b : Z) : number :=
  if b =? 0 then
    (if a =? 0 then NaN else if 0 <? a then PInf else NInf)
  else Fin (Qred (inject_Z a / inject_Z b)).

(** [x * k] for an integer constant [k]. *)
Definition mulZ (x : number) (k : Z) : number :=
  match x with
  | Fin q => Fin (Qred (q * inject_Z k))
  | PInf => if k =? 0 then NaN else if 0 <? k then PInf else NInf
  | NInf => if k =? 0 then NaN else if 0 <? k then NInf else PInf
  | NaN => NaN
  end.

(** [x - y]. *)
Definition sub (x y : number) : number :=
  match x, y with
  | Fin p, Fin q => Fin (Qred (p - q))
  | NaN, _ | _, NaN => NaN
  | PInf, PInf | NInf, NInf => NaN
  | PInf, _ | _, NInf => PInf
  | NInf, _ | _, PInf => NInf
  end.

(** The sign a comparator result has for [Array.prototype.sort]; a [NaN]
    result counts as [0]. *)
Definition sign (x : number) : Z :=
  match x with
  | Fin q => Z.sgn (Qnum q)
  | PInf => 1
  | NInf => -1
  | NaN => 0
  end.

Definition isFinite (x : number) : bool :=
  match x with Fin _ => true | _ => false end.

(** The integer nearest to a rational, a tie going to the even one. *)
Definition roundTiesToEven (q : Q) : Z :=
  let f := Qfloor q in
  match (q - inject_Z f ?= 1 # 2)%Q with
  | Lt => f
  | Gt => f + 1
  | Eq => if Z.even f then f else f + 1
  end.

(** The binary exponent of a positive rational: [2 ^ e <= q < 2 ^ (e + 1)]. *)
Definition exponent (q : Q) : Z :=
  let k := Z.log2 (Qnum q) - Z.log2 (Z.pos (Qden q)) in
  if Qle_bool (2 ^ k) q then k else k - 1.

(** The double nearest to a positive rational: a significand of 53 bits,
    rounded to nearest, ties to even. *)
Definition roundPos (q : Q) : Q :=
  let e := exponent q - 52 in
  (inject_Z (roundTiesToEven (q / 2 ^ e)) * 2 ^ e)%Q.

(** The double that an arithmetic operation returns for the exact result
    [q]. *)
Definition toDouble (q : Q) : Q :=
  match (q ?= 0)%Q with
  | Eq => 0%Q
  | Gt => Qred (roundPos q)
  | Lt => Qred (- roundPos (- q))
  end.

(** [a / b] on two integers, as the double the division returns. *)
Definition divDouble (a b : Z) : number :=
  match div a b with
  | Fin q => Fin (toDouble q)
  | other => other
  end.

(** [x * k] for an integer constant [k], as the double the product
    returns. *)
Definition mulDouble (x : number) (k : Z) : number :=
  match mulZ x k with
  | Fin q => Fin (toDouble q)
  | other => other
  end.

Section Arrays.
Context {A : Type}.

(** [arr.reduce((sum, r) => sum + f(r), 0)]. *)
Definition reduce_sum (f : A -> Z) (arr : list A) : Z :=
  fold_left (fun sum r => sum + f r) arr 0.

(** [Array.prototype.sort(comparefn)] is stable: an element moves behind
    another one only when the comparator is positive on the pair. *)
Fixpoint sort_insert (comparefn : A -> A -> Z) (a : A) (arr : list A) : list A :=
  match arr with
  | [] => [a]
  | b :: rest =>
      if 0 <? comparefn a b then b :: sort_insert comparefn a rest
      else a :: b :: rest
  end.

Fixpoint sort (comparefn : A -> A -> Z) (arr : list A) : list A :=
  match arr with
  | [] => []
  | a :: rest => sort_insert comparefn a (sort comparefn rest)
  end.

(** [arr[0]] followed by a field access: throws on an empty array. *)
Definition first (arr : list A) : option A :=
  match arr with
  | [] => None
  | a :: _ => Some a
  end.

(** [arr[arr.length - 1]] followed by a field access. *)
Fixpoint last (arr : list A) : option A :=
  match arr with
  | [] => None
  | [a] => Some a
  | _ :: rest => last rest
  end.
End Arrays.

Section Maps.
Context {K V : Type}.
Variable eqb : K -> K -> bool.

(** [if (!m.has(k)) m.set(k, []); m.get(k).push(v)]. *)
Fixpoint push_group (k : K) (v : V) (m : list (K * list V)) : list (K * list V) :=
  match m with
  | [] => [(k, [v])]
  | (k', vs) :: m' =>
      if eqb k' k then (k', vs ++ [v]) :: m'
      else (k', vs) :: push_group k v m'
  end.

(** [m.get(k)]. *)
Fixpoint get (k : K) (m : list (K * list V)) : option (list V) :=
  match m with
  | [] => None
  | (k', vs) :: m' => if eqb k' k then Some vs else get k m'
  end.

(** The [forEach] loop that fills a [Map] of buckets. *)
Definition groupBy (key : V -> K) (arr : list V) : list (K * list V) :=
  fold_left (fun m r => push_group (key r) r m) arr [].

(** [m.set(k, (m.get(k) || 0) + n)]. *)
Fixpoint add_to (k : K) (n : Z) (m : list (K * Z)) : list (K * Z) :=
  match m with
  | [] => [(k, 0 + n)]
  | (k', x) :: m' =>
      if eqb k' k then (k', x + n) :: m'
      else (k', x) :: add_to k n m'
  end.

(** [new Set(arr).size]. *)
Fixpoint set_add (k : K) (s : list K) : list K :=
  match s with
  | [] => [k]
  | k' :: s' => if eqb k' k then s else k' :: set_add k s'
  end.

Definition set_size (arr : list K) : Z :=
  Z.of_nat (List.length (fold_left (fun s k => set_add k s) arr [])).
End Maps.

(** An array is in the order of a comparator when no element is placed
    before one the comparator puts strictly first. *)
Inductive ordered {A : Type} (comparefn : A -> A -> Z) : list A -> Prop :=
| ordered_nil : ordered comparefn []
| ordered_cons a l :
    (forall x, In x l -> comparefn a x <= 0) ->
    ordered comparefn l -> ordered comparefn (a :: l).

(** Exceptions as [option]. *)
Definition bind {A B : Type} (x : option A) (f : A -> option B) : option B :=
  match x with
  | Some a => f a
  | None => None
  end.

(** [arr.map(f)] for a callback that may throw. *)
Fixpoint mapM {A B : Type} (f : A -> option B) (arr : list A) : option (list B) :=
  match arr with
  | [] => Some []
  | a :: rest =>
      bind (f a) (fun b => bind (mapM f rest) (fun bs => Some (b :: bs)))
  end.

End JS.

Notation "x <- c ;; k" := (JS.bind c (fun x => k))
  (at level 61, c at next level, right associativity).


(* ------------------------------------------------------------------ *)
(** * Data model ([types/inventory]) *)
(* ------------------------------------------------------------------ *)

Module Inventory.

(** Milliseconds in a day, the constant [1000 * 60 * 60 * 24]. *)
Definition msPerDay : Z := 1000 * 60 * 60 * 24.

(** [new Date(d).getTime()] for the calendar date with day number [d]. *)
Definition getTime (d : Z) : Z := msPerDay * d.

(** The time zone of the process, as ECMAScript reads it: the offset of
    local time from UTC, in milliseconds, that is in force at an instant
    ([LocalTZA(t, true)]) and at a local time ([LocalTZA(t, false)]). *)
Record TimeZone : Type := {
  offsetAt : Z -> Z;
  offsetOfLocal : Z -> Z
}.

(** A zone that keeps one offset all year. *)
Definition fixedOffset (offset : Z) : TimeZone :=
  {| offsetAt := fun _ => offset; offsetOfLocal := fun _ => offset |}.

Definition utc : TimeZone := fixedOffset 0.

(** [LocalTime(t)], and the day number of the local calendar date at the
    instant [t]. *)
Definition localTime (zone : TimeZone) (t : Z) : Z := t + offsetAt zone t.

Definition localDay (zone : TimeZone) (t : Z) : Z := localTime zone t / msPerDay.

(** [setHours(0, 0, 0, 0)] on a [Date] that holds the instant [t]: the
    instant at which the local day of [t] starts. *)
Definition setHoursZero (zone : TimeZone) (t : Z) : Z :=
  let midnight := msPerDay * localDay zone t in
  midnight - offsetOfLocal zone midnight.

Record InventoryRecord : Type := {
  item_name : string;
  date : Z;
  opening_stock : Z;
  new_stock : Z;
  new_balance : Z;
  issued_production : Z;
  returns : Z;
  rebagging : Z;
  damaged : Z;
  closing_stock : Z
}.

Record FormData : Type := {
  itemName : string;
  formDate : option Z;
  openingStock : Z;
  newStock : Z;
  newBalance : Z;
  issuedProduction : Z;
  formReturns : Z;
  formRebagging : Z;
  formDamaged : Z;
  closingStock : Z
}.

(** Every quantity of a stored record is a non-negative integer. *)
Definition nonneg_record (r : InventoryRecord) : Prop :=
  0 <= opening_stock r /\ 0 <= new_stock r /\ 0 <= issued_production r /\
  0 <= returns r /\ 0 <= rebagging r /\ 0 <= damaged r /\ 0 <= closing_stock r.

End Inventory.

(* ------------------------------------------------------------------ *)
(** * The report aggregator ([ReportsSection]) *)
(* ------------------------------------------------------------------ *)

Module Reports.
Import JS Inventory.

Record OutOfStockRow : Type := {
  oos_item_name : string;
  last_stock : Z;
  last_date : Z;
  days_since_stock : Z
}.

Record DailyActivity : Type := {
  da_item_name : string;
  da_new_stock : Z;
  da_issued_production : Z;
  da_returns : Z;
  da_rebagging : Z;
  da_damaged : Z;
  da_opening_stock : Z;
  da_closing_stock : Z;
  da_net_change : Z
}.

Record StockMovementRow : Type := {
  sm_date : Z;
  total_in : Z;
  total_out : Z;
  sm_net_change : Z;
  product_count : Z;
  daily_activities : list DailyActivity
}.

Record StockBalanceRow : Type := {
  sb_item_name : string;
  sb_opening_stock : Z;
  sb_closing_stock : Z;
  sb_net_change : Z;
  movement_type : string
}.

Record ProductionRow : Type := {
  pr_item_name : string;
  total_issued : Z;
  avg_daily_usage : number;
  last_issued_date : Z;
  stock_level : Z
}.

Record ReturnsRebaggingRow : Type := {
  rr_item_name : string;
  rr_total_returns : Z;
  rr_total_rebagging : Z;
  rr_return_rate : number;
  last_activity : Z
}.

Record DamagedStockRow : Type := {
  ds_item_name : string;
  ds_total_damaged : Z;
  damage_percentage : number;
  last_damage_date : Z;
  ds_total_stock_in : Z
}.

Record StockHistoryRow : Type := {
  sh_item_name : string;
  total_records : Z;
  first_record : Z;
  last_record : Z;
  stock_trend : string
}.

Record WeeklySummary : Type := {
  ws_total_stock_in : Z;
  ws_total_stock_out : Z;
  ws_total_returns : Z;
  ws_total_rebagging : Z;
  ws_total_damaged : Z;
  ws_net_change : Z
}.

Inductive ActivityLevel : Type := high | medium | low.

Record ProductMovement : Type := {
  pm_item_name : string;
  pm_opening_stock : Z;
  pm_closing_stock : Z;
  pm_total_stock_in : Z;
  pm_total_stock_out : Z;
  pm_total_returns : Z;
  pm_total_rebagging : Z;
  pm_total_damaged : Z;
  pm_net_change : Z;
  movement_percentage : number;
  activity_level : ActivityLevel;
  days_active : Z
}.

Record DailySummary : Type := {
  dy_date : Z;
  day_name : string;
  total_transactions : Z;
  dy_net_change : Z;
  top_product : string;
  dy_total_stock_in : Z;
  dy_total_stock_out : Z;
  dy_total_returns : Z;
  dy_total_rebagging : Z;
  dy_total_damaged : Z;
  products_active : Z;
  most_active_product : string;
  most_active_product_movements : Z
}.

Record EfficiencyMetrics : Type := {
  em_return_rate : number;
  em_damage_rate : number;
  em_rebagging_rate : number;
  stock_turnover : number
}.

(** [week_start] and [week_end] are date strings; [None] is the empty
    string the source uses when there is no record. *)
Record WeeklyReport : Type := {
  week_start : option Z;
  week_end : option Z;
  total_products : Z;
  total_movements : Z;
  summary : WeeklySummary;
  product_movements : list ProductMovement;
  daily_summary : list DailySummary;
  efficiency_metrics : EfficiencyMetrics
}.

Record ReportData : Type := {
  outOfStockProducts : list OutOfStockRow;
  stockMovements : list StockMovementRow;
  stockBalances : list StockBalanceRow;
  productionIssues : list ProductionRow;
  returnsRebagging : list ReturnsRebaggingRow;
  damagedStock : list DamagedStockRow;
  stockHistory : list StockHistoryRow;
  weeklyReport : WeeklyReport
}.

Record DateRange : Type := {
  startDate : Z;
  endDate : Z
}.

(** The two comparators on record dates. *)
Definition byDateDesc (a b : InventoryRecord) : Z :=
  getTime (date b) - getTime (date a).

Definition byDateAsc (a b : InventoryRecord) : Z :=
  getTime (date a) - getTime (date b).

(** The buckets [productGroups] and [dateGroups]. *)
Definition productGroups (filteredRecords : list InventoryRecord)
  : list (string * list InventoryRecord) :=
  groupBy String.eqb item_name filteredRecords.

Definition dateGroups (filteredRecords : list InventoryRecord)
  : list (Z * list InventoryRecord) :=
  groupBy Z.eqb date filteredRecords.

(** The size of an array as a quantity. *)
Definition len {A : Type} (arr : list A) : Z := Z.of_nat (List.length arr).

(** ** View 1: out of stock *)

Definition outOfStockRow (now : Z) (entry : string * list InventoryRecord)
  : option OutOfStockRow :=
  let '(itemName, records) := entry in
  let sortedRecords := sort byDateDesc records in
  latestRecord <- first sortedRecords ;;
  let lastDate := getTime (date latestRecord) in
  let today := now in
  let daysSinceStock := (today - lastDate) / msPerDay in
  Some {| oos_item_name := itemName;
          last_stock := closing_stock latestRecord;
          last_date := date latestRecord;
          days_since_stock := daysSinceStock |}.

Definition generateOutOfStockReport (now : Z) (filteredRecords : list InventoryRecord)
  : option (list OutOfStockRow) :=
  rows <- mapM (outOfStockRow now) (productGroups filteredRecords) ;;
  Some (sort (fun a b => days_since_stock b - days_since_stock a)
             (filter (fun item => last_stock item =? 0) rows)).

(** ** View 2: stock movements by date *)

Definition dailyActivity (record : InventoryRecord) : DailyActivity :=
  let stockIn := new_stock record + returns record + rebagging record in
  let stockOut := issued_production record + damaged record in
  let recordNetChange := stockIn - stockOut in
  {| da_item_name := item_name record;
     da_new_stock := new_stock record;
     da_issued_production := issued_production record;
     da_returns := returns record;
     da_rebagging := rebagging record;
     da_damaged := damaged record;
     da_opening_stock := opening_stock record;
     da_closing_stock := closing_stock record;
     da_net_change := recordNetChange |}.

Definition stockMovementRow (entry : Z * list InventoryRecord) : StockMovementRow :=
  let '(d, records) := entry in
  let totalIn := reduce_sum (fun r => new_stock r + returns r + rebagging r) records in
  let totalOut := reduce_sum (fun r => issued_production r + damaged r) records in
  let netChange := totalIn - totalOut in
  {| sm_date := d;
     total_in := totalIn;
     total_out := totalOut;
     sm_net_change := netChange;
     product_count := len records;
     daily_activities := map dailyActivity records |}.

Definition generateStockMovementReport (filteredRecords : list InventoryRecord)
  : list StockMovementRow :=
  sort (fun a b => getTime (sm_date a) - getTime (sm_date b))
       (map stockMovementRow (dateGroups filteredRecords)).

(** ** View 3: stock balances by product *)

Definition stockBalanceRow (entry : string * list InventoryRecord)
  : option StockBalanceRow :=
  let '(itemName, records) := entry in
  let sortedRecords := sort byDateAsc records in
  firstRecord <- first sortedRecords ;;
  lastRecord <- last sortedRecords ;;
  let netChange := closing_stock lastRecord - opening_stock firstRecord in
  let movementType :=
    if 0 <? netChange then "increasing"%string
    else if netChange <? 0 then "decreasing"%string
    else "stable"%string in
  Some {| sb_item_name := itemName;
          sb_opening_stock := opening_stock firstRecord;
          sb_closing_stock := closing_stock lastRecord;
          sb_net_change := netChange;
          movement_type := movementType |}.

Definition generateStockBalanceReport (filteredRecords : list InventoryRecord)
  : option (list StockBalanceRow) :=
  rows <- mapM stockBalanceRow (productGroups filteredRecords) ;;
  Some (sort (fun a b => Z.abs (sb_net_change b) - Z.abs (sb_net_change a)) rows).

(** ** View 4: production usage by product *)

Definition productionRow (entry : string * list InventoryRecord)
  : option ProductionRow :=
  let '(itemName, records) := entry in
  let totalIssued := reduce_sum issued_production records in
  let avgDailyUsage := div totalIssued (len records) in
  let sortedRecords := sort byDateDesc records in
  lastRecord <- first sortedRecords ;;
  Some {| pr_item_name := itemName;
          total_issued := totalIssued;
          avg_daily_usage := avgDailyUsage;
          last_issued_date := date lastRecord;
          stock_level := closing_stock lastRecord |}.

Definition generateProductionReport (filteredRecords : list InventoryRecord)
  : option (list ProductionRow) :=
  rows <- mapM productionRow (productGroups filteredRecords) ;;
  Some (sort (fun a b => total_issued b - total_issued a)
             (filter (fun item => 0 <? total_issued item) rows)).

(** ** View 5: returns and rebagging by product *)

(** [d > 0 ? (n / d) * 100 : 0]: the quotient is rounded to a double, and
    so is its product with 100. *)
Definition percentage (n d : Z) : number :=
  if 0 <? d then mulDouble (divDouble n d) 100 else ofZ 0.

Definition returnsRebaggingRow (entry : string * list InventoryRecord)
  : option ReturnsRebaggingRow :=
  let '(itemName, records) := entry in
  let totalReturns := reduce_sum returns records in
  let totalRebagging := reduce_sum rebagging records in
  let totalStockIn := reduce_sum new_stock records in
  let returnRate := percentage totalReturns totalStockIn in
  let sortedRecords := sort byDateDesc records in
  lastRecord <- first sortedRecords ;;
  Some {| rr_item_name := itemName;
          rr_total_returns := totalReturns;
          rr_total_rebagging := totalRebagging;
          rr_return_rate := returnRate;
          last_activity := date lastRecord |}.

Definition generateReturnsRebaggingReport (filteredRecords : list InventoryRecord)
  : option (list ReturnsRebaggingRow) :=
  rows <- mapM returnsRebaggingRow (productGroups filteredRecords) ;;
  Some (sort (fun a b => (rr_total_returns b + rr_total_rebagging b)
                         - (rr_total_returns a + rr_total_rebagging a))
             (filter (fun item => (0 <? rr_total_returns item)
                                  || (0 <? rr_total_rebagging item)) rows)).

(** ** View 6: damaged stock by product *)

Definition damagedStockRow (entry : string * list InventoryRecord)
  : option DamagedStockRow :=
  let '(itemName, records) := entry in
  let totalDamaged := reduce_sum damaged records in
  let totalStockIn := reduce_sum new_stock records in
  let damagePercentage := percentage totalDamaged totalStockIn in
  let sortedRecords := sort byDateDesc records in
  lastRecord <- first sortedRecords ;;
  Some {| ds_item_name := itemName;
          ds_total_damaged := totalDamaged;
          damage_percentage := damagePercentage;
          last_damage_date := date lastRecord;
          ds_total_stock_in := totalStockIn |}.

Definition generateDamagedStockReport (filteredRecords : list InventoryRecord)
  : option (list DamagedStockRow) :=
  rows <- mapM damagedStockRow (productGroups filteredRecords) ;;
  Some (sort (fun a b => sign (sub (damage_percentage b) (damage_percentage a)))
             (filter (fun item => 0 <? ds_total_damaged item) rows)).

(** ** View 7: stock history by product *)

Definition stockHistoryRow (entry : string * list InventoryRecord)
  : option StockHistoryRow :=
  let '(itemName, records) := entry in
  let sortedRecords := sort byDateAsc records in
  firstRecord <- first sortedRecords ;;
  lastRecord <- last sortedRecords ;;
  let stockTrend :=
    if opening_stock firstRecord <? closing_stock lastRecord then "increasing"%string
    else if closing_stock lastRecord <? opening_stock firstRecord then "decreasing"%string
    else "stable"%string in
  Some {| sh_item_name := itemName;
          total_records := len sortedRecords;
          first_record := date firstRecord;
          last_record := date lastRecord;
          stock_trend := stockTrend |}.

Definition generateStockHistoryReport (filteredRecords : list InventoryRecord)
  : option (list StockHistoryRow) :=
  rows <- mapM stockHistoryRow (productGroups filteredRecords) ;;
  Some (sort (fun a b => total_records b - total_records a) rows).

(** ** View 8: weekly summary *)

Definition emptyWeeklyReport : WeeklyReport :=
  {| week_start := None;
     week_end := None;
     total_products := 0;
     total_movements := 0;
     summary := {| ws_total_stock_in := 0;
                   ws_total_stock_out := 0;
                   ws_total_returns := 0;
                   ws_total_rebagging := 0;
                   ws_total_damaged := 0;
                   ws_net_change := 0 |};
     product_movements := [];
     daily_summary := [];
     efficiency_metrics := {| em_return_rate := ofZ 0;
                              em_damage_rate := ofZ 0;
                              em_rebagging_rate := ofZ 0;
                              stock_turnover := ofZ 0 |} |}.

(** [total_stock_in + total_stock_out + total_returns + total_rebagging +
    total_damaged] of a product row. *)
Definition rowActivity (product : ProductMovement) : Z :=
  pm_total_stock_in product + pm_total_stock_out product + pm_total_returns product
  + pm_total_rebagging product + pm_total_damaged product.

Definition productMovementRow (entry : string * list InventoryRecord)
  : option ProductMovement :=
  let '(itemName, records) := entry in
  let sortedRecords := sort byDateAsc records in
  (* the sort is in place: [records] is [sortedRecords] from here on *)
  let records := sortedRecords in
  r0 <- first sortedRecords ;;
  rl <- last sortedRecords ;;
  let openingStock := opening_stock r0 in
  let closingStock := closing_stock rl in
  let stock_in := reduce_sum new_stock records in
  let stock_out := reduce_sum issued_production records in
  let totals_returns := reduce_sum returns records in
  let totals_rebagging := reduce_sum rebagging records in
  let totals_damaged := reduce_sum damaged records in
  let netChange := stock_in - stock_out in
  let totalActivity :=
    stock_in + stock_out + totals_returns + totals_rebagging + totals_damaged in
  let movementPercentage := percentage (Z.abs netChange) openingStock in
  let activityLevel :=
    if 100 <? totalActivity then high
    else if 50 <? totalActivity then medium
    else low in
  let uniqueDays := set_size Z.eqb (map date records) in
  Some {| pm_item_name := itemName;
          pm_opening_stock := openingStock;
          pm_closing_stock := closingStock;
          pm_total_stock_in := stock_in;
          pm_total_stock_out := stock_out;
          pm_total_returns := totals_returns;
          pm_total_rebagging := totals_rebagging;
          pm_total_damaged := totals_damaged;
          pm_net_change := netChange;
          movement_percentage := movementPercentage;
          activity_level := activityLevel;
          days_active := uniqueDays |}.

(** [new Date(d).toLocaleDateString('en-US', { weekday: 'short' })]: the
    weekday of the local date at the instant [new Date(d)], which is
    midnight UTC of the calendar date [d]; day 0 (1970-01-01) is a
    Thursday. *)
Definition weekdayShort (zone : TimeZone) (d : Z) : string :=
  nth (Z.to_nat ((localDay zone (getTime d) + 4) mod 7))
      ["Sun"; "Mon"; "Tue"; "Wed"; "Thu"; "Fri"; "Sat"]%string "Sun"%string.

(** [name || 'None']: the empty string is falsy. *)
Definition orNone (name : string) : string :=
  if String.eqb name "" then "None"%string else name.

Definition dailySummaryRow (zone : TimeZone) (entry : Z * list InventoryRecord)
  : DailySummary :=
  let '(d, records) := entry in
  let dayName := weekdayShort zone d in
  let stock_in := reduce_sum new_stock records in
  let stock_out := reduce_sum issued_production records in
  let netChange := stock_in - stock_out in
  let uniqueProducts := set_size String.eqb (map item_name records) in
  let productActivity :=
    fold_left (fun m record =>
                 let activity := new_stock record + issued_production record
                                 + returns record + rebagging record + damaged record in
                 add_to String.eqb (item_name record) activity m) records [] in
  let mostActiveProduct :=
    first (sort (fun a b => snd b - snd a) productActivity) in
  let productChanges :=
    fold_left (fun m record =>
                 let change := new_stock record - issued_production record in
                 add_to String.eqb (item_name record) change m) records [] in
  let topProduct :=
    match first (sort (fun a b => Z.abs (snd b) - Z.abs (snd a)) productChanges) with
    | Some p => orNone (fst p)
    | None => "None"%string
    end in
  {| dy_date := d;
     day_name := dayName;
     total_transactions := len records;
     dy_net_change := netChange;
     top_product := topProduct;
     dy_total_stock_in := stock_in;
     dy_total_stock_out := stock_out;
     dy_total_returns := reduce_sum returns records;
     dy_total_rebagging := reduce_sum rebagging records;
     dy_total_damaged := reduce_sum damaged records;
     products_active := uniqueProducts;
     most_active_product :=
       match mostActiveProduct with
       | Some p => orNone (fst p)
       | None => "None"%string
       end;
     most_active_product_movements :=
       match mostActiveProduct with
       | Some p => snd p
       | None => 0
       end |}.

Definition weeklySummary (filteredRecords : list InventoryRecord) : WeeklySummary :=
  {| ws_total_stock_in := reduce_sum new_stock filteredRecords;
     ws_total_stock_out := reduce_sum issued_production filteredRecords;
     ws_total_returns := reduce_sum returns filteredRecords;
     ws_total_rebagging := reduce_sum rebagging filteredRecords;
     ws_total_damaged := reduce_sum damaged filteredRecords;
     ws_net_change :=
       reduce_sum (fun r => new_stock r - issued_production r) filteredRecords |}.

Definition efficiencyMetrics (summary : WeeklySummary) : EfficiencyMetrics :=
  let totalStockIn := ws_total_stock_in summary in
  {| em_return_rate := percentage (ws_total_returns summary) totalStockIn;
     em_damage_rate := percentage (ws_total_damaged summary) totalStockIn;
     em_rebagging_rate := percentage (ws_total_rebagging summary) totalStockIn;
     stock_turnover :=
       if 0 <? ws_total_stock_out summary then
         div (ws_total_stock_out summary)
             (if ws_total_stock_in summary =? 0 then 1 else ws_total_stock_in summary)
       else ofZ 0 |}.

Definition generateWeeklyReport (zone : TimeZone)
  (filteredRecords : list InventoryRecord) : option WeeklyReport :=
  if len filteredRecords =? 0 then Some emptyWeeklyReport
  else
    let sortedRecords := sort byDateAsc filteredRecords in
    (* the sort is in place: [filteredRecords] is [sortedRecords] from here on *)
    let filteredRecords := sortedRecords in
    r0 <- first sortedRecords ;;
    rl <- last sortedRecords ;;
    let weekStart := date r0 in
    let weekEnd := date rl in
    let summary := weeklySummary filteredRecords in
    rows <- mapM productMovementRow (productGroups filteredRecords) ;;
    let productMovements :=
      sort (fun a b => rowActivity b - rowActivity a)
           (filter (fun product => 0 <? rowActivity product) rows) in
    let dailySummary :=
      sort (fun a b => getTime (dy_date a) - getTime (dy_date b))
           (map (dailySummaryRow zone) (dateGroups filteredRecords)) in
    Some {| week_start := Some weekStart;
            week_end := Some weekEnd;
            total_products := len productMovements;
            total_movements := len filteredRecords;
            summary := summary;
            product_movements := productMovements;
            daily_summary := dailySummary;
            efficiency_metrics := efficiencyMetrics summary |}.

(** ** The aggregator *)

(** [recordDate >= startDate && recordDate <= endDate]. *)
Definition inRange (dateRange : DateRange) (record : InventoryRecord) : bool :=
  (getTime (startDate dateRange) <=? getTime (date record))
  && (getTime (date record) <=? getTime (endDate dateRange)).

Definition filterRecords (dateRange : DateRange) (records : list InventoryRecord)
  : list InventoryRecord :=
  filter (inRange dateRange) records.

(** The [try] block of [generateReports]: [Some data] is the bundle handed
    to [setReportData], [None] the path through [catch].  The clock [now]
    and the time zone [zone] are the two things the helpers read from the
    environment. *)
Definition generateReports (now : Z) (zone : TimeZone)
  (records : list InventoryRecord) (dateRange : DateRange) : option ReportData :=
  let filteredRecords := filterRecords dateRange records in
  v1 <- generateOutOfStockReport now filteredRecords ;;
  let v2 := generateStockMovementReport filteredRecords in
  v3 <- generateStockBalanceReport filteredRecords ;;
  v4 <- generateProductionReport filteredRecords ;;
  v5 <- generateReturnsRebaggingReport filteredRecords ;;
  v6 <- generateDamagedStockReport filteredRecords ;;
  v7 <- generateStockHistoryReport filteredRecords ;;
  v8 <- generateWeeklyReport zone filteredRecords ;;
  Some {| outOfStockProducts := v1;
          stockMovements := v2;
          stockBalances := v3;
          productionIssues := v4;
          returnsRebagging := v5;
          damagedStock := v6;
          stockHistory := v7;
          weeklyReport := v8 |}.

End Reports.

(* ------------------------------------------------------------------ *)
(** * The entry form ([InventoryForm]) *)
(* ------------------------------------------------------------------ *)

Module Form.
Import JS Inventory.

(** The white space and the line terminators of ECMAScript, which
    [String.prototype.trim] removes, each as the bytes of its UTF-8
    encoding: TAB, LF, VT, FF, CR, SP, U+00A0, U+1680, U+2000 to U+200A,
    U+2028, U+2029, U+202F, U+205F, U+3000 and U+FEFF. *)
Definition whiteSpace : list (list ascii) :=
  map (map ascii_of_nat)
      [ [9]; [10]; [11]; [12]; [13]; [32]; [194; 160]; [225; 154; 128];
        [226; 128; 128]; [226; 128; 129]; [226; 128; 130]; [226; 128; 131];
        [226; 128; 132]; [226; 128; 133]; [226; 128; 134]; [226; 128; 135];
        [226; 128; 136]; [226; 128; 137]; [226; 128; 138];
        [226; 128; 168]; [226; 128; 169]; [226; 128; 175]; [226; 129; 159];
        [227; 128; 128]; [239; 187; 191] ]%nat.

(** [s] without the prefix [p], when it starts with [p]. *)
Fixpoint dropPrefix (p s : list ascii) : option (list ascii) :=
  match p, s with
  | [], _ => Some s
  | a :: p', b :: s' => if Ascii.eqb a b then dropPrefix p' s' else None
  | _ :: _, [] => None
  end.

(** [s] without its first character, when that is one of [spaces]. *)
Fixpoint dropOne (spaces : list (list ascii)) (s : list ascii)
  : option (list ascii) :=
  match spaces with
  | [] => None
  | p :: rest =>
      match dropPrefix p s with
      | Some s' => Some s'
      | None => dropOne rest s
      end
  end.

(** [s] without its leading characters of [spaces]; [fuel] bounds their
    number. *)
Fixpoint dropAll (fuel : nat) (spaces : list (list ascii)) (s : list ascii)
  : list ascii :=
  match fuel with
  | O => s
  | S n =>
      match dropOne spaces s with
      | Some s' => dropAll n spaces s'
      | None => s
      end
  end.

Definition trimStart (s : list ascii) : list ascii :=
  dropAll (List.length s) whiteSpace s.

(** The end is trimmed on the reversed bytes: in UTF-8 the bytes of a
    character at the end of a string are the character. *)
Definition trimEnd (s : list ascii) : list ascii :=
  rev (dropAll (List.length s) (map (@rev ascii) whiteSpace) (rev s)).

Definition trim (s : string) : string :=
  string_of_list_ascii (trimEnd (trimStart (list_ascii_of_string s))).

(** [calculateValues]: the state update it hands to [setFormData]. *)
Definition calculateValues (formData : FormData) : FormData :=
  let newBalance := openingStock formData + newStock formData in
  let closingStock :=
    Z.max 0 (newBalance - issuedProduction formData + formReturns formData
             + formRebagging formData - formDamaged formData) in
  {| itemName := itemName formData;
     formDate := formDate formData;
     openingStock := openingStock formData;
     newStock := newStock formData;
     newBalance := newBalance;
     issuedProduction := issuedProduction formData;
     formReturns := formReturns formData;
     formRebagging := formRebagging formData;
     formDamaged := formDamaged formData;
     closingStock := closingStock |}.

(** [isDateInPast]: [new Date(date)] is midnight UTC of the calendar date,
    and both instants are moved to the start of their local day before they
    are compared. *)
Definition isDateInPast (zone : TimeZone) (now : Z) (d : Z) : bool :=
  let today := setHoursZero zone now in
  let selected := setHoursZero zone (getTime d) in
  selected <? today.

(** The object literal [record] of [handleSaveRecord]; the [timestamp]
    column, which no computation reads, is left out. *)
Definition buildRecord (formData : FormData) (d : Z) : InventoryRecord :=
  {| item_name := trim (itemName formData);
     date := d;
     opening_stock := openingStock formData;
     new_stock := newStock formData;
     new_balance := newBalance formData;
     issued_production := issuedProduction formData;
     returns := formReturns formData;
     rebagging := formRebagging formData;
     damaged := formDamaged formData;
     closing_stock := closingStock formData |}.

(** The table [inventory_records]: rows keyed by their [id]. *)
Definition Store : Type := list (Z * InventoryRecord).

(** [getDataForDate]: [.single()] answers only when exactly one row
    matches. *)
Definition getDataForDate (store : Store) (productName : string) (targetDate : Z)
  : option (Z * InventoryRecord) :=
  match filter (fun row => String.eqb (item_name (snd row)) productName
                           && (date (snd row) =? targetDate)) store with
  | [row] => Some row
  | _ => None
  end.

(** [update(record).eq('id', id)]. *)
Definition updateById (id : Z) (record : InventoryRecord) (store : Store) : Store :=
  map (fun row => if fst row =? id then (fst row, record) else row) store.

(** [insert([record])]: the store picks an unused [id]. *)
Definition insertRow (record : InventoryRecord) (store : Store) : Store :=
  store ++ [(1 + fold_right Z.max 0 (map fst store), record)].

Inductive SaveOutcome : Type :=
| MissingName
| MissingDate
| PastDate
| Updated (store : Store)
| Inserted (store : Store).

Definition handleSaveRecord (zone : TimeZone) (now : Z) (formData : FormData)
  (store : Store) : SaveOutcome :=
  if String.eqb (trim (itemName formData)) "" then MissingName
  else
    match formDate formData with
    | None => MissingDate
    | Some d =>
        if isDateInPast zone now d then PastDate
        else
          let record := buildRecord formData d in
          match getDataForDate store (itemName formData) d with
          | Some existingRecord => Updated (updateById (fst existingRecord) record store)
          | None => Inserted (insertRow record store)
          end
    end.

(** The initial state of the form. *)
Definition initialFormData : FormData :=
  {| itemName := "";
     formDate := None;
     openingStock := 0;
     newStock := 0;
     newBalance := 0;
     issuedProduction := 0;
     formReturns := 0;
     formRebagging := 0;
     formDamaged := 0;
     closingStock := 0 |}.

(** The quantities the user can type; [newBalance] and [closingStock] are
    read-only inputs. *)
Inductive Quantity : Type :=
| QOpeningStock | QNewStock | QIssuedProduction | QReturns | QRebagging | QDamaged.

(** What changes the state of the form between two renders. *)
Inductive FormEvent : Type :=
| Mount (today : Z)
| ChangeItemName (value : string)
| ChangeDate (value : option Z)
| ChangeQuantity (field : Quantity) (value : Z)
| ProductSelected (selectedProduct : InventoryRecord) (today : Z)
| OpeningStockFilled (latestClosingStock : Z)
| FormCleared (today : Z).

(** The update each event hands to [setFormData]: [handleInputChange], the
    two effects on mount and on [selectedProduct],
    [checkProductAndFillOpeningStock] and [clearForm]. *)
Definition setFormData (event : FormEvent) (prev : FormData) : FormData :=
  match event with
  | Mount today =>
      {| itemName := itemName prev; formDate := Some today;
         openingStock := openingStock prev; newStock := newStock prev;
         newBalance := newBalance prev; issuedProduction := issuedProduction prev;
         formReturns := formReturns prev; formRebagging := formRebagging prev;
         formDamaged := formDamaged prev; closingStock := closingStock prev |}
  | ChangeItemName value =>
      {| itemName := value; formDate := formDate prev;
         openingStock := openingStock prev; newStock := newStock prev;
         newBalance := newBalance prev; issuedProduction := issuedProduction prev;
         formReturns := formReturns prev; formRebagging := formRebagging prev;
         formDamaged := formDamaged prev; closingStock := closingStock prev |}
  | ChangeDate value =>
      {| itemName := itemName prev; formDate := value;
         openingStock := openingStock prev; newStock := newStock prev;
         newBalance := newBalance prev; issuedProduction := issuedProduction prev;
         formReturns := formReturns prev; formRebagging := formRebagging prev;
         formDamaged := formDamaged prev; closingStock := closingStock prev |}
  | ChangeQuantity field value =>
      {| itemName := itemName prev; formDate := formDate prev;
         openingStock :=
           match field with QOpeningStock => value | _ => openingStock prev end;
         newStock := match field with QNewStock => value | _ => newStock prev end;
         newBalance := newBalance prev;
         issuedProduction :=
           match field with QIssuedProduction => value | _ => issuedProduction prev end;
         formReturns := match field with QReturns => value | _ => formReturns prev end;
         formRebagging :=
           match field with QRebagging => value | _ => formRebagging prev end;
         formDamaged := match field with QDamaged => value | _ => formDamaged prev end;
         closingStock := closingStock prev |}
  | ProductSelected selectedProduct today =>
      {| itemName := item_name selectedProduct; formDate := Some today;
         openingStock := closing_stock selectedProduct; newStock := 0;
         newBalance := newBalance prev; issuedProduction := 0;
         formReturns := 0; formRebagging := 0; formDamaged := 0;
         closingStock := closingStock prev |}
  | OpeningStockFilled latestClosingStock =>
      {| itemName := itemName prev; formDate := formDate prev;
         openingStock := latestClosingStock; newStock := newStock prev;
         newBalance := newBalance prev; issuedProduction := issuedProduction prev;
         formReturns := formReturns prev; formRebagging := formRebagging prev;
         formDamaged := formDamaged prev; closingStock := closingStock prev |}
  | FormCleared today =>
      {| itemName := ""; formDate := Some today;
         openingStock := 0; newStock := 0; newBalance := 0; issuedProduction := 0;
         formReturns := 0; formRebagging := 0; formDamaged := 0;
         closingStock := 0 |}
  end.

(** A change of [formData] gives a new [calculateValues], whose effect runs
    before the next event is handled. *)
Definition step (formData : FormData) (event : FormEvent) : FormData :=
  calculateValues (setFormData event formData).

(** The state of the form when the user presses save, after the events
    [events] since the component was created. *)
Definition formState (events : list FormEvent) : FormData :=
  fold_left step events (calculateValues initialFormData).

(** The rows of [store] after the outcome of a save, when it wrote. *)
Definition written (outcome : SaveOutcome) : option Store :=
  match outcome with
  | Updated store | Inserted store => Some store
  | _ => None
  end.

End Form.

(* ------------------------------------------------------------------ *)
(** * Vocabulary of the properties *)
(* ------------------------------------------------------------------ *)

Module Spec.
Import JS Inventory Reports.

(** The records of one product, and the records of one day. *)
Definition recordsOf (name : string) (records : list InventoryRecord)
  : list InventoryRecord :=
  filter (fun r => String.eqb (item_name r) name) records.

Definition recordsOn (d : Z) (records : list InventoryRecord)
  : list InventoryRecord :=
  filter (fun r => Z.eqb (date r) d) records.

(** A record is the latest of its product when every other record of the
    product is strictly older. *)
Definition latestOf (r : InventoryRecord) (records : list InventoryRecord) : Prop :=
  In r records /\
  forall r', In r' records -> item_name r' = item_name r ->
             date r' < date r \/ r' = r.

(** The five movement quantities the weekly view adds up. *)
Definition movement (r : InventoryRecord) : Z :=
  new_stock r + issued_production r + returns r + rebagging r + damaged r.

(** Stock received by one record in the per-date view. *)
Definition stockIn (r : InventoryRecord) : Z :=
  new_stock r + returns r + rebagging r.

Definition levelOf (activity : Z) : ActivityLevel :=
  if 100 <? activity then high
  else if 50 <? activity then medium
  else low.

(** A rate that is a finite percentage of [num] over [den]: non-negative;
    for a positive [den] the double that [(num / den) * 100] returns, which
    lies within the relative error [2 ^ -51] of [100 * num / den], is at
    most [100] when [num <= den] and at least [100] when [den <= num], and
    is [0] only for [num = 0]; and equal to [0] when [den] is [0]. *)
Definition finiteRate (num den : Z) (x : number) : Prop :=
  exists q : Q,
    x = Fin q /\ (0 <= q)%Q /\
    (0 < den ->
     (q == toDouble (toDouble (inject_Z num / inject_Z den) * 100))%Q /\
     (Qabs (q - inject_Z (100 * num) / inject_Z den)
      <= inject_Z (100 * num) / inject_Z den * 2 ^ (-51))%Q /\
     (num <= den -> (q <= 100)%Q) /\
     (den <= num -> (100 <= q)%Q) /\
     ((q == 0)%Q <-> num = 0)) /\
    (den = 0 -> q = 0%Q).

(** The same, with the upper bound [100]. *)
Definition boundedRate (den : Z) (x : number) : Prop :=
  (0 < den -> exists q : Q, x = Fin q /\ (0 <= q)%Q /\ (q <= 100)%Q) /\
  (den = 0 -> x = Fin 0%Q).

(** The rule of the activity tag, for a given notion of the activity of
    one record: the tag of a row is the level of the total activity of its
    product, and a product whose total activity is zero has no row. *)
Definition activityRule (activity : InventoryRecord -> Z)
  (records : list InventoryRecord) : Prop :=
  forall zone w, generateWeeklyReport zone records = Some w ->
    (forall row, In row (product_movements w) ->
       activity_level row =
         levelOf (reduce_sum activity (recordsOf (pm_item_name row) records))) /\
    (forall name, reduce_sum activity (recordsOf name records) = 0 ->
       ~ exists row, In row (product_movements w) /\ pm_item_name row = name).

(** The percentages of the three views stay within [0, 100]. *)
Definition ratesWithinPercent (records : list InventoryRecord) : Prop :=
  (forall rows row,
      generateReturnsRebaggingReport records = Some rows -> In row rows ->
      boundedRate (reduce_sum new_stock (recordsOf (rr_item_name row) records))
                  (rr_return_rate row)) /\
  (forall rows row,
      generateDamagedStockReport records = Some rows -> In row rows ->
      boundedRate (reduce_sum new_stock (recordsOf (ds_item_name row) records))
                  (damage_percentage row)) /\
  (forall zone w,
      generateWeeklyReport zone records = Some w ->
      boundedRate (reduce_sum new_stock records) (em_return_rate (efficiency_metrics w)) /\
      boundedRate (reduce_sum new_stock records) (em_damage_rate (efficiency_metrics w)) /\
      boundedRate (reduce_sum new_stock records)
                  (em_rebagging_rate (efficiency_metrics w))).






(** Two sample records of a product ["A"], on consecutive days. *)
Definition sampleDay1 : InventoryRecord :=
  {| item_name := "A"; date := 19723; opening_stock := 10; new_stock := 5;
     new_balance := 15; issued_production := 3; returns := 0; rebagging := 0;
     damaged := 0; closing_stock := 12 |}.

Definition sampleDay2 : InventoryRecord :=
  {| item_name := "A"; date := 19724; opening_stock := 12; new_stock := 0;
     new_balance := 12; issued_production := 12; returns := 0; rebagging := 0;
     damaged := 0; closing_stock := 0 |}.

(** A record with returns, rebagging and damage below the stock received. *)
Definition sampleMixed : InventoryRecord :=
  {| item_name := "B"; date := 19723; opening_stock := 0; new_stock := 40;
     new_balance := 40; issued_production := 30; returns := 10; rebagging := 4;
     damaged := 2; closing_stock := 22 |}.

End Spec.

(* ------------------------------------------------------------------ *)
(** * Further vocabulary of the views *)
(* ------------------------------------------------------------------ *)

Module ViewSpec.
Import JS Inventory Reports.

(** A record is the earliest of its product when every other record of
    the product is strictly younger. *)
Definition earliestOf (r : InventoryRecord) (records : list InventoryRecord) : Prop :=
  In r records /\
  forall r', In r' records -> item_name r' = item_name r ->
             date r < date r' \/ r' = r.

(** The word a balance row or a history row carries for a difference. *)
Definition trendOf (difference : Z) : string :=
  if 0 <? difference then "increasing"%string
  else if difference <? 0 then "decreasing"%string
  else "stable"%string.

(** The value of a finite [number]. *)
Definition valueOf (x : number) : Q :=
  match x with
  | Fin q => q
  | _ => 0%Q
  end.

(** [m.get(k)] on a map of totals. *)
Fixpoint total_of {K : Type} (eqb : K -> K -> bool) (k : K) (m : list (K * Z))
  : option Z :=
  match m with
  | [] => None
  | (k', x) :: m' => if eqb k' k then Some x else total_of eqb k m'
  end.

(** [m.get(k)] on a map of records. *)
Fixpoint record_of (k : string) (m : list (string * InventoryRecord))
  : option InventoryRecord :=
  match m with
  | [] => None
  | (k', r) :: m' => if String.eqb k' k then Some r else record_of k m'
  end.

(** The record a map of records holds for [k] after one more record has
    been offered to it. *)
Definition keep (k : string) (o : option InventoryRecord) (r : InventoryRecord)
  : option InventoryRecord :=
  if String.eqb (item_name r) k then
    Some (match o with
          | Some existing => if getTime (date existing) <? getTime (date r) then r
                             else existing
          | None => r
          end)
  else o.

End ViewSpec.

(* ------------------------------------------------------------------ *)
(** * Vocabulary of the store *)
(* ------------------------------------------------------------------ *)

Module StoreSpec.
Import JS Inventory Form.



End StoreSpec.

(* ------------------------------------------------------------------ *)
(** * The product list ([HistorySection], [SearchSection]) *)
(* ------------------------------------------------------------------ *)

Module History.
Import JS Inventory Reports.

Record ProductSummary : Type := {
  ps_item_name : string;
  latest_record : InventoryRecord;
  ps_total_records : Z;
  current_stock : Z;
  last_updated : Z;
  ps_stock_trend : string
}.

(** [arr[i]] followed by a field access, for a literal index. *)
Definition at_index {A : Type} (arr : list A) (i : nat) : option A := nth_error arr i.

(** The callback that turns the bucket of a product into its summary. *)
Definition productSummary (entry : string * list InventoryRecord)
  : option ProductSummary :=
  let '(itemName, productRecords) := entry in
  let sortedRecords := sort byDateDesc productRecords in
  latestRecord <- first sortedRecords ;;
  stockTrend <-
    (if 2 <=? len sortedRecords then
       current <- at_index sortedRecords 0 ;;
       previous <- at_index sortedRecords 1 ;;
       let currentStock := closing_stock current in
       let previousStock := closing_stock previous in
       Some (if previousStock <? currentStock then "increasing"%string
             else if currentStock <? previousStock then "decreasing"%string
             else "stable"%string)
     else Some "stable"%string) ;;
  Some {| ps_item_name := itemName;
          latest_record := latestRecord;
          ps_total_records := len sortedRecords;
          current_stock := closing_stock latestRecord;
          last_updated := date latestRecord;
          ps_stock_trend := stockTrend |}.

(** [generateProductSummaries], and the same steps in [loadAllProducts]:
    the sorted list of summaries handed to the state. *)
Definition generateProductSummaries (records : list InventoryRecord)
  : option (list ProductSummary) :=
  summaries <- mapM productSummary (groupBy String.eqb item_name records) ;;
  Some (sort (fun a b => getTime (last_updated b) - getTime (last_updated a)) summaries).

(** The three counters of the statistics cards. *)
Definition inStockCount (productSummaries : list ProductSummary) : Z :=
  len (filter (fun p => 0 <? current_stock p) productSummaries).

Definition outOfStockCount (productSummaries : list ProductSummary) : Z :=
  len (filter (fun p => current_stock p =? 0) productSummaries).

Definition totalRecordsCount (productSummaries : list ProductSummary) : Z :=
  reduce_sum ps_total_records productSummaries.

(** The search of [SearchSection.handleSearch] once the store has
    answered with [records]: [uniqueProducts] keeps one record per
    product, replaced only by a record of a later date. *)
Fixpoint keepMostRecent (record : InventoryRecord)
  (uniqueProducts : list (string * InventoryRecord)) : list (string * InventoryRecord) :=
  match uniqueProducts with
  | [] => [(item_name record, record)]
  | (k, existing) :: rest =>
      if String.eqb k (item_name record) then
        if getTime (date existing) <? getTime (date record) then (k, record) :: rest
        else uniqueProducts
      else (k, existing) :: keepMostRecent record rest
  end.

Definition searchResults (records : list InventoryRecord) : list InventoryRecord :=
  if len records =? 0 then []
  else
    let uniqueProducts := fold_left (fun m record => keepMostRecent record m) records [] in
    sort byDateDesc (map snd uniqueProducts).

End History.

(* ------------------------------------------------------------------ *)
(** * Pages of a list ([HistorySection], [ProductHistoryDetail]) *)
(* ------------------------------------------------------------------ *)

Module Paging.
Import JS Reports.

(** [Math.ceil]. *)
Definition ceil (x : number) : number :=
  match x with
  | Fin q => ofZ (Qceiling q)
  | other => other
  end.

(** [Array.prototype.slice(start, end)]: negative indices count from the
    end, and both are clamped to the array. *)
Definition slice {A : Type} (start finish : Z) (arr : list A) : list A :=
  let n := len arr in
  let k := if start <? 0 then Z.max (n + start) 0 else Z.min start n in
  let final := if finish <? 0 then Z.max (n + finish) 0 else Z.min finish n in
  let count := Z.max (final - k) 0 in
  firstn (Z.to_nat count) (skipn (Z.to_nat k) arr).

(** [getCurrentPageData]. *)
Definition getCurrentPageData {A : Type} (currentPage pageSize : Z) (filtered : list A)
  : list A :=
  let startIndex := (currentPage - 1) * pageSize in
  let endIndex := startIndex + pageSize in
  slice startIndex endIndex filtered.

(** [Math.ceil(filtered.length / pageSize)]. *)
Definition totalPages {A : Type} (filtered : list A) (pageSize : Z) : number :=
  ceil (div (len filtered) pageSize).

(** The two numbers of the line "Showing a to b of n". *)
Definition showingFrom (currentPage pageSize : Z) : Z := (currentPage - 1) * pageSize + 1.

Definition showingTo {A : Type} (currentPage pageSize : Z) (filtered : list A) : Z :=
  Z.min (currentPage * pageSize) (len filtered).

(** The pages [1 .. n] one after the other. *)
Fixpoint pagesUpTo {A : Type} (n : nat) (pageSize : Z) (filtered : list A) : list A :=
  match n with
  | O => []
  | S m => pagesUpTo m pageSize filtered
           ++ getCurrentPageData (Z.of_nat n) pageSize filtered
  end.

End Paging.

(* ------------------------------------------------------------------ *)
(** * The history of one product ([ProductHistoryDetail]) *)
(* ------------------------------------------------------------------ *)

Module Detail.
Import JS Inventory Reports.

Inductive MovementType : Type :=
| stable | stock_in | stock_out | mixed | net_increase | net_decrease.

Record MovementDetails : Type := {
  md_new_stock : Z;
  md_issued_production : Z;
  md_returns : Z;
  md_rebagging : Z;
  md_damaged : Z
}.

Record StockMovement : Type := {
  mv_date : Z;
  mv_movement_type : MovementType;
  mv_stock_in : Z;
  mv_stock_out : Z;
  mv_net_change : Z;
  mv_opening_stock : Z;
  mv_closing_stock : Z;
  details : MovementDetails
}.

(** [x || 0] on a number. *)
Definition orZero (x : Z) : Z := if x =? 0 then 0 else x.

(** The callback of [processStockMovements]. *)
Definition stockMovement (record : InventoryRecord) : StockMovement :=
  let stockIn := orZero (new_stock record) + orZero (returns record)
                 + orZero (rebagging record) in
  let stockOut := orZero (issued_production record) + orZero (damaged record) in
  let netChange := stockIn - stockOut in
  let movementType :=
    if (0 <? stockIn) && (stockOut =? 0) then stock_in
    else if (0 <? stockOut) && (stockIn =? 0) then stock_out
    else if (0 <? stockIn) && (0 <? stockOut) then mixed
    else if 0 <? netChange then net_increase
    else if netChange <? 0 then net_decrease
    else stable in
  {| mv_date := date record;
     mv_movement_type := movementType;
     mv_stock_in := stockIn;
     mv_stock_out := stockOut;
     mv_net_change := netChange;
     mv_opening_stock := orZero (opening_stock record);
     mv_closing_stock := orZero (closing_stock record);
     details := {| md_new_stock := orZero (new_stock record);
                   md_issued_production := orZero (issued_production record);
                   md_returns := orZero (returns record);
                   md_rebagging := orZero (rebagging record);
                   md_damaged := orZero (damaged record) |} |}.

Definition processStockMovements (productRecords : list InventoryRecord)
  : list StockMovement :=
  map stockMovement productRecords.

Record HistorySummary : Type := {
  hs_total_stock_in : Z;
  hs_total_stock_out : Z;
  hs_total_damaged : Z;
  hs_total_returns : Z;
  hs_total_rebagging : Z;
  average_daily_usage : number;
  stock_turnover_rate : number
}.

Definition calculateSummary (productRecords : list InventoryRecord) : HistorySummary :=
  let totalStockIn :=
    reduce_sum (fun record => orZero (new_stock record) + orZero (returns record)
                              + orZero (rebagging record)) productRecords in
  let totalStockOut :=
    reduce_sum (fun record => orZero (issued_production record)
                              + orZero (damaged record)) productRecords in
  let totalReturns := reduce_sum (fun record => orZero (returns record)) productRecords in
  let totalRebagging :=
    reduce_sum (fun record => orZero (rebagging record)) productRecords in
  let totalDamaged := reduce_sum (fun record => orZero (damaged record)) productRecords in
  let daysWithActivity := len productRecords in
  let averageDailyUsage :=
    if 0 <? daysWithActivity then div totalStockOut daysWithActivity else ofZ 0 in
  let stockTurnoverRate := percentage totalStockOut totalStockIn in
  {| hs_total_stock_in := totalStockIn;
     hs_total_stock_out := totalStockOut;
     hs_total_damaged := totalDamaged;
     hs_total_returns := totalReturns;
     hs_total_rebagging := totalRebagging;
     average_daily_usage := averageDailyUsage;
     stock_turnover_rate := stockTurnoverRate |}.

(** The percentage shown beside the damaged units in the insights:
    [total_damaged / total_stock_in * 100], rendered when
    [total_damaged > 0]. *)
Definition damagedShare (summary : HistorySummary) : number :=
  mulDouble (divDouble (hs_total_damaged summary) (hs_total_stock_in summary)) 100.

End Detail.

(* ------------------------------------------------------------------ *)
(** * Facts about the rounding of doubles *)
(* ------------------------------------------------------------------ *)

Module DoubleFacts.
Import JS.

(** ** Rounding to the nearest integer *)

Lemma roundTiesToEven_cases (q : Q) :
  let f := Qfloor q in
  (roundTiesToEven q = f /\ (q - inject_Z f <= 1 # 2)%Q) \/
  (roundTiesToEven q = f + 1 /\ (1 # 2 <= q - inject_Z f)%Q).
Proof.
  cbv zeta. unfold roundTiesToEven.
  destruct (q - inject_Z (Qfloor q) ?= 1 # 2)%Q eqn:E.
  - apply Qeq_alt in E. destruct (Z.even (Qfloor q)); [left|right];
      (split; [reflexivity|rewrite E; apply Qle_refl]).
  - apply Qlt_alt in E. left. split; [reflexivity|apply Qlt_le_weak, E].
  - apply Qgt_alt in E. right. split; [reflexivity|apply Qlt_le_weak, E].
Qed.

Lemma roundTiesToEven_bounds (q : Q) :
  Qfloor q <= roundTiesToEven q <= Qfloor q + 1.
Proof. destruct (roundTiesToEven_cases q) as [[-> _]|[-> _]]; lia. Qed.

Lemma roundTiesToEven_Z (z : Z) : roundTiesToEven (inject_Z z) = z.
Proof.
  unfold roundTiesToEven. rewrite Qfloor_Z.
  assert (E : (inject_Z z - inject_Z z ?= 1 # 2)%Q = Lt).
  { apply Qlt_alt. unfold Qminus. rewrite Qplus_opp_r. reflexivity. }
  rewrite E. reflexivity.
Qed.

Lemma roundTiesToEven_near (q : Q) :
  (Qabs (inject_Z (roundTiesToEven q) - q) <= 1 # 2)%Q.
Proof.
  pose proof (Qfloor_le q) as H1. pose proof (Qlt_floor q) as H2.
  rewrite inject_Z_plus in H2. change (inject_Z 1) with 1%Q in H2.
  apply Qabs_Qle_condition.
  destruct (roundTiesToEven_cases q) as [[-> H]|[-> H]];
    [|rewrite inject_Z_plus; change (inject_Z 1) with 1%Q]; split; lra.
Qed.

Lemma roundTiesToEven_mono (q r : Q) :
  (q <= r)%Q -> roundTiesToEven q <= roundTiesToEven r.
Proof.
  intros H. pose proof (Qfloor_resp_le _ _ H) as Hf.
  destruct (Z.eq_dec (Qfloor q) (Qfloor r)) as [E|N].
  - unfold roundTiesToEven. rewrite <- E.
    destruct (q - inject_Z (Qfloor q) ?= 1 # 2)%Q eqn:Eq;
      destruct (r - inject_Z (Qfloor q) ?= 1 # 2)%Q eqn:Er;
      try (destruct (Z.even (Qfloor q)); lia); try lia; exfalso.
    + apply Qeq_alt in Eq. apply Qlt_alt in Er. lra.
    + apply Qgt_alt in Eq. apply Qeq_alt in Er. lra.
    + apply Qgt_alt in Eq. apply Qlt_alt in Er. lra.
  - pose proof (roundTiesToEven_bounds q). pose proof (roundTiesToEven_bounds r). lia.
Qed.

(** ** Powers of two *)

Lemma pow2_pos (e : Z) : (0 < 2 ^ e)%Q.
Proof. apply Qpower_0_lt. reflexivity. Qed.

Lemma pow2_Z (a : Z) : 0 <= a -> (inject_Z (2 ^ a) == 2 ^ a)%Q.
Proof. intros H. apply (Zpower_Qpower 2 a H). Qed.

Lemma pow2_succ (e : Z) : (2 ^ (e + 1) == 2 * 2 ^ e)%Q.
Proof.
  rewrite Qpower_plus by discriminate. rewrite Qmult_comm. reflexivity.
Qed.

Lemma pow2_le (a b : Z) : a <= b -> (2 ^ a <= 2 ^ b)%Q.
Proof. intros H. apply Qpower_le_compat_l; [exact H|discriminate]. Qed.

Lemma Qdiv_lt_cross (a b c d : Q) :
  (0 < b -> 0 < d -> a * d < c * b -> a / b < c / d)%Q.
Proof.
  intros Hb Hd H. apply Qlt_shift_div_r; [exact Hb|].
  assert (E : (c / d * b == c * b / d)%Q) by (field; lra).
  rewrite E. apply Qlt_shift_div_l; assumption.
Qed.

Lemma log2_ratio (n : Z) (d : positive) :
  0 < n ->
  let k := Z.log2 n - Z.log2 (Z.pos d) in
  (2 ^ (k - 1) < n # d /\ n # d < 2 ^ (k + 1))%Q.
Proof.
  intros Hn k.
  destruct (Z.log2_spec n Hn) as [Ha1 Ha2].
  destruct (Z.log2_spec (Z.pos d) ltac:(lia)) as [Hb1 Hb2].
  pose proof (Z.log2_nonneg n) as Ha0. pose proof (Z.log2_nonneg (Z.pos d)) as Hb0.
  assert (Pa : 0 < 2 ^ Z.log2 n) by (apply Z.pow_pos_nonneg; lia).
  assert (Pb : 0 < 2 ^ Z.log2 (Z.pos d)) by (apply Z.pow_pos_nonneg; lia).
  rewrite (Qmake_Qdiv n d). split.
  - replace (k - 1) with (Z.log2 n - Z.succ (Z.log2 (Z.pos d))) by (unfold k; lia).
    rewrite Qpower_minus by discriminate.
    rewrite <- !pow2_Z by lia.
    apply Qdiv_lt_cross.
    + rewrite <- (Zlt_Qlt 0). lia.
    + rewrite <- (Zlt_Qlt 0). lia.
    + rewrite <- !inject_Z_mult, <- Zlt_Qlt. nia.
  - replace (k + 1) with (Z.succ (Z.log2 n) - Z.log2 (Z.pos d)) by (unfold k; lia).
    rewrite Qpower_minus by discriminate.
    rewrite <- !pow2_Z by lia.
    apply Qdiv_lt_cross.
    + rewrite <- (Zlt_Qlt 0). lia.
    + rewrite <- (Zlt_Qlt 0). lia.
    + rewrite <- !inject_Z_mult, <- Zlt_Qlt. nia.
Qed.

Lemma exponent_spec (q : Q) :
  (0 < q)%Q -> (2 ^ exponent q <= q /\ q < 2 ^ (exponent q + 1))%Q.
Proof.
  intros Hq. destruct q as [n d].
  assert (Hn : 0 < n) by (unfold Qlt in Hq; simpl in Hq; lia).
  destruct (log2_ratio n d Hn) as [H1 H2]. unfold exponent. cbn [Qnum Qden].
  set (k := Z.log2 n - Z.log2 (Z.pos d)) in *.
  destruct (Qle_bool (2 ^ k) (n # d)) eqn:E.
  - apply Qle_bool_iff in E. split; assumption.
  - split; [apply Qlt_le_weak, H1|].
    replace (k - 1 + 1) with k by lia.
    apply Qnot_le_lt. intros H. apply Qle_bool_iff in H. congruence.
Qed.

Lemma exponent_unique (q : Q) (e : Z) :
  (2 ^ e <= q)%Q -> (q < 2 ^ (e + 1))%Q -> exponent q = e.
Proof.
  intros H1 H2.
  assert (Hq : (0 < q)%Q) by (eapply Qlt_le_trans; [apply (pow2_pos e)|exact H1]).
  destruct (exponent_spec q Hq) as [G1 G2].
  assert (A : (2 ^ e < 2 ^ (exponent q + 1))%Q) by (eapply Qle_lt_trans; eassumption).
  assert (B : (2 ^ exponent q < 2 ^ (e + 1))%Q) by (eapply Qle_lt_trans; eassumption).
  apply Qpower_lt_compat_l_inv in A; [|reflexivity].
  apply Qpower_lt_compat_l_inv in B; [|reflexivity]. lia.
Qed.

Lemma exponent_mono (x y : Q) :
  (0 < x)%Q -> (x <= y)%Q -> exponent x <= exponent y.
Proof.
  intros Hx Hxy.
  assert (Hy : (0 < y)%Q) by (eapply Qlt_le_trans; eassumption).
  destruct (exponent_spec x Hx) as [X1 _]. destruct (exponent_spec y Hy) as [_ Y2].
  assert (A : (2 ^ exponent x < 2 ^ (exponent y + 1))%Q).
  { eapply Qle_lt_trans; [exact X1|]. eapply Qle_lt_trans; eassumption. }
  apply Qpower_lt_compat_l_inv in A; [|reflexivity]. lia.
Qed.

(** ** Rounding a positive rational *)

Lemma scaled_bounds (q : Q) :
  (0 < q)%Q ->
  (inject_Z (2 ^ 52) <= q / 2 ^ (exponent q - 52) /\
   q / 2 ^ (exponent q - 52) <= inject_Z (2 ^ 53))%Q.
Proof.
  intros Hq. destruct (exponent_spec q Hq) as [H1 H2].
  pose proof (pow2_pos (exponent q - 52)) as He.
  rewrite (pow2_Z 52), (pow2_Z 53) by lia. split.
  - apply Qle_shift_div_l; [exact He|].
    rewrite <- Qpower_plus by discriminate.
    replace (52 + (exponent q - 52)) with (exponent q) by lia. exact H1.
  - apply Qle_shift_div_r; [exact He|].
    rewrite <- Qpower_plus by discriminate.
    replace (53 + (exponent q - 52)) with (exponent q + 1) by lia.
    apply Qlt_le_weak, H2.
Qed.

Lemma significand_bounds (q : Q) :
  (0 < q)%Q ->
  2 ^ 52 <= roundTiesToEven (q / 2 ^ (exponent q - 52)) <= 2 ^ 53.
Proof.
  intros Hq. destruct (scaled_bounds q Hq) as [H1 H2].
  apply roundTiesToEven_mono in H1, H2. rewrite roundTiesToEven_Z in H1, H2.
  split; assumption.
Qed.

Lemma roundPos_bounds (q : Q) :
  (0 < q)%Q ->
  (2 ^ exponent q <= roundPos q /\ roundPos q <= 2 ^ (exponent q + 1))%Q.
Proof.
  intros Hq. destruct (significand_bounds q Hq) as [H1 H2].
  pose proof (pow2_pos (exponent q - 52)) as He.
  unfold roundPos. cbv zeta. split.
  - replace (exponent q) with (52 + (exponent q - 52)) at 1 by lia.
    rewrite Qpower_plus by discriminate. rewrite <- (pow2_Z 52) by lia.
    apply Qmult_le_compat_r; [|apply Qlt_le_weak, He].
    rewrite <- Zle_Qle. exact H1.
  - replace (exponent q + 1) with (53 + (exponent q - 52)) by lia.
    rewrite Qpower_plus by discriminate. rewrite <- (pow2_Z 53) by lia.
    apply Qmult_le_compat_r; [|apply Qlt_le_weak, He].
    rewrite <- Zle_Qle. exact H2.
Qed.

Lemma roundPos_mono (x y : Q) :
  (0 < x)%Q -> (x <= y)%Q -> (roundPos x <= roundPos y)%Q.
Proof.
  intros Hx Hxy.
  assert (Hy : (0 < y)%Q) by (eapply Qlt_le_trans; eassumption).
  pose proof (exponent_mono x y Hx Hxy) as He.
  destruct (Z.eq_dec (exponent x) (exponent y)) as [E|N].
  - unfold roundPos. cbv zeta. rewrite E.
    pose proof (pow2_pos (exponent y - 52)) as Hp.
    apply Qmult_le_compat_r; [|apply Qlt_le_weak, Hp].
    rewrite <- Zle_Qle. apply roundTiesToEven_mono.
    apply Qmult_le_compat_r; [exact Hxy|].
    apply Qlt_le_weak, Qinv_lt_0_compat, Hp.
  - destruct (roundPos_bounds x Hx) as [_ X]. destruct (roundPos_bounds y Hy) as [Y _].
    eapply Qle_trans; [exact X|]. eapply Qle_trans; [|exact Y].
    apply pow2_le. lia.
Qed.

Lemma roundPos_error (q : Q) :
  (0 < q)%Q -> (Qabs (roundPos q - q) <= q * 2 ^ (-53))%Q.
Proof.
  intros Hq. destruct (exponent_spec q Hq) as [H1 _].
  set (e := exponent q - 52) in *.
  pose proof (pow2_pos e) as He.
  pose proof (roundTiesToEven_near (q / 2 ^ e)) as Hn.
  unfold roundPos. cbv zeta. fold e.
  set (m := inject_Z (roundTiesToEven (q / 2 ^ e))) in *.
  assert (E : (m * 2 ^ e - q == (m - q / 2 ^ e) * 2 ^ e)%Q) by (field; lra).
  rewrite E, Qabs_Qmult, (Qabs_pos (2 ^ e)) by (apply Qlt_le_weak, He).
  apply Qle_trans with ((1 # 2) * 2 ^ e)%Q.
  - apply Qmult_le_compat_r; [exact Hn|apply Qlt_le_weak, He].
  - assert (P : (2 ^ exponent q == 2 ^ 53 * (2 ^ (-1) * 2 ^ e))%Q).
    { rewrite <- !Qpower_plus by discriminate. apply Qpower_comp; [reflexivity|].
      unfold e. lia. }
    assert (P53 : (2 ^ 53 * 2 ^ (-53) == 1)%Q) by reflexivity.
    assert (P1 : (2 ^ (-1) == 1 # 2)%Q) by reflexivity.
    rewrite P, P1 in H1.
    apply Qle_trans with (2 ^ 53 * ((1 # 2) * 2 ^ e) * 2 ^ (-53))%Q.
    + assert (E2 : (2 ^ 53 * ((1 # 2) * 2 ^ e) * 2 ^ (-53)
                    == (2 ^ 53 * 2 ^ (-53)) * ((1 # 2) * 2 ^ e))%Q) by ring.
      rewrite E2, P53, Qmult_1_l. apply Qle_refl.
    + apply Qmult_le_compat_r; [exact H1|]. apply Qlt_le_weak, pow2_pos.
Qed.

(** ** Rounding a rational *)

Lemma roundPos_pos (q : Q) : (0 < q)%Q -> (0 < roundPos q)%Q.
Proof.
  intros Hq. eapply Qlt_le_trans; [apply (pow2_pos (exponent q))|].
  apply roundPos_bounds, Hq.
Qed.

Lemma toDouble_pos (q : Q) : (0 < q)%Q -> (toDouble q == roundPos q)%Q.
Proof.
  intros Hq. unfold toDouble.
  assert (E : (q ?= 0)%Q = Gt) by (apply Qgt_alt, Hq).
  rewrite E. apply Qred_correct.
Qed.

Lemma toDouble_neg (q : Q) : (q < 0)%Q -> (toDouble q == - roundPos (- q))%Q.
Proof.
  intros Hq. unfold toDouble.
  assert (E : (q ?= 0)%Q = Lt) by (apply Qlt_alt, Hq).
  rewrite E. apply Qred_correct.
Qed.

Lemma toDouble_zero (q : Q) : (q == 0)%Q -> toDouble q = 0%Q.
Proof.
  intros Hq. unfold toDouble.
  assert (E : (q ?= 0)%Q = Eq) by (apply Qeq_alt, Hq).
  rewrite E. reflexivity.
Qed.

Lemma toDouble_sign (q : Q) :
  ((0 < q -> 0 < toDouble q) /\ (q < 0 -> toDouble q < 0) /\
   (0 <= q -> 0 <= toDouble q))%Q.
Proof.
  assert (P : (0 < q -> 0 < toDouble q)%Q).
  { intros H. rewrite (toDouble_pos q H). apply roundPos_pos, H. }
  split; [exact P|]. split.
  - intros H. rewrite (toDouble_neg q H).
    assert (G : (0 < roundPos (- q))%Q) by (apply roundPos_pos; lra). lra.
  - intros H. destruct (Qlt_le_dec 0 q) as [L|L].
    + apply Qlt_le_weak, P, L.
    + rewrite (toDouble_zero q); [apply Qle_refl|lra].
Qed.

Lemma toDouble_mono (x y : Q) : (x <= y)%Q -> (toDouble x <= toDouble y)%Q.
Proof.
  intros H. destruct (toDouble_sign x) as (Px & Nx & _).
  destruct (toDouble_sign y) as (Py & Ny & Zy).
  destruct (Qlt_le_dec 0 x) as [Lx|Lx].
  - assert (Ly : (0 < y)%Q) by lra.
    rewrite (toDouble_pos x Lx), (toDouble_pos y Ly). apply roundPos_mono; assumption.
  - destruct (Qlt_le_dec x 0) as [Lx'|Lx'].
    + destruct (Qlt_le_dec y 0) as [Ly|Ly].
      * rewrite (toDouble_neg x Lx'), (toDouble_neg y Ly).
        assert (G : (roundPos (- y) <= roundPos (- x))%Q)
          by (apply roundPos_mono; lra).
        lra.
      * specialize (Nx Lx'). specialize (Zy Ly). lra.
    + rewrite (toDouble_zero x) by lra. apply Zy. lra.
Qed.

Lemma toDouble_error (q : Q) :
  (Qabs (toDouble q - q) <= Qabs q * 2 ^ (-53))%Q.
Proof.
  destruct (Qlt_le_dec 0 q) as [L|L].
  - rewrite (toDouble_pos q L), (Qabs_pos q) by lra. apply roundPos_error, L.
  - destruct (Qlt_le_dec q 0) as [L'|L'].
    + rewrite (toDouble_neg q L'), (Qabs_neg q) by lra.
      assert (E : (- roundPos (- q) - q == - (roundPos (- q) - - q))%Q) by ring.
      rewrite E, Qabs_opp. apply roundPos_error. lra.
    + assert (Z0 : (q == 0)%Q) by lra.
      rewrite (toDouble_zero q Z0), Z0. discriminate.
Qed.

Lemma toDouble_le (x c : Q) : toDouble c = c -> (x <= c)%Q -> (toDouble x <= c)%Q.
Proof. intros E H. rewrite <- E. apply toDouble_mono, H. Qed.

Lemma toDouble_ge (x c : Q) : toDouble c = c -> (c <= x)%Q -> (c <= toDouble x)%Q.
Proof. intros E H. rewrite <- E. apply toDouble_mono, H. Qed.

Lemma toDouble_comp (x y : Q) : (x == y)%Q -> (toDouble x == toDouble y)%Q.
Proof.
  intros E. apply Qle_antisym; apply toDouble_mono; rewrite E; apply Qle_refl.
Qed.

(** The double that [(n / d) * 100] returns. *)
Lemma toDouble_percent (n d : Z) :
  0 <= n -> 0 < d ->
  let x := (inject_Z (100 * n) / inject_Z d)%Q in
  let q := toDouble (toDouble (inject_Z n / inject_Z d) * 100) in
  (0 <= q)%Q /\
  (n <= d -> (q <= 100)%Q) /\
  (d <= n -> (100 <= q)%Q) /\
  ((q == 0)%Q <-> n = 0) /\
  (Qabs (q - x) <= x * 2 ^ (-51))%Q.
Proof.
  intros Hn Hd x q.
  assert (Pd : (0 < inject_Z d)%Q) by (rewrite <- (Zlt_Qlt 0); exact Hd).
  assert (Pn : (0 <= inject_Z n)%Q) by (rewrite <- (Zle_Qle 0); exact Hn).
  set (r := (inject_Z n / inject_Z d)%Q) in *.
  assert (Hr : (0 <= r)%Q).
  { unfold r. apply Qle_shift_div_l; [exact Pd|]. rewrite Qmult_0_l. exact Pn. }
  assert (Ex : (x == 100 * r)%Q).
  { unfold x, r. rewrite inject_Z_mult. change (inject_Z 100) with 100%Q.
    field. lra. }
  assert (H1 : (0 <= toDouble r)%Q) by (apply toDouble_sign, Hr).
  assert (H100 : toDouble 100 = 100%Q) by reflexivity.
  assert (Hone : toDouble 1 = 1%Q) by reflexivity.
  split; [apply toDouble_sign; lra|]. split; [|split; [|split]].
  - intros Hle. apply toDouble_le; [exact H100|].
    assert (G : (toDouble r <= 1)%Q).
    { apply toDouble_le; [exact Hone|]. unfold r.
      apply Qle_shift_div_r; [exact Pd|]. rewrite Qmult_1_l, <- Zle_Qle. exact Hle. }
    lra.
  - intros Hle. apply toDouble_ge; [exact H100|].
    assert (G : (1 <= toDouble r)%Q).
    { apply toDouble_ge; [exact Hone|]. unfold r.
      apply Qle_shift_div_l; [exact Pd|]. rewrite Qmult_1_l, <- Zle_Qle. exact Hle. }
    lra.
  - split.
    + intros E. destruct (Z.eq_dec n 0) as [Z0|N]; [exact Z0|exfalso].
      assert (Pr : (0 < r)%Q).
      { unfold r. apply Qlt_shift_div_l; [exact Pd|].
        rewrite Qmult_0_l, <- (Zlt_Qlt 0). lia. }
      assert (P1 : (0 < toDouble r)%Q) by (apply toDouble_sign, Pr).
      assert (P2 : (0 < q)%Q) by (apply toDouble_sign; lra).
      lra.
    + intros ->. unfold q, r. reflexivity.
  - pose proof (toDouble_error r) as E1.
    pose proof (toDouble_error (toDouble r * 100)) as E2. fold q in E2.
    rewrite (Qabs_pos r) in E1 by exact Hr.
    rewrite (Qabs_pos (toDouble r * 100)) in E2 by lra.
    apply Qabs_Qle_condition in E1. apply Qabs_Qle_condition in E2.
    assert (U : (2 ^ (-53) == 1 # 9007199254740992)%Q) by reflexivity.
    assert (V : (2 ^ (-51) == 1 # 2251799813685248)%Q) by reflexivity.
    rewrite U in E1, E2. rewrite V, Ex.
    apply Qabs_Qle_condition. split; nra.
Qed.

End DoubleFacts.

(* ------------------------------------------------------------------ *)
(** * Facts about the library functions *)
(* ------------------------------------------------------------------ *)

Module JSFacts.
Import JS.

Section ReduceSum.
Context {A : Type}.
Variable f : A -> Z.

Lemma fold_sum_acc (l : list A) (a : Z) :
  fold_left (fun sum r => sum + f r) l a = a + reduce_sum f l.
Proof.
  unfold reduce_sum. revert a.
  induction l as [|x l IH]; intros a; simpl.
  - lia.
  - rewrite (IH (a + f x)), (IH (f x)). lia.
Qed.

Lemma reduce_sum_cons (x : A) (l : list A) :
  reduce_sum f (x :: l) = f x + reduce_sum f l.
Proof.
  unfold reduce_sum at 1. simpl. rewrite fold_sum_acc. lia.
Qed.

Lemma reduce_sum_app (l1 l2 : list A) :
  reduce_sum f (l1 ++ l2) = reduce_sum f l1 + reduce_sum f l2.
Proof.
  induction l1 as [|x l1 IH]; simpl.
  - reflexivity.
  - rewrite !reduce_sum_cons, IH. lia.
Qed.

Lemma reduce_sum_perm (l1 l2 : list A) :
  Permutation l1 l2 -> reduce_sum f l1 = reduce_sum f l2.
Proof.
  induction 1 as [|x l1 l2 _ IH|x y l|l1 l2 l3 _ IH1 _ IH2].
  - reflexivity.
  - rewrite !reduce_sum_cons, IH. reflexivity.
  - rewrite !reduce_sum_cons. lia.
  - congruence.
Qed.

Lemma reduce_sum_nonneg (l : list A) :
  (forall x, In x l -> 0 <= f x) -> 0 <= reduce_sum f l.
Proof.
  induction l as [|x l IH]; intros H.
  - reflexivity.
  - rewrite reduce_sum_cons.
    assert (0 <= f x) by (apply H; left; reflexivity).
    assert (0 <= reduce_sum f l) by (apply IH; intros y Hy; apply H; right; exact Hy).
    lia.
Qed.
End ReduceSum.

Lemma reduce_sum_ext {A : Type} (f g : A -> Z) (l : list A) :
  (forall x, In x l -> f x = g x) -> reduce_sum f l = reduce_sum g l.
Proof.
  induction l as [|x l IH]; intros H.
  - reflexivity.
  - rewrite !reduce_sum_cons, IH.
    + rewrite (H x); [reflexivity | left; reflexivity].
    + intros y Hy. apply H. right. exact Hy.
Qed.

Lemma reduce_sum_map {A B : Type} (f : B -> Z) (g : A -> B) (l : list A) :
  reduce_sum f (map g l) = reduce_sum (fun x => f (g x)) l.
Proof.
  induction l as [|x l IH]; simpl.
  - reflexivity.
  - rewrite !reduce_sum_cons, IH. reflexivity.
Qed.

Lemma reduce_sum_minus {A : Type} (f g : A -> Z) (l : list A) :
  reduce_sum (fun x => f x - g x) l = reduce_sum f l - reduce_sum g l.
Proof.
  induction l as [|x l IH].
  - reflexivity.
  - rewrite !reduce_sum_cons, IH. lia.
Qed.

Lemma reduce_sum_plus {A : Type} (f g : A -> Z) (l : list A) :
  reduce_sum (fun x => f x + g x) l = reduce_sum f l + reduce_sum g l.
Proof.
  induction l as [|x l IH].
  - reflexivity.
  - rewrite !reduce_sum_cons, IH. lia.
Qed.

Section Sort.
Context {A : Type}.
Variable comparefn : A -> A -> Z.

Lemma sort_insert_perm (a : A) (l : list A) :
  Permutation (a :: l) (sort_insert comparefn a l).
Proof.
  induction l as [|b l IH]; simpl.
  - apply Permutation_refl.
  - destruct (0 <? comparefn a b).
    + eapply perm_trans; [apply perm_swap|]. apply perm_skip. exact IH.
    + apply Permutation_refl.
Qed.

Lemma sort_perm (l : list A) : Permutation l (sort comparefn l).
Proof.
  induction l as [|a l IH]; simpl.
  - apply perm_nil.
  - eapply perm_trans; [apply perm_skip; exact IH|]. apply sort_insert_perm.
Qed.

Lemma sort_In (x : A) (l : list A) : In x (sort comparefn l) <-> In x l.
Proof.
  split; apply Permutation_in.
  - apply Permutation_sym, sort_perm.
  - apply sort_perm.
Qed.

Lemma sort_length (l : list A) : List.length (sort comparefn l) = List.length l.
Proof. symmetry. apply Permutation_length, sort_perm. Qed.

Lemma sort_sum (f : A -> Z) (l : list A) :
  reduce_sum f (sort comparefn l) = reduce_sum f l.
Proof. symmetry. apply reduce_sum_perm, sort_perm. Qed.

Lemma sort_filter_perm (p : A -> bool) (l : list A) :
  Permutation (filter p l) (filter p (sort comparefn l)).
Proof.
  assert (G : forall l1 l2 : list A, Permutation l1 l2 ->
                Permutation (filter p l1) (filter p l2)).
  { induction 1 as [|x l1 l2 _ IH|x y l0|l1 l2 l3 _ IH1 _ IH2]; simpl.
    - apply perm_nil.
    - destruct (p x); [apply perm_skip|]; exact IH.
    - destruct (p x), (p y); try apply Permutation_refl. apply perm_swap.
    - eapply perm_trans; eassumption. }
  apply G, sort_perm.
Qed.

(** The order the comparator induces, when it is a total preorder. *)
Hypothesis comparefn_total : forall a b, 0 < comparefn a b -> comparefn b a <= 0.
Hypothesis comparefn_trans :
  forall a b c, comparefn a b <= 0 -> comparefn b c <= 0 -> comparefn a c <= 0.

Lemma sort_insert_ordered (a : A) (l : list A) :
  ordered comparefn l -> ordered comparefn (sort_insert comparefn a l).
Proof.
  induction 1 as [|b l Hb Hl IH]; simpl.
  - constructor; [intros x []|constructor].
  - destruct (0 <? comparefn a b) eqn:E.
    + apply Z.ltb_lt in E. constructor; [|exact IH].
      intros x Hx. apply (Permutation_in _ (Permutation_sym (sort_insert_perm a l))) in Hx.
      destruct Hx as [<-|Hx]; [apply comparefn_total; exact E|apply Hb; exact Hx].
    + apply Z.ltb_ge in E. constructor; [|constructor; assumption].
      intros x [<-|Hx]; [exact E|].
      apply comparefn_trans with b; [exact E|apply Hb; exact Hx].
Qed.

Lemma sort_ordered (l : list A) : ordered comparefn (sort comparefn l).
Proof.
  induction l as [|a l IH]; simpl.
  - constructor.
  - apply sort_insert_ordered, IH.
Qed.

Lemma sort_first_least (l : list A) (h : A) :
  first (sort comparefn l) = Some h ->
  In h l /\ forall x, In x l -> x = h \/ comparefn h x <= 0.
Proof.
  intros H.
  pose proof (sort_ordered l) as Ho.
  destruct (sort comparefn l) as [|h' s] eqn:E; [discriminate|].
  simpl in H. injection H as ->.
  assert (Hin : forall x, In x l <-> In x (h :: s)).
  { intros x. rewrite <- E. symmetry. apply sort_In. }
  split.
  - apply Hin. left. reflexivity.
  - intros x Hx. apply Hin in Hx. inversion Ho as [|a l' Hle _]; subst.
    destruct Hx as [->|Hx]; [left; reflexivity|right; apply Hle; exact Hx].
Qed.
End Sort.

Lemma sort_nonempty {A : Type} (comparefn : A -> A -> Z) (l : list A) :
  l <> [] -> exists h, first (sort comparefn l) = Some h.
Proof.
  intros H. destruct (sort comparefn l) as [|h s] eqn:E.
  - apply (f_equal (@List.length A)) in E. rewrite sort_length in E.
    destruct l; [contradiction|discriminate].
  - exists h. reflexivity.
Qed.

Lemma last_nonempty {A : Type} (l : list A) :
  l <> [] -> exists x, JS.last l = Some x.
Proof.
  induction l as [|a l IH]; intros H; [contradiction|].
  destruct l as [|b l]; [exists a; reflexivity|].
  destruct IH as [x Hx]; [discriminate|]. exists x. exact Hx.
Qed.


Section Groups.
Context {K V : Type}.
Variable eqb : K -> K -> bool.
Hypothesis eqb_eq : forall a b, eqb a b = true <-> a = b.
Variable key : V -> K.

(** The bucket of [k] after more records have been pushed. *)
Let extend (o : option (list V)) (g : list V) : option (list V) :=
  match o, g with
  | None, [] => None
  | None, _ => Some g
  | Some g0, _ => Some (g0 ++ g)
  end.

Lemma get_push_group (k k0 : K) (v : V) (m : list (K * list V)) :
  get eqb k (push_group eqb k0 v m) =
  if eqb k0 k then extend (get eqb k m) [v] else get eqb k m.
Proof.
  induction m as [|[k' vs] m IH]; simpl.
  - destruct (eqb k0 k); reflexivity.
  - destruct (eqb k' k0) eqn:E0; simpl.
    + apply eqb_eq in E0. subst k'.
      destruct (eqb k0 k); reflexivity.
    + destruct (eqb k' k) eqn:E1.
      * destruct (eqb k0 k) eqn:E2; [|reflexivity].
        apply eqb_eq in E1, E2. subst. rewrite (proj2 (eqb_eq k k)) in E0 by reflexivity.
        discriminate.
      * exact IH.
Qed.

Lemma get_fold_push (k : K) (l : list V) (m : list (K * list V)) :
  get eqb k (fold_left (fun m r => push_group eqb (key r) r m) l m) =
  extend (get eqb k m) (filter (fun r => eqb (key r) k) l).
Proof.
  revert m. induction l as [|r l IH]; intros m; simpl.
  - destruct (get eqb k m) as [g0|]; simpl; [rewrite app_nil_r|]; reflexivity.
  - rewrite IH, get_push_group.
    destruct (eqb (key r) k); [|reflexivity].
    destruct (get eqb k m) as [g0|]; simpl.
    + rewrite <- app_assoc. reflexivity.
    + reflexivity.
Qed.

Lemma keys_push_group_in (k k0 : K) (v : V) (m : list (K * list V)) :
  In k (map fst (push_group eqb k0 v m)) -> k = k0 \/ In k (map fst m).
Proof.
  induction m as [|[k' vs] m IH]; simpl; intros Hk.
  - destruct Hk as [<-|[]]. left. reflexivity.
  - destruct (eqb k' k0); simpl in Hk.
    + right. exact Hk.
    + destruct Hk as [<-|Hk]; [right; left; reflexivity|].
      destruct (IH Hk); [left|right; right]; assumption.
Qed.

Lemma keys_push_group (k0 : K) (v : V) (m : list (K * list V)) :
  NoDup (map fst m) -> NoDup (map fst (push_group eqb k0 v m)).
Proof.
  induction m as [|[k' vs] m IH]; simpl; intros Hnd.
  - constructor; [intros []|constructor].
  - destruct (eqb k' k0) eqn:E; simpl.
    + exact Hnd.
    + inversion Hnd as [|x s Hnotin Hnd']; subst.
      constructor; [|apply IH; assumption].
      intros Hin. destruct (keys_push_group_in _ _ _ _ Hin) as [->|Hin'].
      * rewrite (proj2 (eqb_eq k0 k0)) in E by reflexivity. discriminate.
      * contradiction.
Qed.

Lemma keys_groupBy (l : list V) : NoDup (map fst (groupBy eqb key l)).
Proof.
  unfold groupBy.
  assert (G : forall m, NoDup (map fst m) ->
                NoDup (map fst (fold_left (fun m r => push_group eqb (key r) r m) l m))).
  { induction l as [|r l IH]; intros m Hm; simpl.
    - exact Hm.
    - apply IH, keys_push_group, Hm. }
  apply G. constructor.
Qed.

Lemma get_In (k : K) (g : list V) (m : list (K * list V)) :
  NoDup (map fst m) -> (In (k, g) m <-> get eqb k m = Some g).
Proof.
  induction m as [|[k' vs] m IH]; simpl; intros Hnd.
  - split; [intros []|discriminate].
  - inversion Hnd as [|x s Hnotin Hnd']; subst.
    destruct (eqb k' k) eqn:E.
    + apply eqb_eq in E. subst k'. split.
      * intros [H|H]; [congruence|].
        exfalso. apply Hnotin. apply (in_map fst) in H. exact H.
      * intros H. left. congruence.
    + split.
      * intros [H|H]; [|apply IH; assumption].
        injection H as -> ->. rewrite (proj2 (eqb_eq k k)) in E by reflexivity.
        discriminate.
      * intros H. right. apply IH; assumption.
Qed.

(** A bucket holds exactly the records of its key, in the order of the
    array, and is never empty. *)
Lemma groupBy_In (k : K) (g : list V) (l : list V) :
  In (k, g) (groupBy eqb key l) <->
  g = filter (fun r => eqb (key r) k) l /\ g <> [].
Proof.
  rewrite (get_In k g _ (keys_groupBy l)).
  unfold groupBy. rewrite get_fold_push. simpl.
  destruct (filter (fun r => eqb (key r) k) l) as [|x f]; simpl.
  - split; [discriminate|]. intros [-> H]. contradiction.
  - split.
    + intros H. injection H as <-. split; [reflexivity|discriminate].
    + intros [-> _]. reflexivity.
Qed.

Lemma groupBy_nonempty (k : K) (g : list V) (l : list V) :
  In (k, g) (groupBy eqb key l) -> g <> [].
Proof. intros H. apply groupBy_In in H. apply H. Qed.

Lemma groupBy_key (r : V) (l : list V) :
  In r l -> In (key r, filter (fun x => eqb (key x) (key r)) l) (groupBy eqb key l).
Proof.
  intros H. apply groupBy_In. split; [reflexivity|].
  intros E. assert (Hin : In r (filter (fun x => eqb (key x) (key r)) l)).
  { apply filter_In. split; [exact H|]. apply eqb_eq. reflexivity. }
  rewrite E in Hin. destruct Hin.
Qed.

(** Grouping neither loses nor duplicates a record. *)
Lemma push_group_sum (f : V -> Z) (k0 : K) (v : V) (m : list (K * list V)) :
  reduce_sum (fun e => reduce_sum f (snd e)) (push_group eqb k0 v m) =
  reduce_sum (fun e => reduce_sum f (snd e)) m + f v.
Proof.
  induction m as [|[k' vs] m IH]; simpl.
  - rewrite reduce_sum_cons. simpl. rewrite reduce_sum_cons.
    change (reduce_sum f []) with 0.
    change (reduce_sum (fun e : K * list V => reduce_sum f (snd e)) []) with 0. lia.
  - destruct (eqb k' k0); simpl; rewrite !reduce_sum_cons; simpl.
    + rewrite reduce_sum_app, reduce_sum_cons.
      change (reduce_sum f []) with 0. lia.
    + rewrite IH. lia.
Qed.

Lemma groupBy_sum (f : V -> Z) (l : list V) :
  reduce_sum (fun e => reduce_sum f (snd e)) (groupBy eqb key l) = reduce_sum f l.
Proof.
  unfold groupBy.
  assert (G : forall m,
             reduce_sum (fun e => reduce_sum f (snd e))
                        (fold_left (fun m r => push_group eqb (key r) r m) l m) =
             reduce_sum (fun e => reduce_sum f (snd e)) m + reduce_sum f l).
  { induction l as [|r l IH]; intros m; simpl.
    - change (reduce_sum f []) with 0. lia.
    - rewrite IH, push_group_sum, reduce_sum_cons. lia. }
  rewrite G. reflexivity.
Qed.
End Groups.

Section MapM.
Context {A B : Type}.

Lemma mapM_total (f : A -> option B) (g : A -> B) (l : list A) :
  (forall x, In x l -> f x = Some (g x)) -> mapM f l = Some (map g l).
Proof.
  induction l as [|a l IH]; intros H; simpl.
  - reflexivity.
  - rewrite (H a) by (left; reflexivity). simpl.
    rewrite IH by (intros x Hx; apply H; right; exact Hx). reflexivity.
Qed.

Lemma mapM_some (f : A -> option B) (l : list A) :
  (forall x, In x l -> exists y, f x = Some y) -> exists ys, mapM f l = Some ys.
Proof.
  induction l as [|a l IH]; intros H; simpl.
  - exists []. reflexivity.
  - destruct (H a) as [y Hy]; [left; reflexivity|].
    destruct IH as [ys Hys]; [intros x Hx; apply H; right; exact Hx|].
    exists (y :: ys). rewrite Hy, Hys. reflexivity.
Qed.

Lemma mapM_In (f : A -> option B) (l : list A) (ys : list B) :
  mapM f l = Some ys ->
  forall y, In y ys <-> exists x, In x l /\ f x = Some y.
Proof.
  revert ys. induction l as [|a l IH]; intros ys H y; simpl in H.
  - injection H as <-. split; [intros []|intros [x [[] _]]].
  - destruct (f a) as [b|] eqn:Ea; [|discriminate]. simpl in H.
    destruct (mapM f l) as [bs|] eqn:El; [|discriminate]. simpl in H.
    injection H as <-. specialize (IH bs eq_refl y). split.
    + intros [<-|Hy].
      * exists a. split; [left; reflexivity|exact Ea].
      * apply IH in Hy. destruct Hy as [x [Hx Hfx]].
        exists x. split; [right; exact Hx|exact Hfx].
    + intros [x [[<-|Hx] Hfx]].
      * left. congruence.
      * right. apply IH. exists x. split; assumption.
Qed.


End MapM.

Lemma ordered_StronglySorted {A : Type} (comparefn : A -> A -> Z)
  (R : A -> A -> Prop) (l : list A) :
  (forall a b, comparefn a b <= 0 -> R a b) ->
  ordered comparefn l -> StronglySorted R l.
Proof.
  intros HR. induction 1 as [|a l Ha _ IH]; constructor.
  - exact IH.
  - apply Forall_forall. intros x Hx. apply HR, Ha, Hx.
Qed.

End JSFacts.

(* ------------------------------------------------------------------ *)
(** * Properties of the report aggregator *)
(* ------------------------------------------------------------------ *)

Module ReportFacts.
Import JS Inventory Reports Spec JSFacts DoubleFacts.

Lemma len_pos {A : Type} (l : list A) : l <> [] <-> 0 < len l.
Proof.
  unfold len. destruct l; simpl; split; intros H; try lia; try discriminate.
  contradiction.
Qed.

Lemma len_sort {A : Type} (comparefn : A -> A -> Z) (l : list A) :
  len (sort comparefn l) = len l.
Proof. unfold len. rewrite sort_length. reflexivity. Qed.

(** ** The buckets *)

Lemma productGroups_In (k : string) (g : list InventoryRecord)
  (records : list InventoryRecord) :
  In (k, g) (productGroups records) <-> g = recordsOf k records /\ g <> [].
Proof. apply (groupBy_In String.eqb String.eqb_eq). Qed.

Lemma dateGroups_In (d : Z) (g : list InventoryRecord)
  (records : list InventoryRecord) :
  In (d, g) (dateGroups records) <-> g = recordsOn d records /\ g <> [].
Proof. apply (groupBy_In Z.eqb Z.eqb_eq). Qed.

Lemma recordsOf_In (r : InventoryRecord) (k : string) (records : list InventoryRecord) :
  In r (recordsOf k records) <-> In r records /\ item_name r = k.
Proof.
  unfold recordsOf. rewrite filter_In, String.eqb_eq. reflexivity.
Qed.

Lemma recordsOf_sort (comparefn : InventoryRecord -> InventoryRecord -> Z)
  (k : string) (records : list InventoryRecord) :
  Permutation (recordsOf k records) (recordsOf k (sort comparefn records)).
Proof. apply sort_filter_perm. Qed.

(** A callback that succeeds on every non-empty bucket succeeds on every
    bucket of the product map. *)
Lemma rows_of_groups {B : Type} (f : string * list InventoryRecord -> option B)
  (records : list InventoryRecord) :
  (forall k g, g <> [] -> exists y, f (k, g) = Some y) ->
  exists rows, mapM f (productGroups records) = Some rows.
Proof.
  intros H. apply mapM_some. intros [k g] Hin.
  apply H. apply productGroups_In in Hin. apply Hin.
Qed.

(** Each row of a per-product view stems from the bucket of its product. *)
Lemma row_of_group {B : Type} (f : string * list InventoryRecord -> option B)
  (records : list InventoryRecord) (rows : list B) (row : B) :
  mapM f (productGroups records) = Some rows ->
  In row rows ->
  exists k, recordsOf k records <> [] /\ f (k, recordsOf k records) = Some row.
Proof.
  intros Hm Hin. apply (mapM_In _ _ _ Hm) in Hin.
  destruct Hin as [[k g] [Hg Hf]]. apply productGroups_In in Hg.
  destruct Hg as [-> Hne]. exists k. split; assumption.
Qed.

Lemma first_byDateDesc (g : list InventoryRecord) :
  g <> [] -> exists h, first (sort byDateDesc g) = Some h.
Proof. apply sort_nonempty. Qed.

Lemma first_byDateAsc (g : list InventoryRecord) :
  g <> [] -> exists h, first (sort byDateAsc g) = Some h.
Proof. apply sort_nonempty. Qed.

Lemma last_byDateAsc (g : list InventoryRecord) :
  g <> [] -> exists h, JS.last (sort byDateAsc g) = Some h.
Proof.
  intros H. apply last_nonempty. intros E.
  apply (f_equal (@List.length _)) in E. rewrite sort_length in E.
  destruct g; [contradiction|discriminate].
Qed.

(** ** No view throws *)

(** In a callback applied to a non-empty bucket, name the first and the
    last record the callback reads. *)
Ltac bucket_ends Hg :=
  repeat match goal with
    | |- context [first (sort byDateDesc ?g)] =>
        let h := fresh "h" in destruct (first_byDateDesc g Hg) as [h ->]
    | |- context [first (sort byDateAsc ?g)] =>
        let h := fresh "h" in destruct (first_byDateAsc g Hg) as [h ->]
    | |- context [JS.last (sort byDateAsc ?g)] =>
        let h := fresh "h" in destruct (last_byDateAsc g Hg) as [h ->]
    end;
  simpl.

(** A per-product view whose callback is [row] returns its rows. *)
Ltac view_total row records :=
  let rows := fresh "rows" in
  let k := fresh "k" in
  let g := fresh "g" in
  let Hg := fresh "Hg" in
  destruct (rows_of_groups row records) as [rows ->];
  [ intros k g Hg; unfold row; bucket_ends Hg; eexists; reflexivity
  | simpl; eexists; reflexivity ].

Lemma outOfStock_total (now : Z) (records : list InventoryRecord) :
  exists rows, generateOutOfStockReport now records = Some rows.
Proof.
  unfold generateOutOfStockReport.
  destruct (rows_of_groups (outOfStockRow now) records) as [rows ->].
  - intros k g Hg. unfold outOfStockRow. bucket_ends Hg. eexists. reflexivity.
  - simpl. eexists. reflexivity.
Qed.

Lemma stockBalance_total (records : list InventoryRecord) :
  exists rows, generateStockBalanceReport records = Some rows.
Proof. unfold generateStockBalanceReport. view_total stockBalanceRow records. Qed.

Lemma production_total (records : list InventoryRecord) :
  exists rows, generateProductionReport records = Some rows.
Proof. unfold generateProductionReport. view_total productionRow records. Qed.

Lemma returnsRebagging_total (records : list InventoryRecord) :
  exists rows, generateReturnsRebaggingReport records = Some rows.
Proof.
  unfold generateReturnsRebaggingReport. view_total returnsRebaggingRow records.
Qed.

Lemma damagedStock_total (records : list InventoryRecord) :
  exists rows, generateDamagedStockReport records = Some rows.
Proof. unfold generateDamagedStockReport. view_total damagedStockRow records. Qed.

Lemma stockHistory_total (records : list InventoryRecord) :
  exists rows, generateStockHistoryReport records = Some rows.
Proof. unfold generateStockHistoryReport. view_total stockHistoryRow records. Qed.

Lemma productMovements_total (records : list InventoryRecord) :
  exists rows, mapM productMovementRow (productGroups records) = Some rows.
Proof.
  apply rows_of_groups. intros k g Hg. unfold productMovementRow.
  bucket_ends Hg. eexists. reflexivity.
Qed.

Lemma weekly_total (zone : TimeZone) (records : list InventoryRecord) :
  exists w, generateWeeklyReport zone records = Some w.
Proof.
  unfold generateWeeklyReport.
  destruct (len records =? 0) eqn:E; [eexists; reflexivity|].
  assert (Hne : records <> []).
  { intros ->. discriminate. }
  destruct (first_byDateAsc records Hne) as [h ->].
  destruct (last_byDateAsc records Hne) as [h' ->]. simpl.
  destruct (productMovements_total (sort byDateAsc records)) as [rows ->]. simpl.
  eexists. reflexivity.
Qed.

Lemma generateReports_total (now : Z) (zone : TimeZone) (records : list InventoryRecord)
  (dateRange : DateRange) :
  exists data, generateReports now zone records dateRange = Some data.
Proof.
  unfold generateReports.
  destruct (outOfStock_total now (filterRecords dateRange records)) as [v1 ->].
  destruct (stockBalance_total (filterRecords dateRange records)) as [v3 ->].
  destruct (production_total (filterRecords dateRange records)) as [v4 ->].
  destruct (returnsRebagging_total (filterRecords dateRange records)) as [v5 ->].
  destruct (damagedStock_total (filterRecords dateRange records)) as [v6 ->].
  destruct (stockHistory_total (filterRecords dateRange records)) as [v7 ->].
  destruct (weekly_total zone (filterRecords dateRange records)) as [v8 ->].
  simpl. eexists. reflexivity.
Qed.

(** ** The example of the specification *)

Example sample_out_of_stock :
  generateOutOfStockReport (getTime 19730) [sampleDay1; sampleDay2] =
  Some [ {| oos_item_name := "A"; last_stock := 0; last_date := 19724;
            days_since_stock := 6 |} ].
Proof. reflexivity. Qed.

Example sample_stock_balance :
  generateStockBalanceReport [sampleDay1; sampleDay2] =
  Some [ {| sb_item_name := "A"; sb_opening_stock := 10; sb_closing_stock := 0;
            sb_net_change := -10; movement_type := "decreasing" |} ].
Proof. reflexivity. Qed.

Example sample_movements :
  map (fun row => (sm_date row, total_in row, total_out row, sm_net_change row))
      (generateStockMovementReport [sampleDay2; sampleMixed; sampleDay1]) =
  [ (19723, 59, 35, 24); (19724, 0, 12, -12) ].
Proof. reflexivity. Qed.

Example sample_weekly_levels :
  option_map (fun w => map (fun row => (pm_item_name row, activity_level row))
                           (product_movements w))
             (generateWeeklyReport utc [sampleDay2; sampleMixed; sampleDay1]) =
  Some [ ("B"%string, medium); ("A"%string, low) ].
Proof. reflexivity. Qed.

(** ** Production usage *)

(** C10. Every bucket of the product map holds at least one record, the
    production view is produced for every input, and each of its rows
    carries the finite mean [total_issued / record_count] over the
    non-empty set of records of its product. *)
Theorem production_average_defined (records : list InventoryRecord) :
  (forall k g, In (k, g) (productGroups records) -> 0 < len g) /\
  exists rows,
    generateProductionReport records = Some rows /\
    forall row, In row rows ->
      let g := recordsOf (pr_item_name row) records in
      0 < len g /\
      total_issued row = reduce_sum issued_production g /\
      isFinite (avg_daily_usage row) = true /\
      avg_daily_usage row =
        Fin (Qred (inject_Z (total_issued row) / inject_Z (len g))).
Proof.
  split.
  - intros k g H. apply len_pos. apply productGroups_In in H. apply H.
  - destruct (production_total records) as [rows Hrows].
    exists rows. split; [exact Hrows|].
    intros row Hin. unfold generateProductionReport in Hrows.
    destruct (mapM productionRow (productGroups records)) as [rows0|] eqn:Hm;
      [|discriminate].
    simpl in Hrows. injection Hrows as <-.
    apply sort_In, filter_In in Hin. destruct Hin as [Hin _].
    destruct (row_of_group _ _ _ _ Hm Hin) as [k [Hne Hrow]].
    unfold productionRow in Hrow.
    destruct (first_byDateDesc _ Hne) as [h Hh]. rewrite Hh in Hrow.
    simpl in Hrow. injection Hrow as <-. simpl.
    apply len_pos in Hne.
    assert (E : div (reduce_sum issued_production (recordsOf k records))
                    (len (recordsOf k records)) =
                Fin (Qred (inject_Z (reduce_sum issued_production (recordsOf k records))
                           / inject_Z (len (recordsOf k records))))).
    { unfold div. destruct (len (recordsOf k records) =? 0) eqn:E0; [|reflexivity].
      apply Z.eqb_eq in E0. lia. }
    rewrite E. repeat split; try reflexivity. exact Hne.
Qed.

Lemma production_average_defined_witness :
  exists rows,
    generateProductionReport [sampleDay1; sampleDay2] = Some rows /\
    forall row, In row rows ->
      0 < len (recordsOf (pr_item_name row) [sampleDay1; sampleDay2]) /\
      avg_daily_usage row = Fin (15 # 2).
Proof.
  destruct (production_average_defined [sampleDay1; sampleDay2])
    as (_ & rows & Hrows & Hall).
  exists rows. split; [exact Hrows|].
  intros row Hin. destruct (Hall row Hin) as (Hlen & _ & _ & Havg).
  split; [exact Hlen|]. rewrite Havg.
  assert (E : rows = [ {| pr_item_name := "A"; total_issued := 15;
                          avg_daily_usage := Fin (15 # 2);
                          last_issued_date := 19724; stock_level := 0 |} ]).
  { vm_compute in Hrows. injection Hrows as <-. reflexivity. }
  rewrite E in Hin. destruct Hin as [<-|[]]. reflexivity.
Defined.

(** ** Empty input *)

(** C9. When no record falls in the date range, in particular for an
    empty record list, the aggregator returns a bundle: the seven
    per-view arrays are empty and the weekly report has empty week
    boundaries, zero counts, an all-zero summary, all-zero efficiency
    metrics and empty lists. *)
Theorem empty_input_empty_bundle (now : Z) (zone : TimeZone)
  (records : list InventoryRecord) (dateRange : DateRange) :
  filterRecords dateRange records = [] ->
  generateReports now zone records dateRange =
  Some {| outOfStockProducts := [];
          stockMovements := [];
          stockBalances := [];
          productionIssues := [];
          returnsRebagging := [];
          damagedStock := [];
          stockHistory := [];
          weeklyReport :=
            {| week_start := None;
               week_end := None;
               total_products := 0;
               total_movements := 0;
               summary := {| ws_total_stock_in := 0;
                             ws_total_stock_out := 0;
                             ws_total_returns := 0;
                             ws_total_rebagging := 0;
                             ws_total_damaged := 0;
                             ws_net_change := 0 |};
               product_movements := [];
               daily_summary := [];
               efficiency_metrics := {| em_return_rate := Fin 0%Q;
                                        em_damage_rate := Fin 0%Q;
                                        em_rebagging_rate := Fin 0%Q;
                                        stock_turnover := Fin 0%Q |} |} |}.
Proof.
  intros H. unfold generateReports. rewrite H. reflexivity.
Qed.

Lemma empty_input_empty_bundle_witness :
  exists data,
    generateReports 0 utc [] {| startDate := 0; endDate := 0 |} = Some data /\
    outOfStockProducts data = [] /\ total_movements (weeklyReport data) = 0.
Proof.
  eexists. split.
  - apply (empty_input_empty_bundle 0 utc [] {| startDate := 0; endDate := 0 |}).
    reflexivity.
  - split; reflexivity.
Defined.

(** ** The date filter *)

Lemma filterRecords_idem (dateRange : DateRange) (records : list InventoryRecord) :
  filterRecords dateRange (filterRecords dateRange records) =
  filterRecords dateRange records.
Proof.
  unfold filterRecords. induction records as [|r l IH]; simpl.
  - reflexivity.
  - destruct (inRange dateRange r) eqn:E; simpl; [rewrite E, IH|]; auto.
Qed.

(** C7. Filtering by the date range and then aggregating gives the same
    bundle as aggregating the input that is already the filtered subset:
    the filter, which keeps a record iff [startDate <= date <= endDate],
    is idempotent, and the aggregator always returns a bundle. *)
Theorem filter_then_aggregate (now : Z) (zone : TimeZone) (records : list InventoryRecord)
  (dateRange : DateRange) :
  (forall r, In r (filterRecords dateRange records) <->
             In r records /\ startDate dateRange <= date r <= endDate dateRange) /\
  filterRecords dateRange (filterRecords dateRange records) =
    filterRecords dateRange records /\
  generateReports now zone (filterRecords dateRange records) dateRange =
    generateReports now zone records dateRange /\
  exists data, generateReports now zone records dateRange = Some data.
Proof.
  split; [|split; [|split]].
  - intros r. unfold filterRecords, inRange, getTime, msPerDay.
    rewrite filter_In, andb_true_iff, !Z.leb_le. intuition lia.
  - apply filterRecords_idem.
  - unfold generateReports. rewrite filterRecords_idem. reflexivity.
  - apply generateReports_total.
Qed.

(** ** Stock movements by date *)

Lemma stockMovementRow_total_in (e : Z * list InventoryRecord) :
  total_in (stockMovementRow e) = reduce_sum stockIn (snd e).
Proof. destruct e. reflexivity. Qed.

(** C6. The [total_in] of the date buckets of the movements view add up
    to the sum of [new_stock + returns + rebagging] over the records the
    view was built from. *)
Theorem movements_conserve_stock_in (filteredRecords : list InventoryRecord) :
  reduce_sum total_in (generateStockMovementReport filteredRecords) =
  reduce_sum (fun r => new_stock r + returns r + rebagging r) filteredRecords.
Proof.
  unfold generateStockMovementReport.
  rewrite sort_sum, reduce_sum_map.
  rewrite (reduce_sum_ext _ (fun e => reduce_sum stockIn (snd e)))
    by (intros e _; apply stockMovementRow_total_in).
  unfold dateGroups. apply groupBy_sum.
Qed.

Lemma movement_row_of_bucket (records : list InventoryRecord) (row : StockMovementRow) :
  In row (generateStockMovementReport records) ->
  recordsOn (sm_date row) records <> [] /\
  row = stockMovementRow (sm_date row, recordsOn (sm_date row) records).
Proof.
  unfold generateStockMovementReport. intros H.
  apply sort_In, in_map_iff in H. destruct H as [[d g] [<- Hin]].
  apply dateGroups_In in Hin. destruct Hin as [-> Hne]. simpl.
  split; [exact Hne|reflexivity].
Qed.

(** ** The weekly summary *)

Lemma weekly_nonempty (zone : TimeZone) (records : list InventoryRecord)
  (w : WeeklyReport) :
  records <> [] ->
  generateWeeklyReport zone records = Some w ->
  exists rows,
    mapM productMovementRow (productGroups (sort byDateAsc records)) = Some rows /\
    summary w = weeklySummary (sort byDateAsc records) /\
    efficiency_metrics w = efficiencyMetrics (weeklySummary (sort byDateAsc records)) /\
    product_movements w =
      sort (fun a b => rowActivity b - rowActivity a)
           (filter (fun product => 0 <? rowActivity product) rows).
Proof.
  intros Hne H. unfold generateWeeklyReport in H.
  destruct (len records =? 0) eqn:E.
  { apply Z.eqb_eq in E. apply len_pos in Hne. lia. }
  destruct (first_byDateAsc records Hne) as [h Hh].
  destruct (last_byDateAsc records Hne) as [h' Hh'].
  rewrite Hh, Hh' in H. simpl in H.
  destruct (productMovements_total (sort byDateAsc records)) as [rows Hrows].
  rewrite Hrows in H. simpl in H. injection H as <-.
  exists rows. simpl. repeat split. exact Hrows.
Qed.

Lemma weekly_empty (zone : TimeZone) (w : WeeklyReport) :
  generateWeeklyReport zone [] = Some w -> w = emptyWeeklyReport.
Proof. intros H. injection H as <-. reflexivity. Qed.

Lemma weekly_summary (zone : TimeZone) (records : list InventoryRecord)
  (w : WeeklyReport) :
  generateWeeklyReport zone records = Some w ->
  summary w = weeklySummary records.
Proof.
  intros H. destruct records as [|r l].
  - apply weekly_empty in H. subst w. reflexivity.
  - destruct (weekly_nonempty zone (r :: l) w) as (rows & _ & Hs & _);
      [discriminate|exact H|].
    rewrite Hs. unfold weeklySummary. rewrite !sort_sum. reflexivity.
Qed.

Lemma stockMovementRow_net_change (e : Z * list InventoryRecord) :
  sm_net_change (stockMovementRow e) =
  reduce_sum (fun r => (new_stock r + returns r + rebagging r)
                       - (issued_production r + damaged r)) (snd e).
Proof. destruct e. simpl. rewrite reduce_sum_minus. reflexivity. Qed.

Lemma movement_row_for_date (records : list InventoryRecord) (r : InventoryRecord) :
  In r records ->
  In (stockMovementRow (date r, recordsOn (date r) records))
     (generateStockMovementReport records).
Proof.
  intros Hin. unfold generateStockMovementReport.
  apply sort_In, in_map, dateGroups_In. split; [reflexivity|].
  intros E.
  assert (H : In r (recordsOn (date r) records)).
  { unfold recordsOn. apply filter_In. split; [exact Hin|apply Z.eqb_refl]. }
  rewrite E in H. destruct H.
Qed.

Lemma net_change_split (l : list InventoryRecord) :
  reduce_sum (fun r => (new_stock r + returns r + rebagging r)
                       - (issued_production r + damaged r)) l =
  reduce_sum (fun r => new_stock r - issued_production r) l
  + reduce_sum returns l + reduce_sum rebagging l - reduce_sum damaged l.
Proof.
  induction l as [|r l IH]; [reflexivity|].
  rewrite !reduce_sum_cons, IH. lia.
Qed.

(** C8. The weekly summary reports [net_change] as the sum of
    [new_stock - issued_production] over the records, leaving returns,
    rebagging and damaged out.  The per-date movements view has a row for
    the date of every record, and each of its rows reports [net_change] as
    [(new_stock + returns + rebagging) - (issued_production + damaged)]
    summed over the records of its date.  Over the period, the rows of the
    view therefore add up to the weekly figure plus the returns and the
    rebagging minus the damaged units, and there is an input on which the
    two figures differ. *)
Theorem net_change_asymmetry :
  (forall zone records, exists w,
      generateWeeklyReport zone records = Some w /\
      ws_net_change (summary w) =
        reduce_sum (fun r => new_stock r - issued_production r) records) /\
  (forall records r, In r records ->
      exists row,
        In row (generateStockMovementReport records) /\ sm_date row = date r) /\
  (forall records row,
      In row (generateStockMovementReport records) ->
      sm_net_change row =
        reduce_sum (fun r => (new_stock r + returns r + rebagging r)
                             - (issued_production r + damaged r))
                   (recordsOn (sm_date row) records)) /\
  (forall zone records, exists w,
      generateWeeklyReport zone records = Some w /\
      reduce_sum sm_net_change (generateStockMovementReport records) =
        ws_net_change (summary w) + reduce_sum returns records
        + reduce_sum rebagging records - reduce_sum damaged records) /\
  (exists zone records w,
      Forall nonneg_record records /\
      generateWeeklyReport zone records = Some w /\
      reduce_sum sm_net_change (generateStockMovementReport records)
        <> ws_net_change (summary w)).
Proof.
  assert (Hweekly : forall zone records, exists w,
             generateWeeklyReport zone records = Some w /\
             ws_net_change (summary w) =
               reduce_sum (fun r => new_stock r - issued_production r) records).
  { intros zone records. destruct (weekly_total zone records) as [w Hw].
    exists w. split; [exact Hw|]. rewrite (weekly_summary _ _ _ Hw). reflexivity. }
  split; [exact Hweekly|]. split; [|split; [|split]].
  - intros records r Hin.
    exists (stockMovementRow (date r, recordsOn (date r) records)).
    split; [apply movement_row_for_date, Hin|reflexivity].
  - intros records row Hin.
    destruct (movement_row_of_bucket _ _ Hin) as [_ ->]. simpl.
    rewrite reduce_sum_minus. reflexivity.
  - intros zone records. destruct (Hweekly zone records) as (w & Hw & Hnet).
    exists w. split; [exact Hw|]. rewrite Hnet.
    unfold generateStockMovementReport.
    rewrite sort_sum, reduce_sum_map.
    rewrite (reduce_sum_ext _ (fun e => reduce_sum
               (fun r => (new_stock r + returns r + rebagging r)
                         - (issued_production r + damaged r)) (snd e)))
      by (intros e _; apply stockMovementRow_net_change).
    unfold dateGroups. rewrite groupBy_sum. apply net_change_split.
  - exists utc.
    exists [ {| item_name := "A"; date := 0; opening_stock := 0; new_stock := 10;
                new_balance := 10; issued_production := 3; returns := 2;
                rebagging := 1; damaged := 4; closing_stock := 6 |} ].
    eexists. split; [|split; [reflexivity|]].
    + constructor; [|constructor]. unfold nonneg_record. simpl. lia.
    + vm_compute. discriminate.
Qed.

Lemma net_change_asymmetry_witness :
  exists w row,
    generateWeeklyReport utc [sampleMixed] = Some w /\
    ws_net_change (summary w) = 10 /\
    In row (generateStockMovementReport [sampleMixed]) /\
    sm_date row = 19723 /\
    sm_net_change row = 22 /\
    reduce_sum sm_net_change (generateStockMovementReport [sampleMixed])
    = 10 + 10 + 4 - 2.
Proof.
  destruct net_change_asymmetry as (Hweekly & Hrow & Hmove & Hsum & _).
  destruct (Hweekly utc [sampleMixed]) as (w & Hw & Hnet).
  destruct (Hrow [sampleMixed] sampleMixed (or_introl eq_refl)) as (row & Hin & Hdate).
  exists w, row. split; [exact Hw|]. split; [rewrite Hnet; reflexivity|].
  split; [exact Hin|]. split; [exact Hdate|]. split.
  - rewrite (Hmove _ _ Hin), Hdate. reflexivity.
  - destruct (Hsum utc [sampleMixed]) as (w' & Hw' & ->).
    rewrite Hw in Hw'. injection Hw' as <-. rewrite Hnet. reflexivity.
Defined.

Lemma reduce_sum_movement (g : list InventoryRecord) :
  reduce_sum movement g =
  reduce_sum new_stock g + reduce_sum issued_production g + reduce_sum returns g
  + reduce_sum rebagging g + reduce_sum damaged g.
Proof.
  induction g as [|r g IH].
  - reflexivity.
  - rewrite !reduce_sum_cons, IH. unfold movement. lia.
Qed.

Lemma productMovementRow_activity (k : string) (g : list InventoryRecord)
  (row : ProductMovement) :
  productMovementRow (k, g) = Some row ->
  pm_item_name row = k /\
  rowActivity row = reduce_sum movement g /\
  activity_level row = levelOf (reduce_sum movement g).
Proof.
  unfold productMovementRow. intros H.
  destruct (first (sort byDateAsc g)) as [r0|]; [|discriminate].
  destruct (JS.last (sort byDateAsc g)) as [rl|]; [|discriminate].
  simpl in H. injection H as <-. unfold rowActivity, levelOf. simpl.
  rewrite reduce_sum_movement, !sort_sum. repeat split.
Qed.

Lemma recordsOf_sort_sum (f : InventoryRecord -> Z) (k : string)
  (records : list InventoryRecord) :
  reduce_sum f (recordsOf k (sort byDateAsc records)) = reduce_sum f (recordsOf k records).
Proof. symmetry. apply reduce_sum_perm, recordsOf_sort. Qed.

Lemma recordsOf_sort_nonempty (k : string) (records : list InventoryRecord) :
  recordsOf k records <> [] -> recordsOf k (sort byDateAsc records) <> [].
Proof.
  intros H E. apply H.
  apply Permutation_nil. rewrite <- E. apply Permutation_sym, recordsOf_sort.
Qed.

(** C4 (amended). In the weekly summary the [activity_level] of a product
    row is [high] when the total activity of the product exceeds 100,
    [medium] when it exceeds 50 and [low] otherwise, where the total
    activity is the sum of the five movement quantities [new_stock],
    [issued_production], [returns], [rebagging] and [damaged] over the
    records of the product; a product has a row exactly when that total is
    positive, so a product with zero total activity has none. *)
Theorem activity_level_five_fields (zone : TimeZone) (records : list InventoryRecord) :
  exists w,
    generateWeeklyReport zone records = Some w /\
    (forall row, In row (product_movements w) ->
       activity_level row =
         levelOf (reduce_sum movement (recordsOf (pm_item_name row) records))) /\
    (forall name,
       (exists row, In row (product_movements w) /\ pm_item_name row = name) <->
       0 < reduce_sum movement (recordsOf name records)).
Proof.
  destruct (weekly_total zone records) as [w Hw]. exists w. split; [exact Hw|].
  destruct records as [|r0 l].
  { apply weekly_empty in Hw. subst w. simpl. split.
    - intros row [].
    - intros name. split; [intros [row [[] _]]|]. unfold reduce_sum. simpl. lia. }
  destruct (weekly_nonempty zone (r0 :: l) w) as (rows & Hrows & _ & _ & Hpm);
    [discriminate|exact Hw|].
  set (records := r0 :: l) in *.
  assert (Hrow : forall row, In row (product_movements w) <->
                   In row rows /\ 0 < rowActivity row).
  { intros row. rewrite Hpm, sort_In, filter_In, Z.ltb_lt. reflexivity. }
  assert (Hspec : forall row, In row rows ->
            rowActivity row = reduce_sum movement (recordsOf (pm_item_name row) records) /\
            activity_level row =
              levelOf (reduce_sum movement (recordsOf (pm_item_name row) records))).
  { intros row Hin.
    destruct (row_of_group _ _ _ _ Hrows Hin) as [k [_ Hk]].
    apply productMovementRow_activity in Hk. destruct Hk as (-> & Ha & Hl).
    rewrite recordsOf_sort_sum in Ha, Hl. split; assumption. }
  split.
  - intros row Hin. apply Hrow in Hin. apply Hspec, Hin.
  - intros name. split.
    + intros [row [Hin <-]]. apply Hrow in Hin. destruct Hin as [Hin Hpos].
      destruct (Hspec row Hin) as [<- _]. exact Hpos.
    + intros Hpos.
      assert (Hne : recordsOf name records <> []).
      { intros E. rewrite E in Hpos. unfold reduce_sum in Hpos. simpl in Hpos. lia. }
      apply recordsOf_sort_nonempty in Hne.
      assert (Hg : In (name, recordsOf name (sort byDateAsc records))
                      (productGroups (sort byDateAsc records))).
      { apply productGroups_In. split; [reflexivity|exact Hne]. }
      destruct (first_byDateAsc _ Hne) as [h Hh].
      destruct (last_byDateAsc _ Hne) as [h' Hh'].
      assert (Hsome : exists row,
                 productMovementRow (name, recordsOf name (sort byDateAsc records))
                 = Some row).
      { unfold productMovementRow. rewrite Hh, Hh'. simpl. eexists. reflexivity. }
      destruct Hsome as [row Hf]. exists row.
      assert (Hin : In row rows).
      { apply (mapM_In _ _ _ Hrows). eexists. split; [exact Hg|exact Hf]. }
      apply productMovementRow_activity in Hf. destruct Hf as (Hn & Ha & _).
      rewrite recordsOf_sort_sum in Ha.
      split; [|exact Hn]. apply Hrow. split; [exact Hin|]. rewrite Ha. exact Hpos.
Qed.

Lemma activity_level_five_fields_witness :
  exists w,
    generateWeeklyReport utc [sampleMixed; sampleDay1; sampleDay2] = Some w /\
    (forall row, In row (product_movements w) -> pm_item_name row = "B"%string ->
                 activity_level row = medium) /\
    (exists row, In row (product_movements w) /\ pm_item_name row = "A"%string).
Proof.
  destruct (activity_level_five_fields utc [sampleMixed; sampleDay1; sampleDay2])
    as (w & Hw & Hlevel & Hrow).
  exists w. split; [exact Hw|]. split.
  - intros row Hin Hname. rewrite (Hlevel row Hin), Hname. reflexivity.
  - apply Hrow. vm_compute. reflexivity.
Defined.

(** C4 (as stated). With the total activity taken over six quantities,
    the five movement quantities and the opening stock (or, instead, the
    closing stock or the new balance), the rule fails: a product with
    opening stock 50 and new stock 60 has a six-field total above 100 and
    is tagged [medium]. *)
Lemma activity_level_six_fields_fails :
  let r := {| item_name := "A"; date := 0; opening_stock := 50; new_stock := 60;
              new_balance := 110; issued_production := 0; returns := 0;
              rebagging := 0; damaged := 0; closing_stock := 110 |} in
  ~ activityRule (fun r => opening_stock r + movement r) [r] /\
  ~ activityRule (fun r => movement r + closing_stock r) [r] /\
  ~ activityRule (fun r => movement r + new_balance r) [r].
Proof.
  repeat split; intros H; destruct (H utc _ eq_refl) as [H1 _];
    specialize (H1 _ (or_introl eq_refl)); vm_compute in H1; discriminate.
Qed.

(** ** Percentages *)

Lemma percentage_positive (num den : Z) :
  0 < den ->
  exists q : Q,
    percentage num den = Fin q /\
    (q == toDouble (toDouble (inject_Z num / inject_Z den) * 100))%Q.
Proof.
  intros Hden. unfold percentage, divDouble, mulDouble, div, mulZ.
  destruct (Z.ltb_spec 0 den) as [_|]; [|lia].
  destruct (Z.eqb_spec den 0) as [|_]; [lia|].
  eexists. split; [reflexivity|].
  apply toDouble_comp. rewrite Qred_correct.
  apply Qmult_comp; [|reflexivity].
  apply toDouble_comp, Qred_correct.
Qed.

(** [(1 / 3) * 100] is the double printed as [33.33333333333333], and
    [(7 / 25) * 100] the one printed as [28.000000000000004]. *)
Example sample_percentage :
  percentage 1 3 = Fin (2345624805922133 # 70368744177664) /\
  percentage 7 25 = Fin (7881299347898369 # 281474976710656) /\
  percentage 1 4 = Fin 25.
Proof. repeat split. Qed.

Lemma percentage_finiteRate (num den : Z) :
  0 <= num -> finiteRate num den (percentage num den).
Proof.
  intros Hnum. unfold finiteRate.
  destruct (Z.ltb_spec 0 den) as [Hden|Hden].
  - destruct (percentage_positive num den Hden) as (q & -> & Eq).
    destruct (toDouble_percent num den Hnum Hden) as (H0 & Hle & Hge & Hz & Herr).
    cbv zeta in *. rewrite <- Eq in H0, Hle, Hge, Hz, Herr.
    exists q. split; [reflexivity|]. split; [exact H0|]. split; [|lia].
    intros _. repeat split; try assumption; apply Hz.
  - unfold percentage. destruct (Z.ltb_spec 0 den) as [|_]; [lia|].
    exists 0%Q. split; [reflexivity|]. split; [apply Qle_refl|].
    split; [lia|reflexivity].
Qed.

Lemma nonneg_sum (f : InventoryRecord -> Z) (g records : list InventoryRecord) :
  (forall r, nonneg_record r -> 0 <= f r) ->
  Forall nonneg_record records ->
  (forall r, In r g -> In r records) ->
  0 <= reduce_sum f g.
Proof.
  intros Hf Hnn Hsub. apply reduce_sum_nonneg. intros r Hr.
  apply Hf. rewrite Forall_forall in Hnn. apply Hnn, Hsub, Hr.
Qed.

Lemma recordsOf_incl (k : string) (records : list InventoryRecord) :
  forall r, In r (recordsOf k records) -> In r records.
Proof. intros r H. apply recordsOf_In in H. apply H. Qed.

(** C1 (amended). For records with non-negative quantities, the
    [return_rate] of each row of the returns/rebagging view, the
    [damage_percentage] of each row of the damaged-stock view, and the
    weekly [return_rate], [damage_rate] and [rebagging_rate] are finite and
    non-negative.  When the denominator, the sum of [new_stock] of the
    product or of the period, is positive they are the double that
    [(numerator / denominator) * 100] returns: it lies within the relative
    error [2 ^ -51] of [100 * numerator / denominator], is at most 100 when
    the numerator does not exceed the denominator, at least 100 when the
    denominator does not exceed the numerator, and 0 only for a numerator
    of 0.  When the denominator is 0 they are exactly 0. *)
Theorem rates_finite_nonnegative (zone : TimeZone) (records : list InventoryRecord) :
  Forall nonneg_record records ->
  (exists rows,
      generateReturnsRebaggingReport records = Some rows /\
      forall row, In row rows ->
        let g := recordsOf (rr_item_name row) records in
        finiteRate (reduce_sum returns g) (reduce_sum new_stock g)
                   (rr_return_rate row)) /\
  (exists rows,
      generateDamagedStockReport records = Some rows /\
      forall row, In row rows ->
        let g := recordsOf (ds_item_name row) records in
        finiteRate (reduce_sum damaged g) (reduce_sum new_stock g)
                   (damage_percentage row)) /\
  (exists w,
      generateWeeklyReport zone records = Some w /\
      let den := reduce_sum new_stock records in
      finiteRate (reduce_sum returns records) den
                 (em_return_rate (efficiency_metrics w)) /\
      finiteRate (reduce_sum damaged records) den
                 (em_damage_rate (efficiency_metrics w)) /\
      finiteRate (reduce_sum rebagging records) den
                 (em_rebagging_rate (efficiency_metrics w))).
Proof.
  intros Hnn. split; [|split].
  - destruct (returnsRebagging_total records) as [rows Hrows].
    exists rows. split; [exact Hrows|]. intros row Hin.
    unfold generateReturnsRebaggingReport in Hrows.
    destruct (mapM returnsRebaggingRow (productGroups records)) as [rows0|] eqn:Hm;
      [|discriminate].
    simpl in Hrows. injection Hrows as <-.
    apply sort_In, filter_In in Hin. destruct Hin as [Hin _].
    destruct (row_of_group _ _ _ _ Hm Hin) as [k [Hne Hrow]].
    unfold returnsRebaggingRow in Hrow.
    destruct (first_byDateDesc _ Hne) as [h Hh]. rewrite Hh in Hrow.
    simpl in Hrow. injection Hrow as <-. simpl.
    apply percentage_finiteRate.
    apply (nonneg_sum returns _ records); [|exact Hnn|apply recordsOf_incl].
    unfold nonneg_record. tauto.
  - destruct (damagedStock_total records) as [rows Hrows].
    exists rows. split; [exact Hrows|]. intros row Hin.
    unfold generateDamagedStockReport in Hrows.
    destruct (mapM damagedStockRow (productGroups records)) as [rows0|] eqn:Hm;
      [|discriminate].
    simpl in Hrows. injection Hrows as <-.
    apply sort_In, filter_In in Hin. destruct Hin as [Hin _].
    destruct (row_of_group _ _ _ _ Hm Hin) as [k [Hne Hrow]].
    unfold damagedStockRow in Hrow.
    destruct (first_byDateDesc _ Hne) as [h Hh]. rewrite Hh in Hrow.
    simpl in Hrow. injection Hrow as <-. simpl.
    apply percentage_finiteRate.
    apply (nonneg_sum damaged _ records); [|exact Hnn|apply recordsOf_incl].
    unfold nonneg_record. tauto.
  - destruct (weekly_total zone records) as [w Hw]. exists w. split; [exact Hw|].
    assert (He : efficiency_metrics w = efficiencyMetrics (weeklySummary records)).
    { destruct records as [|r0 l].
      - apply weekly_empty in Hw. subst w. reflexivity.
      - destruct (weekly_nonempty zone (r0 :: l) w) as (rows & _ & _ & He & _);
          [discriminate|exact Hw|].
        rewrite He. unfold weeklySummary. rewrite !sort_sum. reflexivity. }
    rewrite He. simpl.
    split; [|split]; apply percentage_finiteRate;
      (eapply nonneg_sum; [|exact Hnn|intros r Hr; exact Hr]);
      unfold nonneg_record; tauto.
Qed.

Lemma rates_finite_nonnegative_witness :
  exists w,
    generateWeeklyReport utc [sampleMixed] = Some w /\
    finiteRate 10 40 (em_return_rate (efficiency_metrics w)) /\
    finiteRate 2 40 (em_damage_rate (efficiency_metrics w)) /\
    finiteRate 4 40 (em_rebagging_rate (efficiency_metrics w)).
Proof.
  destruct (rates_finite_nonnegative utc [sampleMixed]) as (_ & _ & w & Hw & Hrates).
  - constructor; [|constructor]. unfold nonneg_record. simpl. lia.
  - exists w. split; [exact Hw|exact Hrates].
Defined.

(** C1 (as stated). The bound 100 fails: a product that received 1 unit
    and had 5 units returned, 5 rebagged and 5 damaged has rates of 500. *)
Lemma rates_exceed_hundred :
  let r := {| item_name := "A"; date := 0; opening_stock := 0; new_stock := 1;
              new_balance := 1; issued_production := 0; returns := 5;
              rebagging := 5; damaged := 5; closing_stock := 6 |} in
  Forall nonneg_record [r] /\ ~ ratesWithinPercent [r].
Proof.
  split.
  - constructor; [|constructor]. unfold nonneg_record. simpl. lia.
  - intros (H & _).
    specialize (H _ _ eq_refl (or_introl eq_refl)).
    destruct H as [H _]. destruct H as (q & Hq & _ & Hle).
    + vm_compute. reflexivity.
    + vm_compute in Hq. injection Hq as <-. vm_compute in Hle. apply Hle. reflexivity.
Qed.

(** ** Out of stock *)

Lemma byDateDesc_total (a b : InventoryRecord) :
  0 < byDateDesc a b -> byDateDesc b a <= 0.
Proof. unfold byDateDesc. lia. Qed.

Lemma byDateDesc_trans (a b c : InventoryRecord) :
  byDateDesc a b <= 0 -> byDateDesc b c <= 0 -> byDateDesc a c <= 0.
Proof. unfold byDateDesc. lia. Qed.

(** The record the views call [latestRecord]. *)
Lemma latest_is_first (r : InventoryRecord) (records : list InventoryRecord) :
  latestOf r records ->
  first (sort byDateDesc (recordsOf (item_name r) records)) = Some r.
Proof.
  intros [Hin Hlatest].
  assert (Hr : In r (recordsOf (item_name r) records)).
  { apply recordsOf_In. split; [exact Hin|reflexivity]. }
  destruct (first_byDateDesc (recordsOf (item_name r) records)) as [h Hh].
  { intros E. rewrite E in Hr. destruct Hr. }
  rewrite Hh. f_equal.
  destruct (sort_first_least byDateDesc byDateDesc_total byDateDesc_trans _ _ Hh)
    as [Hhin Hleast].
  apply recordsOf_In in Hhin. destruct Hhin as [Hhin Hname].
  destruct (Hlatest h Hhin Hname) as [Hlt|Heq]; [|exact Heq].
  destruct (Hleast r Hr) as [Heq|Hle]; [symmetry; exact Heq|].
  unfold byDateDesc, getTime, msPerDay in Hle. lia.
Qed.

Lemma outOfStock_rows (now : Z) (records : list InventoryRecord)
  (rows : list OutOfStockRow) :
  generateOutOfStockReport now records = Some rows ->
  exists rows0,
    mapM (outOfStockRow now) (productGroups records) = Some rows0 /\
    rows = sort (fun a b => days_since_stock b - days_since_stock a)
                (filter (fun item => last_stock item =? 0) rows0).
Proof.
  unfold generateOutOfStockReport. intros H.
  destruct (mapM (outOfStockRow now) (productGroups records)) as [rows0|];
    [|discriminate].
  simpl in H. injection H as <-. exists rows0. split; reflexivity.
Qed.




(** ** Dependence on the clock *)











End ReportFacts.

(* ------------------------------------------------------------------ *)
(** * Properties of the entry form *)
(* ------------------------------------------------------------------ *)

Module FormFacts.
Import JS Inventory Form.

(** Running the effect again changes nothing: the state it reaches is
    stable. *)
Lemma calculateValues_idem (formData : FormData) :
  calculateValues (calculateValues formData) = calculateValues formData.
Proof. reflexivity. Qed.

Lemma getDataForDate_In (store : Store) (productName : string) (targetDate : Z)
  (row : Z * InventoryRecord) :
  getDataForDate store productName targetDate = Some row -> In row store.
Proof.
  unfold getDataForDate. intros H.
  destruct (filter _ store) as [|x [|y l]] eqn:E; try discriminate.
  injection H as ->.
  assert (Hin : In row [row]) by (left; reflexivity).
  rewrite <- E in Hin. apply filter_In in Hin. apply Hin.
Qed.

Lemma updateById_In (id : Z) (old record : InventoryRecord) (store : Store) :
  In (id, old) store -> In (id, record) (updateById id record store).
Proof.
  intros H. unfold updateById. apply in_map_iff.
  exists (id, old). simpl. rewrite Z.eqb_refl. split; [reflexivity|exact H].
Qed.

(** The record of a save that passed validation is in the store
    afterwards. *)
Lemma saved_record_In (zone : TimeZone) (now : Z) (formData : FormData)
  (store store' : Store) :
  written (handleSaveRecord zone now formData store) = Some store' ->
  exists id d,
    formDate formData = Some d /\ In (id, buildRecord formData d) store'.
Proof.
  unfold handleSaveRecord.
  destruct (String.eqb (trim (itemName formData)) ""); [discriminate|].
  destruct (formDate formData) as [d|]; [|discriminate].
  destruct (isDateInPast zone now d); [discriminate|].
  destruct (getDataForDate store (itemName formData) d) as [[id old]|] eqn:E;
    simpl; intros H; injection H as <-.
  - exists id, d. split; [reflexivity|].
    apply updateById_In with old. eapply getDataForDate_In. exact E.
  - eexists. exists d. split; [reflexivity|].
    unfold insertRow. apply in_or_app. right. left. reflexivity.
Qed.

Lemma formState_calculated (events : list FormEvent) :
  calculateValues (formState events) = formState events.
Proof.
  unfold formState.
  assert (G : forall fd, calculateValues fd = fd ->
                calculateValues (fold_left step events fd) = fold_left step events fd).
  { induction events as [|e l IH]; intros fd Hfd; simpl.
    - exact Hfd.
    - apply IH. reflexivity. }
  apply G. reflexivity.
Qed.

(** C5. Whatever the user has entered in the form, and in particular
    whatever the six quantities are, the record a save writes to the store
    carries the quantities of the form and satisfies
    [new_balance = opening_stock + new_stock] and
    [closing_stock = max(0, new_balance - issued_production + returns
    + rebagging - damaged)]; its [closing_stock] is never negative. *)
Theorem saved_record_formula (zone : TimeZone) (now : Z) (events : list FormEvent)
  (store store' : Store) :
  written (handleSaveRecord zone now (formState events) store) = Some store' ->
  exists id r,
    In (id, r) store' /\
    opening_stock r = openingStock (formState events) /\
    new_stock r = newStock (formState events) /\
    issued_production r = issuedProduction (formState events) /\
    returns r = formReturns (formState events) /\
    rebagging r = formRebagging (formState events) /\
    damaged r = formDamaged (formState events) /\
    new_balance r = opening_stock r + new_stock r /\
    closing_stock r =
      Z.max 0 (new_balance r - issued_production r + returns r + rebagging r
               - damaged r) /\
    0 <= closing_stock r.
Proof.
  intros H. apply saved_record_In in H. destruct H as (id & d & _ & Hin).
  exists id, (buildRecord (formState events) d).
  split; [exact Hin|].
  pose proof (formState_calculated events) as Hc.
  remember (formState events) as fd eqn:Hfd. clear Hfd Hin. simpl.
  assert (Hnb : newBalance fd = openingStock fd + newStock fd)
    by (rewrite <- Hc; reflexivity).
  assert (Hcl : closingStock fd =
                Z.max 0 (newBalance fd - issuedProduction fd + formReturns fd
                         + formRebagging fd - formDamaged fd))
    by (rewrite <- Hc; reflexivity).
  repeat split; try assumption. rewrite Hcl. lia.
Qed.

(** A no-break space (U+00A0) and a line separator (U+2028) around a name
    are trimmed like the blanks. *)
Example sample_trim :
  trim (string_of_list_ascii
          (map ascii_of_nat [194; 160; 32; 65; 32; 66; 226; 128; 168; 9]%nat))
  = "A B"%string.
Proof. reflexivity. Qed.

(** The quantities of the saved record are the ones typed last. *)
Example sample_save :
  handleSaveRecord utc (getTime 5)
    (formState [Mount 5; ChangeItemName " A "; ChangeQuantity QOpeningStock 10;
                ChangeQuantity QNewStock 5; ChangeQuantity QIssuedProduction 20;
                ChangeQuantity QReturns 1; ChangeQuantity QRebagging 2;
                ChangeQuantity QDamaged 3]) [] =
  Inserted [(1, {| item_name := "A"; date := 5; opening_stock := 10;
                   new_stock := 5; new_balance := 15; issued_production := 20;
                   returns := 1; rebagging := 2; damaged := 3;
                   closing_stock := 0 |})].
Proof. reflexivity. Qed.

Lemma saved_record_formula_witness :
  exists id r,
    In (id, r) [(1, {| item_name := "A"; date := 5; opening_stock := 10;
                       new_stock := 5; new_balance := 15; issued_production := 20;
                       returns := 1; rebagging := 2; damaged := 3;
                       closing_stock := 0 |})] /\
    new_balance r = opening_stock r + new_stock r /\ 0 <= closing_stock r.
Proof.
  destruct (saved_record_formula utc (getTime 5)
              [Mount 5; ChangeItemName " A "; ChangeQuantity QOpeningStock 10;
               ChangeQuantity QNewStock 5; ChangeQuantity QIssuedProduction 20;
               ChangeQuantity QReturns 1; ChangeQuantity QRebagging 2;
               ChangeQuantity QDamaged 3]
              []
              [(1, {| item_name := "A"; date := 5; opening_stock := 10;
                      new_stock := 5; new_balance := 15; issued_production := 20;
                      returns := 1; rebagging := 2; damaged := 3;
                      closing_stock := 0 |})])
    as (id & r & Hin & _ & _ & _ & _ & _ & _ & Hb & _ & Hc).
  - reflexivity.
  - exists id, r. split; [exact Hin|]. split; [exact Hb|exact Hc].
Defined.

End FormFacts.

(* ------------------------------------------------------------------ *)
(** * Further facts about the library functions *)
(* ------------------------------------------------------------------ *)

Module MoreJSFacts.
Import JS JSFacts.

Lemma reduce_sum_const_one {A : Type} (l : list A) :
  reduce_sum (fun _ => 1) l = Z.of_nat (List.length l).
Proof.
  induction l as [|a l IH].
  - reflexivity.
  - rewrite reduce_sum_cons, IH. simpl List.length. lia.
Qed.

Lemma reduce_sum_filter_pos {A : Type} (f : A -> Z) (l : list A) :
  (forall x, In x l -> 0 <= f x) ->
  reduce_sum f (filter (fun x => 0 <? f x) l) = reduce_sum f l.
Proof.
  induction l as [|a l IH]; intros H; simpl.
  - reflexivity.
  - assert (Ha : 0 <= f a) by (apply H; left; reflexivity).
    assert (Hl : forall x, In x l -> 0 <= f x) by (intros x Hx; apply H; right; exact Hx).
    destruct (0 <? f a) eqn:E.
    + rewrite !reduce_sum_cons, IH by exact Hl. reflexivity.
    + apply Z.ltb_ge in E. rewrite reduce_sum_cons, IH by exact Hl. lia.
Qed.

Section MapNames.
Context {A B K : Type}.
Variable f : A -> option B.
Variable ka : A -> K.
Variable kb : B -> K.
Hypothesis f_name : forall a b, f a = Some b -> kb b = ka a.

(** A callback that keeps the key of each entry keeps the list of keys. *)
Lemma mapM_names (l : list A) (rows : list B) :
  mapM f l = Some rows -> map kb rows = map ka l.
Proof.
  revert rows. induction l as [|a l IH]; intros rows H; simpl in H.
  - injection H as <-. reflexivity.
  - destruct (f a) as [b|] eqn:Ea; [|discriminate]. simpl in H.
    destruct (mapM f l) as [bs|]; [|discriminate]. simpl in H.
    injection H as <-. simpl. rewrite (f_name _ _ Ea), (IH bs eq_refl). reflexivity.
Qed.
End MapNames.

Lemma mapM_sum {A B : Type} (f : A -> option B) (g : B -> Z) (h : A -> Z)
  (l : list A) (rows : list B) :
  (forall a b, In a l -> f a = Some b -> g b = h a) ->
  mapM f l = Some rows -> reduce_sum g rows = reduce_sum h l.
Proof.
  revert rows. induction l as [|a l IH]; intros rows Hg H; simpl in H.
  - injection H as <-. reflexivity.
  - destruct (f a) as [b|] eqn:Ea; [|discriminate]. simpl in H.
    destruct (mapM f l) as [bs|]; [|discriminate]. simpl in H.
    injection H as <-. rewrite !reduce_sum_cons.
    rewrite (Hg a b) by (try left; auto).
    rewrite (IH bs) by (try reflexivity; intros x y Hx; apply Hg; right; exact Hx).
    reflexivity.
Qed.

Lemma mapM_length {A B : Type} (f : A -> option B) (l : list A) (rows : list B) :
  mapM f l = Some rows -> List.length rows = List.length l.
Proof.
  revert rows. induction l as [|a l IH]; intros rows H; simpl in H.
  - injection H as <-. reflexivity.
  - destruct (f a) as [b|]; [|discriminate]. simpl in H.
    destruct (mapM f l) as [bs|]; [|discriminate]. simpl in H.
    injection H as <-. simpl. rewrite (IH bs eq_refl). reflexivity.
Qed.

Lemma mapM_defined {A B : Type} (f : A -> option B) (l : list A) (rows : list B) (x : A) :
  mapM f l = Some rows -> In x l -> exists y, f x = Some y /\ In y rows.
Proof.
  revert rows. induction l as [|a l IH]; intros rows H Hx; [destruct Hx|].
  simpl in H. destruct (f a) as [b|] eqn:Ea; [|discriminate]. simpl in H.
  destruct (mapM f l) as [bs|]; [|discriminate]. simpl in H.
  injection H as <-. destruct Hx as [<-|Hx].
  - exists b. split; [exact Ea|left; reflexivity].
  - destruct (IH bs eq_refl Hx) as [y [Hy Hin]].
    exists y. split; [exact Hy|right; exact Hin].
Qed.

Lemma NoDup_map_filter {A K : Type} (k : A -> K) (p : A -> bool) (l : list A) :
  NoDup (map k l) -> NoDup (map k (filter p l)).
Proof.
  induction l as [|a l IH]; simpl; intros H.
  - constructor.
  - inversion H as [|x s Hnotin Hnd]; subst.
    destruct (p a); simpl; [constructor|]; try (apply IH; assumption).
    intros Hin. apply Hnotin. apply in_map_iff in Hin.
    destruct Hin as [y [Hy Hin]]. apply filter_In in Hin.
    apply in_map_iff. exists y. split; [exact Hy|apply Hin].
Qed.

Lemma NoDup_map_sort {A K : Type} (k : A -> K) (comparefn : A -> A -> Z) (l : list A) :
  NoDup (map k l) -> NoDup (map k (sort comparefn l)).
Proof.
  apply Permutation_NoDup, Permutation_map, sort_perm.
Qed.

(** An ordered array without two equal keys is strictly ordered. *)
Lemma ordered_strict {A : Type} (comparefn : A -> A -> Z) (k : A -> Z) (l : list A) :
  (forall a b, comparefn a b <= 0 -> k a <= k b) ->
  ordered comparefn l -> NoDup (map k l) ->
  StronglySorted (fun a b => k a < k b) l.
Proof.
  intros Hk. induction 1 as [|a l Ha _ IH]; intros Hnd; constructor.
  - apply IH. inversion Hnd; assumption.
  - apply Forall_forall. intros x Hx.
    assert (Hle : k a <= k x) by (apply Hk, Ha, Hx).
    inversion Hnd as [|y s Hnotin _]; subst.
    assert (Hne : k a <> k x).
    { intros E. apply Hnotin. rewrite E. apply in_map. exact Hx. }
    lia.
Qed.

Section SortOn.
Context {A : Type}.
Variable comparefn : A -> A -> Z.
Variable P : A -> Prop.
Hypothesis total_on : forall a b, P a -> P b -> 0 < comparefn a b -> comparefn b a <= 0.
Hypothesis trans_on :
  forall a b c, P a -> P b -> P c ->
                comparefn a b <= 0 -> comparefn b c <= 0 -> comparefn a c <= 0.

(** Sorting orders an array as soon as the comparator is a total preorder
    on the elements of the array. *)
Lemma sort_insert_ordered_on (a : A) (l : list A) :
  P a -> Forall P l ->
  ordered comparefn l -> ordered comparefn (sort_insert comparefn a l).
Proof.
  intros Pa Pl. induction 1 as [|b l Hb Hl IH]; simpl.
  - constructor; [intros x []|constructor].
  - inversion Pl as [|y s Pb Pl']; subst.
    destruct (0 <? comparefn a b) eqn:E.
    + apply Z.ltb_lt in E. constructor; [|apply IH; exact Pl'].
      intros x Hx.
      apply (Permutation_in _ (Permutation_sym (sort_insert_perm comparefn a l))) in Hx.
      destruct Hx as [<-|Hx]; [apply total_on; assumption|apply Hb; exact Hx].
    + apply Z.ltb_ge in E. constructor; [|constructor; assumption].
      intros x [<-|Hx]; [exact E|].
      rewrite Forall_forall in Pl'.
      apply trans_on with b; auto.
Qed.

Lemma sort_ordered_on (l : list A) :
  Forall P l -> ordered comparefn (sort comparefn l).
Proof.
  induction l as [|a l IH]; simpl; intros H.
  - constructor.
  - inversion H as [|x s Pa Pl]; subst.
    apply sort_insert_ordered_on; [exact Pa| |apply IH; exact Pl].
    apply Forall_forall. intros x Hx. apply sort_In in Hx.
    rewrite Forall_forall in Pl. apply Pl, Hx.
Qed.
End SortOn.

Section SortLast.
Context {A : Type}.
Variable comparefn : A -> A -> Z.

Lemma ordered_last (l : list A) (h : A) :
  ordered comparefn l -> JS.last l = Some h ->
  In h l /\ forall x, In x l -> x = h \/ comparefn x h <= 0.
Proof.
  induction 1 as [|a l Ha Hl IH]; intros H; [discriminate|].
  destruct l as [|b l'].
  - simpl in H. injection H as ->. split; [left; reflexivity|].
    intros x [->|[]]. left. reflexivity.
  - change (JS.last (b :: l') = Some h) in H.
    destruct (IH H) as [Hin Hall]. split; [right; exact Hin|].
    intros x [<-|Hx]; [right; apply Ha; exact Hin|apply Hall; exact Hx].
Qed.

Hypothesis comparefn_total : forall a b, 0 < comparefn a b -> comparefn b a <= 0.
Hypothesis comparefn_trans :
  forall a b c, comparefn a b <= 0 -> comparefn b c <= 0 -> comparefn a c <= 0.

(** The last element of a sorted array comes after every other one. *)
Lemma sort_last_greatest (l : list A) (h : A) :
  JS.last (sort comparefn l) = Some h ->
  In h l /\ forall x, In x l -> x = h \/ comparefn x h <= 0.
Proof.
  intros H.
  destruct (ordered_last _ _ (sort_ordered comparefn comparefn_total comparefn_trans l) H)
    as [Hin Hall].
  split; [apply sort_In in Hin; exact Hin|].
  intros x Hx. apply Hall. apply sort_In. exact Hx.
Qed.
End SortLast.

Section SetFacts.
Context {K : Type}.
Variable eqb : K -> K -> bool.
Hypothesis eqb_eq : forall a b, eqb a b = true <-> a = b.

Lemma set_add_In (x k : K) (s : list K) :
  In x (set_add eqb k s) <-> x = k \/ In x s.
Proof.
  induction s as [|k' s IH]; simpl.
  - intuition.
  - destruct (eqb k' k) eqn:E.
    + apply eqb_eq in E. subst k'. simpl. intuition.
    + simpl. rewrite IH. intuition.
Qed.

Lemma set_add_NoDup (k : K) (s : list K) : NoDup s -> NoDup (set_add eqb k s).
Proof.
  induction s as [|k' s IH]; simpl; intros H.
  - constructor; [intros []|constructor].
  - destruct (eqb k' k) eqn:E; [exact H|].
    inversion H as [|y t Hnotin Hnd]; subst.
    constructor; [|apply IH; exact Hnd].
    intros Hin. apply set_add_In in Hin. destruct Hin as [->|Hin]; [|contradiction].
    rewrite (proj2 (eqb_eq k k)) in E by reflexivity. discriminate.
Qed.

Lemma fold_set_add (l s : list K) :
  NoDup s ->
  NoDup (fold_left (fun s k => set_add eqb k s) l s) /\
  forall x, In x (fold_left (fun s k => set_add eqb k s) l s) <-> In x l \/ In x s.
Proof.
  revert s. induction l as [|k l IH]; intros s Hs; simpl.
  - split; [exact Hs|]. intuition.
  - destruct (IH (set_add eqb k s) (set_add_NoDup k s Hs)) as [Hnd Hin].
    split; [exact Hnd|]. intros x. rewrite Hin, set_add_In. intuition.
Qed.

(** [new Set(arr).size] counts the distinct elements of the array. *)
Lemma set_size_distinct (l : list K) :
  exists ds, NoDup ds /\ (forall x, In x ds <-> In x l) /\
             set_size eqb l = Z.of_nat (List.length ds).
Proof.
  destruct (fold_set_add l [] (NoDup_nil K)) as [Hnd Hin].
  exists (fold_left (fun s k => set_add eqb k s) l []).
  split; [exact Hnd|]. split; [|reflexivity].
  intros x. rewrite Hin. simpl. intuition.
Qed.

Lemma set_size_bounds (l : list K) :
  l <> [] -> 1 <= set_size eqb l <= Z.of_nat (List.length l).
Proof.
  intros Hne. destruct (set_size_distinct l) as (ds & Hnd & Hin & ->).
  split.
  - destruct l as [|a l]; [contradiction|].
    destruct ds as [|d ds]; [|simpl List.length; lia].
    exfalso. apply (Hin a). left. reflexivity.
  - apply inj_le. apply NoDup_incl_length; [exact Hnd|].
    intros x Hx. apply Hin. exact Hx.
Qed.
End SetFacts.

Section Totals.
Context {K V : Type}.
Variable eqb : K -> K -> bool.
Hypothesis eqb_eq : forall a b, eqb a b = true <-> a = b.
Variable key : V -> K.
Variable val : V -> Z.

Lemma total_of_add_to (k k0 : K) (n : Z) (m : list (K * Z)) :
  ViewSpec.total_of eqb k (add_to eqb k0 n m) =
  if eqb k0 k then
    Some (match ViewSpec.total_of eqb k m with Some x => x + n | None => n end)
  else ViewSpec.total_of eqb k m.
Proof.
  induction m as [|[k' x] m IH]; simpl.
  - destruct (eqb k0 k); reflexivity.
  - destruct (eqb k' k0) eqn:E0; simpl.
    + apply eqb_eq in E0. subst k'. destruct (eqb k0 k); reflexivity.
    + destruct (eqb k' k) eqn:E1.
      * destruct (eqb k0 k) eqn:E2; [|reflexivity].
        apply eqb_eq in E1, E2. subst.
        rewrite (proj2 (eqb_eq k k)) in E0 by reflexivity. discriminate.
      * exact IH.
Qed.

(** The total of [k] after the loop that adds up [val] per key. *)
Lemma total_of_fold (k : K) (l : list V) (m : list (K * Z)) :
  ViewSpec.total_of eqb k (fold_left (fun m r => add_to eqb (key r) (val r) m) l m) =
  match ViewSpec.total_of eqb k m, filter (fun r => eqb (key r) k) l with
  | None, [] => None
  | None, g => Some (reduce_sum val g)
  | Some x, g => Some (x + reduce_sum val g)
  end.
Proof.
  revert m. induction l as [|r l IH]; intros m; simpl.
  - destruct (ViewSpec.total_of eqb k m) as [x|]; [|reflexivity].
    change (reduce_sum val []) with 0. f_equal. lia.
  - rewrite IH, total_of_add_to.
    destruct (eqb (key r) k); [|reflexivity].
    destruct (ViewSpec.total_of eqb k m) as [x|].
    + rewrite reduce_sum_cons. f_equal. lia.
    + rewrite reduce_sum_cons.
      destruct (filter (fun r0 => eqb (key r0) k) l); reflexivity.
Qed.

Lemma keys_add_to_in (k k0 : K) (n : Z) (m : list (K * Z)) :
  In k (map fst (add_to eqb k0 n m)) -> k = k0 \/ In k (map fst m).
Proof.
  induction m as [|[k' x] m IH]; simpl; intros Hk.
  - destruct Hk as [<-|[]]. left. reflexivity.
  - destruct (eqb k' k0); simpl in Hk.
    + right. exact Hk.
    + destruct Hk as [<-|Hk]; [right; left; reflexivity|].
      destruct (IH Hk); [left|right; right]; assumption.
Qed.

Lemma keys_add_to (k0 : K) (n : Z) (m : list (K * Z)) :
  NoDup (map fst m) -> NoDup (map fst (add_to eqb k0 n m)).
Proof.
  induction m as [|[k' x] m IH]; simpl; intros Hnd.
  - constructor; [intros []|constructor].
  - destruct (eqb k' k0) eqn:E; simpl.
    + exact Hnd.
    + inversion Hnd as [|y s Hnotin Hnd']; subst.
      constructor; [|apply IH; assumption].
      intros Hin. destruct (keys_add_to_in _ _ _ _ Hin) as [->|Hin'].
      * rewrite (proj2 (eqb_eq k0 k0)) in E by reflexivity. discriminate.
      * contradiction.
Qed.

Lemma keys_fold_add_to (l : list V) (m : list (K * Z)) :
  NoDup (map fst m) ->
  NoDup (map fst (fold_left (fun m r => add_to eqb (key r) (val r) m) l m)).
Proof.
  revert m. induction l as [|r l IH]; intros m Hm; simpl.
  - exact Hm.
  - apply IH, keys_add_to, Hm.
Qed.

Lemma total_of_In (k : K) (x : Z) (m : list (K * Z)) :
  NoDup (map fst m) -> (In (k, x) m <-> ViewSpec.total_of eqb k m = Some x).
Proof.
  induction m as [|[k' y] m IH]; simpl; intros Hnd.
  - split; [intros []|discriminate].
  - inversion Hnd as [|z s Hnotin Hnd']; subst.
    destruct (eqb k' k) eqn:E.
    + apply eqb_eq in E. subst k'. split.
      * intros [H|H]; [congruence|].
        exfalso. apply Hnotin. apply (in_map fst) in H. exact H.
      * intros H. left. congruence.
    + split.
      * intros [H|H]; [|apply IH; assumption].
        injection H as -> ->. rewrite (proj2 (eqb_eq k k)) in E by reflexivity.
        discriminate.
      * intros H. right. apply IH; assumption.
Qed.

(** The map of totals holds, for each key of the array, the sum of [val]
    over the elements of that key, and nothing else. *)
Lemma totals_In (k : K) (x : Z) (l : list V) :
  In (k, x) (fold_left (fun m r => add_to eqb (key r) (val r) m) l []) <->
  filter (fun r => eqb (key r) k) l <> [] /\
  x = reduce_sum val (filter (fun r => eqb (key r) k) l).
Proof.
  rewrite (total_of_In k x _ (keys_fold_add_to l [] (NoDup_nil K))).
  rewrite total_of_fold. simpl.
  destruct (filter (fun r => eqb (key r) k) l) as [|a g].
  - split; [discriminate|]. intros [H _]. contradiction.
  - split.
    + intros H. injection H as <-. split; [discriminate|reflexivity].
    + intros [_ ->]. reflexivity.
Qed.
End Totals.

Lemma filter_perm {A : Type} (p : A -> bool) (l1 l2 : list A) :
  Permutation l1 l2 -> Permutation (filter p l1) (filter p l2).
Proof.
  induction 1 as [|x l1 l2 _ IH|x y l0|l1 l2 l3 _ IH1 _ IH2]; simpl.
  - apply perm_nil.
  - destruct (p x); [apply perm_skip|]; exact IH.
  - destruct (p x), (p y); try apply Permutation_refl. apply perm_swap.
  - eapply perm_trans; eassumption.
Qed.

Lemma ordered_StronglySorted_on {A : Type} (comparefn : A -> A -> Z)
  (P : A -> Prop) (R : A -> A -> Prop) (l : list A) :
  (forall a b, P a -> P b -> comparefn a b <= 0 -> R a b) ->
  Forall P l -> ordered comparefn l -> StronglySorted R l.
Proof.
  intros HR HP. induction 1 as [|a l Ha _ IH]; constructor.
  - apply IH. inversion HP; assumption.
  - inversion HP as [|x s Pa Pl]; subst. rewrite Forall_forall in Pl.
    apply Forall_forall. intros x Hx. apply HR; auto.
Qed.

(** The sign of a difference of two finite numbers. *)
Lemma Qnum_Qred_sign (x : Q) : Qnum (Qred x) <= 0 <-> (x <= 0)%Q.
Proof.
  rewrite <- (Qred_correct x) at 2. unfold Qle. simpl. lia.
Qed.

Lemma Qminus_le_zero (p q : Q) : (p - q <= 0)%Q <-> (p <= q)%Q.
Proof.
  split; intros H.
  - apply Qle_minus_iff. apply Qle_minus_iff in H.
    setoid_replace (q + - p)%Q with (0 + - (p - q))%Q by ring. exact H.
  - apply Qle_minus_iff. apply Qle_minus_iff in H.
    setoid_replace (0 + - (p - q))%Q with (q + - p)%Q by ring. exact H.
Qed.

Lemma sign_sub_Fin (p q : Q) :
  sign (sub (Fin p) (Fin q)) <= 0 <-> (p <= q)%Q.
Proof.
  unfold sign, sub. rewrite <- Qminus_le_zero, <- Qnum_Qred_sign.
  generalize (Qnum (Qred (p - q))). intros z. destruct z; simpl; lia.
Qed.

End MoreJSFacts.

(* ------------------------------------------------------------------ *)
(** * Further properties of the report aggregator *)
(* ------------------------------------------------------------------ *)

Module ReportExtras.
Import JS Inventory Reports Spec ViewSpec JSFacts MoreJSFacts ReportFacts.

Lemma recordsOn_In (r : InventoryRecord) (d : Z) (records : list InventoryRecord) :
  In r (recordsOn d records) <-> In r records /\ date r = d.
Proof.
  unfold recordsOn. rewrite filter_In, Z.eqb_eq. reflexivity.
Qed.

Lemma byDateAsc_total (a b : InventoryRecord) :
  0 < byDateAsc a b -> byDateAsc b a <= 0.
Proof. unfold byDateAsc. lia. Qed.

Lemma byDateAsc_trans (a b c : InventoryRecord) :
  byDateAsc a b <= 0 -> byDateAsc b c <= 0 -> byDateAsc a c <= 0.
Proof. unfold byDateAsc. lia. Qed.

Lemma movement_dates (records : list InventoryRecord) :
  map sm_date (map stockMovementRow (dateGroups records)) =
  map fst (dateGroups records).
Proof.
  rewrite map_map. apply map_ext. intros [d g]. reflexivity.
Qed.

(** ** Stock movements by date *)

(** X1. The movements view has exactly one row for each date that occurs
    among the records, the rows are in strictly ascending order of date,
    the [product_count] of a row is the (positive) number of records of
    its date, and the counts add up to the number of records. *)
Theorem movements_one_row_per_date (records : list InventoryRecord) :
  StronglySorted (fun a b => sm_date a < sm_date b)
                 (generateStockMovementReport records) /\
  (forall d, (exists row, In row (generateStockMovementReport records) /\ sm_date row = d)
             <-> (exists r, In r records /\ date r = d)) /\
  (forall row, In row (generateStockMovementReport records) ->
               product_count row = len (recordsOn (sm_date row) records) /\
               0 < product_count row) /\
  reduce_sum product_count (generateStockMovementReport records) = len records.
Proof.
  split; [|split; [|split]].
  - unfold generateStockMovementReport.
    apply (ordered_strict (fun a b => getTime (sm_date a) - getTime (sm_date b))).
    + intros a b. unfold getTime, msPerDay. lia.
    + apply sort_ordered; intros; lia.
    + apply NoDup_map_sort. rewrite movement_dates.
      apply (keys_groupBy Z.eqb Z.eqb_eq).
  - intros d. split.
    + intros [row [Hin <-]].
      destruct (movement_row_of_bucket _ _ Hin) as [Hne _].
      destruct (recordsOn (sm_date row) records) as [|r g] eqn:E; [contradiction|].
      exists r. apply recordsOn_In. rewrite E. left. reflexivity.
    + intros [r [Hin <-]].
      exists (stockMovementRow (date r, recordsOn (date r) records)).
      split; [|reflexivity].
      unfold generateStockMovementReport. apply sort_In, in_map.
      apply dateGroups_In. split; [reflexivity|].
      intros E. assert (H : In r (recordsOn (date r) records))
        by (apply recordsOn_In; split; [exact Hin|reflexivity]).
      rewrite E in H. destruct H.
  - intros row Hin. destruct (movement_row_of_bucket _ _ Hin) as [Hne Hrow].
    assert (E : product_count row = len (recordsOn (sm_date row) records))
      by (rewrite Hrow at 1; reflexivity).
    split; [exact E|]. rewrite E. apply len_pos. exact Hne.
  - unfold generateStockMovementReport. rewrite sort_sum, reduce_sum_map.
    rewrite (reduce_sum_ext _ (fun e => reduce_sum (fun _ => 1) (snd e))).
    + unfold dateGroups. rewrite (groupBy_sum Z.eqb date (fun _ => 1)).
      apply reduce_sum_const_one.
    + intros [d g] _. simpl. unfold len. symmetry. apply reduce_sum_const_one.
Qed.

Lemma movements_one_row_per_date_witness :
  product_count (stockMovementRow (19723, [sampleMixed; sampleDay1])) = 2.
Proof.
  destruct (movements_one_row_per_date [sampleDay2; sampleMixed; sampleDay1])
    as (_ & _ & Hcount & _).
  destruct (Hcount (stockMovementRow (19723, [sampleMixed; sampleDay1]))) as [E _].
  - vm_compute. left. reflexivity.
  - rewrite E. reflexivity.
Defined.

(** X2. The [total_out] of the date buckets add up to the sum of
    [issued_production + damaged] over the records; each row lists one
    daily activity per record of its date, and the net changes of these
    activities add up to the [net_change] of the row, which is
    [total_in - total_out]. *)
Theorem movements_rows_balance (records : list InventoryRecord) :
  reduce_sum total_out (generateStockMovementReport records) =
    reduce_sum (fun r => issued_production r + damaged r) records /\
  forall row, In row (generateStockMovementReport records) ->
    len (daily_activities row) = product_count row /\
    map da_item_name (daily_activities row) =
      map item_name (recordsOn (sm_date row) records) /\
    reduce_sum da_net_change (daily_activities row) = sm_net_change row /\
    sm_net_change row = total_in row - total_out row.
Proof.
  split.
  - unfold generateStockMovementReport. rewrite sort_sum, reduce_sum_map.
    rewrite (reduce_sum_ext _
               (fun e => reduce_sum (fun r => issued_production r + damaged r) (snd e)))
      by (intros [d g] _; reflexivity).
    unfold dateGroups. apply groupBy_sum.
  - intros row Hin. destruct (movement_row_of_bucket _ _ Hin) as [_ Hrow].
    set (g := recordsOn (sm_date row) records) in *.
    rewrite Hrow. simpl. unfold len. rewrite length_map.
    split; [reflexivity|]. split; [|split; [|reflexivity]].
    + rewrite map_map. reflexivity.
    + rewrite reduce_sum_map. simpl. rewrite reduce_sum_minus. reflexivity.
Qed.

Lemma movements_rows_balance_witness :
  reduce_sum da_net_change
             (daily_activities (stockMovementRow (19723, [sampleMixed; sampleDay1]))) = 24.
Proof.
  destruct (movements_rows_balance [sampleDay2; sampleMixed; sampleDay1]) as [_ H].
  destruct (H (stockMovementRow (19723, [sampleMixed; sampleDay1])))
    as (_ & _ & E & _).
  - vm_compute. left. reflexivity.
  - rewrite E. reflexivity.
Defined.

(** ** Per-product views: one row per product *)

Lemma product_has_bucket (name : string) (records : list InventoryRecord) :
  In name (map fst (productGroups records)) <->
  exists r, In r records /\ item_name r = name.
Proof.
  split.
  - intros H. apply in_map_iff in H. destruct H as [[k g] [<- Hin]]. simpl.
    apply productGroups_In in Hin. destruct Hin as [-> Hne].
    destruct (recordsOf k records) as [|r g] eqn:E; [contradiction|].
    exists r. apply recordsOf_In. rewrite E. left. reflexivity.
  - intros [r [Hin <-]]. apply in_map_iff.
    exists (item_name r, recordsOf (item_name r) records). split; [reflexivity|].
    apply productGroups_In. split; [reflexivity|].
    intros E. assert (H : In r (recordsOf (item_name r) records))
      by (apply recordsOf_In; split; [exact Hin|reflexivity]).
    rewrite E in H. destruct H.
Qed.

Lemma rows_one_per_product {B : Type}
  (f : string * list InventoryRecord -> option B) (name : B -> string)
  (records : list InventoryRecord) (rows : list B) :
  (forall e y, f e = Some y -> name y = fst e) ->
  mapM f (productGroups records) = Some rows ->
  NoDup (map name rows) /\
  forall k, In k (map name rows) <-> exists r, In r records /\ item_name r = k.
Proof.
  intros Hname Hm.
  rewrite (mapM_names f fst name Hname _ _ Hm). split.
  - apply (keys_groupBy String.eqb String.eqb_eq).
  - intros k. apply product_has_bucket.
Qed.

Lemma earliest_is_first (r : InventoryRecord) (records : list InventoryRecord) :
  earliestOf r records ->
  first (sort byDateAsc (recordsOf (item_name r) records)) = Some r.
Proof.
  intros [Hin Hearliest].
  assert (Hr : In r (recordsOf (item_name r) records)).
  { apply recordsOf_In. split; [exact Hin|reflexivity]. }
  destruct (first_byDateAsc (recordsOf (item_name r) records)) as [h Hh].
  { intros E. rewrite E in Hr. destruct Hr. }
  rewrite Hh. f_equal.
  destruct (sort_first_least byDateAsc byDateAsc_total byDateAsc_trans _ _ Hh)
    as [Hhin Hleast].
  apply recordsOf_In in Hhin. destruct Hhin as [Hhin Hname].
  destruct (Hearliest h Hhin Hname) as [Hlt|Heq]; [|exact Heq].
  destruct (Hleast r Hr) as [Heq|Hle]; [symmetry; exact Heq|].
  unfold byDateAsc, getTime, msPerDay in Hle. lia.
Qed.

Lemma latest_is_last (r : InventoryRecord) (records : list InventoryRecord) :
  latestOf r records ->
  JS.last (sort byDateAsc (recordsOf (item_name r) records)) = Some r.
Proof.
  intros [Hin Hlatest].
  assert (Hr : In r (recordsOf (item_name r) records)).
  { apply recordsOf_In. split; [exact Hin|reflexivity]. }
  destruct (last_byDateAsc (recordsOf (item_name r) records)) as [h Hh].
  { intros E. rewrite E in Hr. destruct Hr. }
  rewrite Hh. f_equal.
  destruct (sort_last_greatest byDateAsc byDateAsc_total byDateAsc_trans _ _ Hh)
    as [Hhin Hgreatest].
  apply recordsOf_In in Hhin. destruct Hhin as [Hhin Hname].
  destruct (Hlatest h Hhin Hname) as [Hlt|Heq]; [|exact Heq].
  destruct (Hgreatest r Hr) as [Heq|Hle]; [symmetry; exact Heq|].
  unfold byDateAsc, getTime, msPerDay in Hle. lia.
Qed.

(** The first and the last record of a bucket in ascending order. *)
Lemma bucket_ends_ascending (g : list InventoryRecord) :
  g <> [] ->
  exists r0 rl,
    first (sort byDateAsc g) = Some r0 /\ JS.last (sort byDateAsc g) = Some rl /\
    In r0 g /\ In rl g /\ date r0 <= date rl.
Proof.
  intros Hne.
  destruct (first_byDateAsc g Hne) as [r0 H0].
  destruct (last_byDateAsc g Hne) as [rl Hl].
  exists r0, rl. split; [exact H0|]. split; [exact Hl|].
  destruct (sort_first_least byDateAsc byDateAsc_total byDateAsc_trans _ _ H0)
    as [Hin0 Hleast].
  destruct (sort_last_greatest byDateAsc byDateAsc_total byDateAsc_trans _ _ Hl)
    as [Hinl _].
  split; [exact Hin0|]. split; [exact Hinl|].
  destruct (Hleast rl Hinl) as [->|Hle]; [lia|].
  unfold byDateAsc, getTime, msPerDay in Hle. lia.
Qed.

(** ** Stock balances *)

Lemma stockBalanceRow_name (e : string * list InventoryRecord) (y : StockBalanceRow) :
  stockBalanceRow e = Some y -> sb_item_name y = fst e.
Proof.
  destruct e as [k g]. unfold stockBalanceRow.
  destruct (first (sort byDateAsc g)); [|discriminate].
  destruct (JS.last (sort byDateAsc g)); [|discriminate].
  simpl. intros H. injection H as <-. reflexivity.
Qed.

(** X3. The stock-balance view has exactly one row for each product that
    has a record.  In a row, [net_change] is [closing_stock -
    opening_stock] and [movement_type] is the word for its sign; when the
    product has an earliest and a latest record, the row carries the
    opening stock of the earliest and the closing stock of the latest.
    The rows are in descending order of the absolute net change. *)
Theorem balances_one_row_per_product (records : list InventoryRecord) :
  exists rows,
    generateStockBalanceReport records = Some rows /\
    NoDup (map sb_item_name rows) /\
    (forall name, In name (map sb_item_name rows) <->
                  exists r, In r records /\ item_name r = name) /\
    (forall row, In row rows ->
       sb_net_change row = sb_closing_stock row - sb_opening_stock row /\
       movement_type row = trendOf (sb_net_change row) /\
       forall r0 rl, earliestOf r0 records -> latestOf rl records ->
                     item_name r0 = sb_item_name row ->
                     item_name rl = sb_item_name row ->
                     sb_opening_stock row = opening_stock r0 /\
                     sb_closing_stock row = closing_stock rl) /\
    StronglySorted (fun a b => Z.abs (sb_net_change b) <= Z.abs (sb_net_change a)) rows.
Proof.
  destruct (stockBalance_total records) as [rows Hrows].
  exists rows. split; [exact Hrows|].
  unfold generateStockBalanceReport in Hrows.
  destruct (mapM stockBalanceRow (productGroups records)) as [rows0|] eqn:Hm;
    [|discriminate].
  simpl in Hrows. injection Hrows as <-.
  destruct (rows_one_per_product _ sb_item_name _ _ stockBalanceRow_name Hm)
    as [Hnd Hnames].
  split; [apply NoDup_map_sort; exact Hnd|].
  split.
  { intros name. rewrite <- Hnames. split; apply Permutation_in, Permutation_map.
    - apply Permutation_sym, sort_perm.
    - apply sort_perm. }
  split.
  - intros row Hin. apply sort_In in Hin.
    destruct (row_of_group _ _ _ _ Hm Hin) as [k [Hne Hrow]].
    unfold stockBalanceRow in Hrow.
    destruct (first (sort byDateAsc (recordsOf k records))) as [f0|] eqn:Hf;
      [|discriminate].
    destruct (JS.last (sort byDateAsc (recordsOf k records))) as [l0|] eqn:Hl;
      [|discriminate].
    simpl in Hrow. injection Hrow as <-. simpl.
    split; [reflexivity|]. split; [reflexivity|].
    intros r0 rl He Hlatest Hn0 Hnl.
    pose proof (earliest_is_first _ _ He) as H0. rewrite Hn0, Hf in H0.
    pose proof (latest_is_last _ _ Hlatest) as H1. rewrite Hnl, Hl in H1.
    injection H0 as ->. injection H1 as ->. split; reflexivity.
  - apply (ordered_StronglySorted
             (fun a b => Z.abs (sb_net_change b) - Z.abs (sb_net_change a))).
    + intros a b. lia.
    + apply sort_ordered; intros; lia.
Qed.

Lemma balances_one_row_per_product_witness :
  exists rows,
    generateStockBalanceReport [sampleDay2; sampleMixed; sampleDay1] = Some rows /\
    forall row, In row rows -> sb_item_name row = "A"%string ->
                sb_opening_stock row = 10 /\ sb_closing_stock row = 0.
Proof.
  destruct (balances_one_row_per_product [sampleDay2; sampleMixed; sampleDay1])
    as (rows & Hrows & _ & _ & Hrow & _).
  exists rows. split; [exact Hrows|].
  intros row Hin Hname. destruct (Hrow row Hin) as (_ & _ & Hends).
  apply (Hends sampleDay1 sampleDay2).
  - split; [right; right; left; reflexivity|].
    intros r' [<-|[<-|[<-|[]]]] Hn; try discriminate;
      [left; reflexivity|right; reflexivity].
  - split; [left; reflexivity|].
    intros r' [<-|[<-|[<-|[]]]] Hn; try discriminate;
      [right; reflexivity|left; reflexivity].
  - symmetry. exact Hname.
  - symmetry. exact Hname.
Defined.

Lemma row_for_product {B : Type} (f : string * list InventoryRecord -> option B)
  (records : list InventoryRecord) (rows : list B) (k : string) :
  mapM f (productGroups records) = Some rows ->
  recordsOf k records <> [] ->
  exists row, In row rows /\ f (k, recordsOf k records) = Some row.
Proof.
  intros Hm Hne.
  destruct (mapM_defined _ _ _ (k, recordsOf k records) Hm) as [y [Hy Hin]].
  - apply productGroups_In. split; [reflexivity|exact Hne].
  - exists y. split; assumption.
Qed.

Lemma positive_sum_nonempty (f : InventoryRecord -> Z) (g : list InventoryRecord) :
  0 < reduce_sum f g -> g <> [].
Proof. intros H E. rewrite E in H. unfold reduce_sum in H. simpl in H. lia. Qed.

(** ** Production usage *)

Lemma productionRow_fields (k : string) (g : list InventoryRecord) (y : ProductionRow) :
  productionRow (k, g) = Some y ->
  pr_item_name y = k /\ total_issued y = reduce_sum issued_production g /\
  exists h, first (sort byDateDesc g) = Some h /\
            last_issued_date y = date h /\ stock_level y = closing_stock h.
Proof.
  unfold productionRow.
  destruct (first (sort byDateDesc g)) as [h|]; [|discriminate].
  simpl. intros H. injection H as <-. simpl.
  split; [reflexivity|]. split; [reflexivity|]. exists h. repeat split.
Qed.

(** X4. A product has a row in the production view exactly when the
    [issued_production] of its records adds up to more than zero, and it
    has at most one row.  The row carries the date and the closing stock of
    the latest record of the product, the rows are in descending order of
    [total_issued], and for non-negative quantities their [total_issued]
    add up to the quantity issued over all records. *)
Theorem production_rows (records : list InventoryRecord) :
  exists rows,
    generateProductionReport records = Some rows /\
    NoDup (map pr_item_name rows) /\
    (forall name, In name (map pr_item_name rows) <->
                  0 < reduce_sum issued_production (recordsOf name records)) /\
    (forall row rl, In row rows -> latestOf rl records ->
                    item_name rl = pr_item_name row ->
                    last_issued_date row = date rl /\
                    stock_level row = closing_stock rl) /\
    StronglySorted (fun a b => total_issued b <= total_issued a) rows /\
    (Forall nonneg_record records ->
     reduce_sum total_issued rows = reduce_sum issued_production records).
Proof.
  destruct (production_total records) as [rows Hrows].
  exists rows. split; [exact Hrows|].
  unfold generateProductionReport in Hrows.
  destruct (mapM productionRow (productGroups records)) as [rows0|] eqn:Hm;
    [|discriminate].
  simpl in Hrows. injection Hrows as <-.
  assert (Hname : forall e y, productionRow e = Some y -> pr_item_name y = fst e).
  { intros [k g] y Hy. apply productionRow_fields in Hy. apply Hy. }
  destruct (rows_one_per_product _ pr_item_name _ _ Hname Hm) as [Hnd _].
  split; [apply NoDup_map_sort, NoDup_map_filter; exact Hnd|].
  assert (Hrow : forall row, In row rows0 ->
            total_issued row =
            reduce_sum issued_production (recordsOf (pr_item_name row) records)).
  { intros row Hin. destruct (row_of_group _ _ _ _ Hm Hin) as [k [_ Hk]].
    apply productionRow_fields in Hk. destruct Hk as (-> & -> & _). reflexivity. }
  split; [|split; [|split]].
  - intros name. rewrite in_map_iff. split.
    + intros [row [<- Hin]]. apply sort_In, filter_In in Hin.
      destruct Hin as [Hin Hpos]. apply Z.ltb_lt in Hpos.
      rewrite <- (Hrow row Hin). exact Hpos.
    + intros Hpos.
      destruct (row_for_product _ _ _ name Hm (positive_sum_nonempty _ _ Hpos))
        as [row [Hin Hf]].
      apply productionRow_fields in Hf. destruct Hf as (Hn & Ht & _).
      exists row. split; [exact Hn|]. apply sort_In, filter_In.
      split; [exact Hin|]. apply Z.ltb_lt. rewrite Ht. exact Hpos.
  - intros row rl Hin Hlatest Hn. apply sort_In, filter_In in Hin.
    destruct Hin as [Hin _].
    destruct (row_of_group _ _ _ _ Hm Hin) as [k [_ Hk]].
    apply productionRow_fields in Hk. destruct Hk as (Hk & _ & h & Hh & -> & ->).
    pose proof (latest_is_first _ _ Hlatest) as Hfirst.
    rewrite Hn, Hk, Hh in Hfirst. injection Hfirst as ->. split; reflexivity.
  - apply (ordered_StronglySorted (fun a b => total_issued b - total_issued a)).
    + intros a b. lia.
    + apply sort_ordered; intros; lia.
  - intros Hnn. rewrite sort_sum.
    rewrite reduce_sum_filter_pos.
    + rewrite <- (groupBy_sum String.eqb item_name issued_production records).
      apply (mapM_sum productionRow); [|exact Hm].
      intros [k g] y _ Hy. apply productionRow_fields in Hy. apply Hy.
    + intros row Hin. rewrite (Hrow row Hin).
      apply (nonneg_sum issued_production _ records);
        [unfold nonneg_record; tauto|exact Hnn|apply recordsOf_incl].
Qed.

Lemma production_rows_witness :
  exists rows,
    generateProductionReport [sampleDay2; sampleMixed; sampleDay1] = Some rows /\
    In "A"%string (map pr_item_name rows) /\
    reduce_sum total_issued rows = 45.
Proof.
  destruct (production_rows [sampleDay2; sampleMixed; sampleDay1])
    as (rows & Hrows & _ & Hiff & _ & _ & Hsum).
  exists rows. split; [exact Hrows|]. split.
  - apply Hiff. reflexivity.
  - rewrite Hsum; [reflexivity|].
    repeat constructor; unfold nonneg_record; simpl; lia.
Defined.

(** ** Returns and rebagging *)

Lemma returnsRebaggingRow_fields (k : string) (g : list InventoryRecord)
  (y : ReturnsRebaggingRow) :
  returnsRebaggingRow (k, g) = Some y ->
  rr_item_name y = k /\ rr_total_returns y = reduce_sum returns g /\
  rr_total_rebagging y = reduce_sum rebagging g /\
  exists h, first (sort byDateDesc g) = Some h /\ last_activity y = date h.
Proof.
  unfold returnsRebaggingRow.
  destruct (first (sort byDateDesc g)) as [h|]; [|discriminate].
  simpl. intros H. injection H as <-. simpl.
  repeat split. exists h. split; reflexivity.
Qed.

(** X5. A product has a row in the returns/rebagging view exactly when its
    records add up to a positive quantity of returns or of rebagging, and
    it has at most one row.  The row carries the two totals and the date of
    the latest record of the product, and the rows are in descending order
    of [total_returns + total_rebagging]. *)
Theorem returns_rebagging_rows (records : list InventoryRecord) :
  exists rows,
    generateReturnsRebaggingReport records = Some rows /\
    NoDup (map rr_item_name rows) /\
    (forall name, In name (map rr_item_name rows) <->
                  0 < reduce_sum returns (recordsOf name records) \/
                  0 < reduce_sum rebagging (recordsOf name records)) /\
    (forall row, In row rows ->
       rr_total_returns row = reduce_sum returns (recordsOf (rr_item_name row) records) /\
       rr_total_rebagging row =
         reduce_sum rebagging (recordsOf (rr_item_name row) records) /\
       forall rl, latestOf rl records -> item_name rl = rr_item_name row ->
                  last_activity row = date rl) /\
    StronglySorted (fun a b => rr_total_returns b + rr_total_rebagging b
                               <= rr_total_returns a + rr_total_rebagging a) rows.
Proof.
  destruct (returnsRebagging_total records) as [rows Hrows].
  exists rows. split; [exact Hrows|].
  unfold generateReturnsRebaggingReport in Hrows.
  destruct (mapM returnsRebaggingRow (productGroups records)) as [rows0|] eqn:Hm;
    [|discriminate].
  simpl in Hrows. injection Hrows as <-.
  assert (Hname : forall e y, returnsRebaggingRow e = Some y -> rr_item_name y = fst e).
  { intros [k g] y Hy. apply returnsRebaggingRow_fields in Hy. apply Hy. }
  destruct (rows_one_per_product _ rr_item_name _ _ Hname Hm) as [Hnd _].
  split; [apply NoDup_map_sort, NoDup_map_filter; exact Hnd|].
  assert (Hrow : forall row, In row rows0 ->
            rr_total_returns row =
              reduce_sum returns (recordsOf (rr_item_name row) records) /\
            rr_total_rebagging row =
              reduce_sum rebagging (recordsOf (rr_item_name row) records) /\
            forall rl, latestOf rl records -> item_name rl = rr_item_name row ->
                       last_activity row = date rl).
  { intros row Hin. destruct (row_of_group _ _ _ _ Hm Hin) as [k [_ Hk]].
    apply returnsRebaggingRow_fields in Hk.
    destruct Hk as (-> & -> & -> & h & Hh & ->).
    split; [reflexivity|]. split; [reflexivity|].
    intros rl Hlatest Hn. pose proof (latest_is_first _ _ Hlatest) as Hfirst.
    rewrite Hn, Hh in Hfirst. injection Hfirst as ->. reflexivity. }
  split; [|split].
  - intros name. rewrite in_map_iff. split.
    + intros [row [<- Hin]]. apply sort_In, filter_In in Hin.
      destruct Hin as [Hin Hpos]. destruct (Hrow row Hin) as (<- & <- & _).
      apply orb_true_iff in Hpos. rewrite !Z.ltb_lt in Hpos. exact Hpos.
    + intros Hpos.
      assert (Hne : recordsOf name records <> []).
      { destruct Hpos as [H|H]; apply (positive_sum_nonempty _ _ H). }
      destruct (row_for_product _ _ _ name Hm Hne) as [row [Hin Hf]].
      apply returnsRebaggingRow_fields in Hf. destruct Hf as (Hn & Ht & Hb & _).
      exists row. split; [exact Hn|]. apply sort_In, filter_In.
      split; [exact Hin|]. apply orb_true_iff. rewrite !Z.ltb_lt, Ht, Hb. exact Hpos.
  - intros row Hin. apply sort_In, filter_In in Hin. apply Hrow, Hin.
  - apply (ordered_StronglySorted
             (fun a b => (rr_total_returns b + rr_total_rebagging b)
                         - (rr_total_returns a + rr_total_rebagging a))).
    + intros a b. lia.
    + apply sort_ordered; intros; lia.
Qed.

Lemma returns_rebagging_rows_witness :
  exists rows,
    generateReturnsRebaggingReport [sampleDay2; sampleMixed; sampleDay1] = Some rows /\
    In "B"%string (map rr_item_name rows) /\ ~ In "A"%string (map rr_item_name rows).
Proof.
  destruct (returns_rebagging_rows [sampleDay2; sampleMixed; sampleDay1])
    as (rows & Hrows & _ & Hiff & _).
  exists rows. split; [exact Hrows|]. split.
  - apply Hiff. left. reflexivity.
  - intros H. apply Hiff in H. destruct H as [H|H]; vm_compute in H; discriminate.
Defined.

(** ** Damaged stock *)

Lemma percentage_Fin (n d : Z) : exists q, percentage n d = Fin q.
Proof.
  destruct (Z.ltb_spec 0 d) as [E|E].
  - destruct (percentage_positive n d E) as (q & Hq & _). exists q. exact Hq.
  - unfold percentage. destruct (Z.ltb_spec 0 d) as [|_]; [lia|].
    eexists. reflexivity.
Qed.

Lemma damagedStockRow_fields (k : string) (g : list InventoryRecord)
  (y : DamagedStockRow) :
  damagedStockRow (k, g) = Some y ->
  ds_item_name y = k /\ ds_total_damaged y = reduce_sum damaged g /\
  ds_total_stock_in y = reduce_sum new_stock g /\
  damage_percentage y = percentage (reduce_sum damaged g) (reduce_sum new_stock g) /\
  exists h, first (sort byDateDesc g) = Some h /\ last_damage_date y = date h.
Proof.
  unfold damagedStockRow.
  destruct (first (sort byDateDesc g)) as [h|]; [|discriminate].
  simpl. intros H. injection H as <-. simpl.
  repeat split. exists h. split; reflexivity.
Qed.

(** X6. A product has a row in the damaged-stock view exactly when the
    [damaged] of its records adds up to more than zero, and it has at most
    one row.  The row carries the damaged total and the [new_stock] total
    of the product, its percentage is a finite number, and the rows are in
    descending order of [damage_percentage]. *)
Theorem damaged_rows (records : list InventoryRecord) :
  exists rows,
    generateDamagedStockReport records = Some rows /\
    NoDup (map ds_item_name rows) /\
    (forall name, In name (map ds_item_name rows) <->
                  0 < reduce_sum damaged (recordsOf name records)) /\
    (forall row, In row rows ->
       ds_total_damaged row = reduce_sum damaged (recordsOf (ds_item_name row) records) /\
       ds_total_stock_in row =
         reduce_sum new_stock (recordsOf (ds_item_name row) records) /\
       isFinite (damage_percentage row) = true) /\
    StronglySorted (fun a b => (valueOf (damage_percentage b)
                                <= valueOf (damage_percentage a))%Q) rows.
Proof.
  destruct (damagedStock_total records) as [rows Hrows].
  exists rows. split; [exact Hrows|].
  unfold generateDamagedStockReport in Hrows.
  destruct (mapM damagedStockRow (productGroups records)) as [rows0|] eqn:Hm;
    [|discriminate].
  simpl in Hrows. injection Hrows as <-.
  assert (Hname : forall e y, damagedStockRow e = Some y -> ds_item_name y = fst e).
  { intros [k g] y Hy. apply damagedStockRow_fields in Hy. apply Hy. }
  destruct (rows_one_per_product _ ds_item_name _ _ Hname Hm) as [Hnd _].
  split; [apply NoDup_map_sort, NoDup_map_filter; exact Hnd|].
  assert (Hrow : forall row, In row rows0 ->
            ds_total_damaged row =
              reduce_sum damaged (recordsOf (ds_item_name row) records) /\
            ds_total_stock_in row =
              reduce_sum new_stock (recordsOf (ds_item_name row) records) /\
            isFinite (damage_percentage row) = true).
  { intros row Hin. destruct (row_of_group _ _ _ _ Hm Hin) as [k [_ Hk]].
    apply damagedStockRow_fields in Hk.
    destruct Hk as (-> & -> & -> & -> & _).
    split; [reflexivity|]. split; [reflexivity|].
    destruct (percentage_Fin (reduce_sum damaged (recordsOf k records))
                             (reduce_sum new_stock (recordsOf k records))) as [q ->].
    reflexivity. }
  split; [|split].
  - intros name. rewrite in_map_iff. split.
    + intros [row [<- Hin]]. apply sort_In, filter_In in Hin.
      destruct Hin as [Hin Hpos]. destruct (Hrow row Hin) as (<- & _).
      apply Z.ltb_lt. exact Hpos.
    + intros Hpos.
      destruct (row_for_product _ _ _ name Hm (positive_sum_nonempty _ _ Hpos))
        as [row [Hin Hf]].
      apply damagedStockRow_fields in Hf. destruct Hf as (Hn & Ht & _).
      exists row. split; [exact Hn|]. apply sort_In, filter_In.
      split; [exact Hin|]. apply Z.ltb_lt. rewrite Ht. exact Hpos.
  - intros row Hin. apply sort_In, filter_In in Hin. apply Hrow, Hin.
  - assert (Hfin : Forall (fun row => isFinite (damage_percentage row) = true)
                          (filter (fun item => 0 <? ds_total_damaged item) rows0)).
    { apply Forall_forall. intros row Hin. apply filter_In in Hin. apply Hrow, Hin. }
    apply (ordered_StronglySorted_on
             (fun a b => sign (sub (damage_percentage b) (damage_percentage a)))
             (fun row => isFinite (damage_percentage row) = true)).
    + intros a b Ha Hb.
      destruct (damage_percentage a) as [p| | |]; try discriminate.
      destruct (damage_percentage b) as [q| | |]; try discriminate.
      intros H. apply sign_sub_Fin. exact H.
    + apply Forall_forall. intros row Hin. apply sort_In in Hin.
      rewrite Forall_forall in Hfin. apply Hfin, Hin.
    + apply (sort_ordered_on _ (fun row => isFinite (damage_percentage row) = true)).
      * intros a b Ha Hb.
        destruct (damage_percentage a) as [p| | |]; try discriminate.
        destruct (damage_percentage b) as [q| | |]; try discriminate.
        intros H. apply sign_sub_Fin. apply Qlt_le_weak, Qnot_le_lt.
        intros Hle. apply sign_sub_Fin in Hle. lia.
      * intros a b c Ha Hb Hc.
        destruct (damage_percentage a) as [p| | |]; try discriminate.
        destruct (damage_percentage b) as [q| | |]; try discriminate.
        destruct (damage_percentage c) as [r| | |]; try discriminate.
        rewrite !sign_sub_Fin. intros H1 H2. apply Qle_trans with q; assumption.
      * exact Hfin.
Qed.

Lemma damaged_rows_witness :
  exists rows,
    generateDamagedStockReport [sampleDay2; sampleMixed; sampleDay1] = Some rows /\
    In "B"%string (map ds_item_name rows) /\ ~ In "A"%string (map ds_item_name rows).
Proof.
  destruct (damaged_rows [sampleDay2; sampleMixed; sampleDay1])
    as (rows & Hrows & _ & Hiff & _).
  exists rows. split; [exact Hrows|]. split.
  - apply Hiff. reflexivity.
  - intros H. apply Hiff in H. vm_compute in H. discriminate.
Defined.

(** ** Stock history *)

(** The first and the last record of a sorted bucket bound its dates. *)
Lemma bucket_range (g : list InventoryRecord) (r0 rl : InventoryRecord) :
  first (sort byDateAsc g) = Some r0 -> JS.last (sort byDateAsc g) = Some rl ->
  In r0 g /\ In rl g /\ forall x, In x g -> date r0 <= date x <= date rl.
Proof.
  intros H0 Hl.
  destruct (sort_first_least byDateAsc byDateAsc_total byDateAsc_trans _ _ H0)
    as [Hin0 Hleast].
  destruct (sort_last_greatest byDateAsc byDateAsc_total byDateAsc_trans _ _ Hl)
    as [Hinl Hgreatest].
  split; [exact Hin0|]. split; [exact Hinl|].
  intros x Hx. split.
  - destruct (Hleast x Hx) as [->|H]; [lia|].
    unfold byDateAsc, getTime, msPerDay in H. lia.
  - destruct (Hgreatest x Hx) as [->|H]; [lia|].
    unfold byDateAsc, getTime, msPerDay in H. lia.
Qed.

Lemma stockHistoryRow_fields (k : string) (g : list InventoryRecord)
  (y : StockHistoryRow) :
  stockHistoryRow (k, g) = Some y ->
  exists r0 rl,
    first (sort byDateAsc g) = Some r0 /\ JS.last (sort byDateAsc g) = Some rl /\
    sh_item_name y = k /\ total_records y = len g /\
    first_record y = date r0 /\ last_record y = date rl /\
    stock_trend y = trendOf (closing_stock rl - opening_stock r0).
Proof.
  unfold stockHistoryRow.
  destruct (first (sort byDateAsc g)) as [r0|]; [|discriminate].
  destruct (JS.last (sort byDateAsc g)) as [rl|]; [|discriminate].
  simpl. intros H. injection H as <-. simpl.
  exists r0, rl. rewrite len_sort. repeat split.
  unfold trendOf.
  destruct (opening_stock r0 <? closing_stock rl) eqn:E1;
    destruct (0 <? closing_stock rl - opening_stock r0) eqn:E2;
    try reflexivity;
    try (apply Z.ltb_lt in E1; apply Z.ltb_ge in E2; lia);
    try (apply Z.ltb_ge in E1; apply Z.ltb_lt in E2; lia).
  destruct (closing_stock rl <? opening_stock r0) eqn:E3;
    destruct (closing_stock rl - opening_stock r0 <? 0) eqn:E4;
    try reflexivity;
    try (apply Z.ltb_lt in E3; apply Z.ltb_ge in E4; lia);
    try (apply Z.ltb_ge in E3; apply Z.ltb_lt in E4; lia).
Qed.

(** X7. The stock-history view has exactly one row for each product that
    has a record.  [total_records] is the number of records of the
    product, [first_record] and [last_record] are the smallest and the
    largest date among them, and the counts add up to the number of
    records.  The rows are in descending order of [total_records]. *)
Theorem history_rows (records : list InventoryRecord) :
  exists rows,
    generateStockHistoryReport records = Some rows /\
    NoDup (map sh_item_name rows) /\
    (forall name, In name (map sh_item_name rows) <->
                  exists r, In r records /\ item_name r = name) /\
    (forall row, In row rows ->
       total_records row = len (recordsOf (sh_item_name row) records) /\
       (exists r0 rl, In r0 records /\ In rl records /\
                      item_name r0 = sh_item_name row /\
                      item_name rl = sh_item_name row /\
                      first_record row = date r0 /\ last_record row = date rl) /\
       forall r, In r records -> item_name r = sh_item_name row ->
                 first_record row <= date r <= last_record row) /\
    reduce_sum total_records rows = len records /\
    StronglySorted (fun a b => total_records b <= total_records a) rows.
Proof.
  destruct (stockHistory_total records) as [rows Hrows].
  exists rows. split; [exact Hrows|].
  unfold generateStockHistoryReport in Hrows.
  destruct (mapM stockHistoryRow (productGroups records)) as [rows0|] eqn:Hm;
    [|discriminate].
  simpl in Hrows. injection Hrows as <-.
  assert (Hname : forall e y, stockHistoryRow e = Some y -> sh_item_name y = fst e).
  { intros [k g] y Hy. apply stockHistoryRow_fields in Hy.
    destruct Hy as (r0 & rl & _ & _ & Hn & _). exact Hn. }
  destruct (rows_one_per_product _ sh_item_name _ _ Hname Hm) as [Hnd Hnames].
  split; [apply NoDup_map_sort; exact Hnd|].
  split.
  { intros name. rewrite <- Hnames. split; apply Permutation_in, Permutation_map.
    - apply Permutation_sym, sort_perm.
    - apply sort_perm. }
  split; [|split].
  - intros row Hin. apply sort_In in Hin.
    destruct (row_of_group _ _ _ _ Hm Hin) as [k [_ Hk]].
    apply stockHistoryRow_fields in Hk.
    destruct Hk as (r0 & rl & H0 & Hl & -> & -> & -> & -> & _).
    destruct (bucket_range _ _ _ H0 Hl) as (Hin0 & Hinl & Hrange).
    apply recordsOf_In in Hin0, Hinl.
    split; [reflexivity|]. split.
    + exists r0, rl. tauto.
    + intros r Hr Hn. apply Hrange. apply recordsOf_In. split; assumption.
  - rewrite sort_sum.
    rewrite (mapM_sum stockHistoryRow total_records
                      (fun e => reduce_sum (fun _ => 1) (snd e)) _ _) with (2 := Hm).
    + unfold productGroups.
      rewrite (groupBy_sum String.eqb item_name (fun _ => 1)).
      apply reduce_sum_const_one.
    + intros [k g] y _ Hy. apply stockHistoryRow_fields in Hy.
      destruct Hy as (r0 & rl & _ & _ & _ & -> & _). simpl.
      unfold len. symmetry. apply reduce_sum_const_one.
  - apply (ordered_StronglySorted (fun a b => total_records b - total_records a)).
    + intros a b. lia.
    + apply sort_ordered; intros; lia.
Qed.

Lemma history_rows_witness :
  exists rows,
    generateStockHistoryReport [sampleDay2; sampleMixed; sampleDay1] = Some rows /\
    reduce_sum total_records rows = 3 /\
    forall row, In row rows -> first_record row <= 19723 <= last_record row.
Proof.
  destruct (history_rows [sampleDay2; sampleMixed; sampleDay1])
    as (rows & Hrows & _ & _ & Hrow & Hsum & _).
  exists rows. split; [exact Hrows|]. split; [rewrite Hsum; reflexivity|].
  intros row Hin. destruct (Hrow row Hin) as (_ & _ & Hrange).
  assert (E : rows = [ {| sh_item_name := "A"; total_records := 2;
                          first_record := 19723; last_record := 19724;
                          stock_trend := "decreasing" |};
                       {| sh_item_name := "B"; total_records := 1;
                          first_record := 19723; last_record := 19723;
                          stock_trend := "increasing" |} ]).
  { vm_compute in Hrows. injection Hrows as <-. reflexivity. }
  rewrite E in Hin. destruct Hin as [<-|[<-|[]]].
  - apply (Hrange sampleDay1); [right; right; left; reflexivity|reflexivity].
  - apply (Hrange sampleMixed); [right; left; reflexivity|reflexivity].
Defined.

Lemma stockBalanceRow_fields (k : string) (g : list InventoryRecord)
  (y : StockBalanceRow) :
  stockBalanceRow (k, g) = Some y ->
  exists r0 rl,
    first (sort byDateAsc g) = Some r0 /\ JS.last (sort byDateAsc g) = Some rl /\
    sb_item_name y = k /\
    movement_type y = trendOf (closing_stock rl - opening_stock r0).
Proof.
  unfold stockBalanceRow.
  destruct (first (sort byDateAsc g)) as [r0|]; [|discriminate].
  destruct (JS.last (sort byDateAsc g)) as [rl|]; [|discriminate].
  simpl. intros H. injection H as <-. simpl.
  exists r0, rl. repeat split.
Qed.

(** X8. The balance view and the history view agree on the direction of
    every product: the [stock_trend] of the history row of a product is
    the [movement_type] of its balance row. *)
Theorem trend_agrees_with_balance (records : list InventoryRecord) :
  exists balances histories,
    generateStockBalanceReport records = Some balances /\
    generateStockHistoryReport records = Some histories /\
    forall b h, In b balances -> In h histories ->
                sb_item_name b = sh_item_name h ->
                stock_trend h = movement_type b.
Proof.
  destruct (stockBalance_total records) as [balances Hb].
  destruct (stockHistory_total records) as [histories Hh].
  exists balances, histories. split; [exact Hb|]. split; [exact Hh|].
  unfold generateStockBalanceReport in Hb.
  destruct (mapM stockBalanceRow (productGroups records)) as [rows1|] eqn:Hm1;
    [|discriminate].
  simpl in Hb. injection Hb as <-.
  unfold generateStockHistoryReport in Hh.
  destruct (mapM stockHistoryRow (productGroups records)) as [rows2|] eqn:Hm2;
    [|discriminate].
  simpl in Hh. injection Hh as <-.
  intros b h Hinb Hinh Hname. apply sort_In in Hinb, Hinh.
  destruct (row_of_group _ _ _ _ Hm1 Hinb) as [k1 [_ Hk1]].
  destruct (row_of_group _ _ _ _ Hm2 Hinh) as [k2 [_ Hk2]].
  apply stockBalanceRow_fields in Hk1.
  destruct Hk1 as (r0 & rl & H0 & Hl & Hn1 & ->).
  apply stockHistoryRow_fields in Hk2.
  destruct Hk2 as (r0' & rl' & H0' & Hl' & Hn2 & _ & _ & _ & ->).
  assert (E : k2 = k1) by congruence.
  rewrite E, H0 in H0'. rewrite E, Hl in Hl'.
  injection H0' as <-. injection Hl' as <-. reflexivity.
Qed.

Lemma trend_agrees_with_balance_witness :
  exists balances histories,
    generateStockBalanceReport [sampleDay2; sampleMixed; sampleDay1] = Some balances /\
    generateStockHistoryReport [sampleDay2; sampleMixed; sampleDay1] = Some histories /\
    stock_trend {| sh_item_name := "A"; total_records := 2; first_record := 19723;
                   last_record := 19724; stock_trend := "decreasing" |} =
    movement_type {| sb_item_name := "A"; sb_opening_stock := 10; sb_closing_stock := 0;
                     sb_net_change := -10; movement_type := "decreasing" |}.
Proof.
  destruct (trend_agrees_with_balance [sampleDay2; sampleMixed; sampleDay1])
    as (balances & histories & Hb & Hh & Hagree).
  exists balances, histories. split; [exact Hb|]. split; [exact Hh|].
  apply Hagree.
  - vm_compute in Hb. injection Hb as <-. right. left. reflexivity.
  - vm_compute in Hh. injection Hh as <-. left. reflexivity.
  - reflexivity.
Defined.

(** ** The weekly report *)

(** The fields of the weekly report of a non-empty list, which is sorted
    by date before anything is computed. *)
Lemma weekly_fields (zone : TimeZone) (records : list InventoryRecord)
  (w : WeeklyReport) :
  records <> [] ->
  generateWeeklyReport zone records = Some w ->
  exists r0 rl rows,
    first (sort byDateAsc records) = Some r0 /\
    JS.last (sort byDateAsc records) = Some rl /\
    mapM productMovementRow (productGroups (sort byDateAsc records)) = Some rows /\
    week_start w = Some (date r0) /\ week_end w = Some (date rl) /\
    total_movements w = len records /\
    total_products w = len (product_movements w) /\
    summary w = weeklySummary (sort byDateAsc records) /\
    efficiency_metrics w = efficiencyMetrics (weeklySummary (sort byDateAsc records)) /\
    product_movements w =
      sort (fun a b => rowActivity b - rowActivity a)
           (filter (fun product => 0 <? rowActivity product) rows) /\
    daily_summary w =
      sort (fun a b => getTime (dy_date a) - getTime (dy_date b))
           (map (dailySummaryRow zone) (dateGroups (sort byDateAsc records))).
Proof.
  intros Hne H. unfold generateWeeklyReport in H.
  destruct (len records =? 0) eqn:E.
  { apply Z.eqb_eq in E. apply len_pos in Hne. lia. }
  destruct (first_byDateAsc records Hne) as [r0 H0].
  destruct (last_byDateAsc records Hne) as [rl Hl].
  rewrite H0, Hl in H. simpl in H.
  destruct (productMovements_total (sort byDateAsc records)) as [rows Hrows].
  rewrite Hrows in H. simpl in H. injection H as <-.
  exists r0, rl, rows. simpl. rewrite len_sort.
  split; [exact H0|]. split; [exact Hl|]. split; [exact Hrows|]. repeat split.
Qed.

(** X9. For a non-empty list of records, [week_start] and [week_end] of the
    weekly report are the smallest and the largest date among the records,
    [total_movements] is the number of records and [total_products] the
    number of rows of [product_movements]. *)
Theorem weekly_bounds (zone : TimeZone) (records : list InventoryRecord) :
  records <> [] ->
  exists w r0 rl,
    generateWeeklyReport zone records = Some w /\
    In r0 records /\ In rl records /\
    week_start w = Some (date r0) /\ week_end w = Some (date rl) /\
    (forall r, In r records -> date r0 <= date r <= date rl) /\
    total_movements w = len records /\
    total_products w = len (product_movements w).
Proof.
  intros Hne. destruct (weekly_total zone records) as [w Hw].
  destruct (weekly_fields zone _ _ Hne Hw)
    as (r0 & rl & rows & H0 & Hl & _ & Hs & He & Hm & Hp & _).
  destruct (bucket_range _ _ _ H0 Hl) as (Hin0 & Hinl & Hrange).
  exists w, r0, rl. repeat split; try assumption; apply Hrange; assumption.
Qed.

Lemma weekly_bounds_witness :
  exists w,
    generateWeeklyReport utc [sampleDay2; sampleMixed; sampleDay1] = Some w /\
    week_start w = Some 19723 /\ week_end w = Some 19724 /\ total_movements w = 3.
Proof.
  destruct (weekly_bounds utc [sampleDay2; sampleMixed; sampleDay1])
    as (w & r0 & rl & Hw & _ & _ & _ & _ & _ & Hm & _).
  - discriminate.
  - exists w. split; [exact Hw|].
    pose proof Hw as Hc. vm_compute in Hc. injection Hc as <-.
    split; [reflexivity|]. split; reflexivity.
Defined.

(** The earliest and the latest record of a product stay first and last in
    any bucket that holds the records of the product. *)
Lemma earliest_first_of (r : InventoryRecord) (records g : list InventoryRecord) :
  earliestOf r records ->
  (forall x, In x g <-> In x records /\ item_name x = item_name r) ->
  first (sort byDateAsc g) = Some r.
Proof.
  intros [Hin Hearliest] Hg.
  assert (Hr : In r g) by (apply Hg; split; [exact Hin|reflexivity]).
  destruct (first_byDateAsc g) as [h Hh].
  { intros E. rewrite E in Hr. destruct Hr. }
  rewrite Hh. f_equal.
  destruct (sort_first_least byDateAsc byDateAsc_total byDateAsc_trans _ _ Hh)
    as [Hhin Hleast].
  apply Hg in Hhin. destruct Hhin as [Hhin Hname].
  destruct (Hearliest h Hhin Hname) as [Hlt|Heq]; [|exact Heq].
  destruct (Hleast r Hr) as [Heq|Hle]; [symmetry; exact Heq|].
  unfold byDateAsc, getTime, msPerDay in Hle. lia.
Qed.

Lemma latest_last_of (r : InventoryRecord) (records g : list InventoryRecord) :
  latestOf r records ->
  (forall x, In x g <-> In x records /\ item_name x = item_name r) ->
  JS.last (sort byDateAsc g) = Some r.
Proof.
  intros [Hin Hlatest] Hg.
  assert (Hr : In r g) by (apply Hg; split; [exact Hin|reflexivity]).
  destruct (last_byDateAsc g) as [h Hh].
  { intros E. rewrite E in Hr. destruct Hr. }
  rewrite Hh. f_equal.
  destruct (sort_last_greatest byDateAsc byDateAsc_total byDateAsc_trans _ _ Hh)
    as [Hhin Hgreatest].
  apply Hg in Hhin. destruct Hhin as [Hhin Hname].
  destruct (Hlatest h Hhin Hname) as [Hlt|Heq]; [|exact Heq].
  destruct (Hgreatest r Hr) as [Heq|Hle]; [symmetry; exact Heq|].
  unfold byDateAsc, getTime, msPerDay in Hle. lia.
Qed.

Lemma recordsOf_sorted_In (k : string) (records : list InventoryRecord) :
  forall x, In x (recordsOf k (sort byDateAsc records)) <->
            In x records /\ item_name x = k.
Proof. intros x. rewrite recordsOf_In, sort_In. reflexivity. Qed.

Lemma len_perm {A : Type} (l1 l2 : list A) : Permutation l1 l2 -> len l1 = len l2.
Proof. intros H. unfold len. rewrite (Permutation_length H). reflexivity. Qed.

Lemma productMovementRow_fields (k : string) (g : list InventoryRecord)
  (y : ProductMovement) :
  productMovementRow (k, g) = Some y ->
  exists r0 rl,
    first (sort byDateAsc g) = Some r0 /\ JS.last (sort byDateAsc g) = Some rl /\
    pm_item_name y = k /\
    pm_opening_stock y = opening_stock r0 /\ pm_closing_stock y = closing_stock rl /\
    pm_total_stock_in y = reduce_sum new_stock g /\
    pm_total_stock_out y = reduce_sum issued_production g /\
    pm_total_returns y = reduce_sum returns g /\
    pm_total_rebagging y = reduce_sum rebagging g /\
    pm_total_damaged y = reduce_sum damaged g /\
    pm_net_change y = pm_total_stock_in y - pm_total_stock_out y /\
    days_active y = set_size Z.eqb (map date (sort byDateAsc g)).
Proof.
  unfold productMovementRow.
  destruct (first (sort byDateAsc g)) as [r0|]; [|discriminate].
  destruct (JS.last (sort byDateAsc g)) as [rl|]; [|discriminate].
  simpl. intros H. injection H as <-. simpl.
  exists r0, rl. rewrite !sort_sum. repeat split.
Qed.

(** X10. In the weekly report every product has at most one row in
    [product_movements], and the rows are in descending order of total
    activity.  The five totals of a row are the sums over the records of
    its product, [net_change] is [total_stock_in - total_stock_out],
    [days_active] lies between 1 and the number of records of the product,
    and the row carries the opening stock of the earliest and the closing
    stock of the latest record of the product.  For non-negative
    quantities the activity of the rows adds up to the activity of all
    records. *)
Theorem weekly_product_rows (zone : TimeZone) (records : list InventoryRecord) :
  exists w,
    generateWeeklyReport zone records = Some w /\
    NoDup (map pm_item_name (product_movements w)) /\
    StronglySorted (fun a b => rowActivity b <= rowActivity a) (product_movements w) /\
    (forall row, In row (product_movements w) ->
       let g := recordsOf (pm_item_name row) records in
       pm_total_stock_in row = reduce_sum new_stock g /\
       pm_total_stock_out row = reduce_sum issued_production g /\
       pm_total_returns row = reduce_sum returns g /\
       pm_total_rebagging row = reduce_sum rebagging g /\
       pm_total_damaged row = reduce_sum damaged g /\
       pm_net_change row = pm_total_stock_in row - pm_total_stock_out row /\
       1 <= days_active row <= len g /\
       forall r0 rl, earliestOf r0 records -> latestOf rl records ->
                     item_name r0 = pm_item_name row ->
                     item_name rl = pm_item_name row ->
                     pm_opening_stock row = opening_stock r0 /\
                     pm_closing_stock row = closing_stock rl) /\
    (Forall nonneg_record records ->
     reduce_sum rowActivity (product_movements w) = reduce_sum movement records).
Proof.
  destruct (weekly_total zone records) as [w Hw]. exists w. split; [exact Hw|].
  destruct records as [|x l].
  { apply weekly_empty in Hw. subst w. simpl.
    split; [constructor|]. split; [constructor|]. split; [intros row []|].
    intros _. reflexivity. }
  destruct (weekly_fields zone (x :: l) w) as
      (r0 & rl & rows & _ & _ & Hm & _ & _ & _ & _ & _ & _ & Hpm & _);
    [discriminate|exact Hw|].
  set (records := x :: l) in *. rewrite Hpm.
  assert (Hname : forall e y, productMovementRow e = Some y -> pm_item_name y = fst e).
  { intros [k g] y Hy. apply productMovementRow_fields in Hy.
    destruct Hy as (a & b & _ & _ & Hn & _). exact Hn. }
  destruct (rows_one_per_product _ pm_item_name _ _ Hname Hm) as [Hnd _].
  split; [apply NoDup_map_sort, NoDup_map_filter; exact Hnd|].
  split.
  { apply (ordered_StronglySorted (fun a b => rowActivity b - rowActivity a)).
    - intros a b. lia.
    - apply sort_ordered; intros; lia. }
  split.
  - intros row Hin. apply sort_In, filter_In in Hin. destruct Hin as [Hin _].
    destruct (row_of_group _ _ _ _ Hm Hin) as [k [Hne Hk]].
    apply productMovementRow_fields in Hk.
    destruct Hk as (a & b & Ha & Hb & -> & Ho & Hc & -> & -> & -> & -> & -> & Hnet & Hd).
    cbv zeta. rewrite !recordsOf_sort_sum in *.
    repeat (split; [reflexivity|]). split; [exact Hnet|]. split.
    + rewrite Hd, (len_perm _ _ (recordsOf_sort byDateAsc k records)).
      rewrite <- (len_sort byDateAsc (recordsOf k (sort byDateAsc records))).
      unfold len. rewrite <- (length_map date).
      apply (set_size_bounds Z.eqb Z.eqb_eq).
      intros E. apply map_eq_nil in E.
      apply Hne. apply (f_equal (@List.length _)) in E.
      rewrite sort_length in E.
      destruct (recordsOf k (sort byDateAsc records)); [reflexivity|discriminate].
    + intros e0 e1 He0 He1 Hn0 Hn1.
      rewrite Ho, Hc.
      pose proof (earliest_first_of e0 records
                    (recordsOf k (sort byDateAsc records)) He0) as H0.
      rewrite Hn0 in H0. rewrite (H0 (recordsOf_sorted_In k records)) in Ha.
      pose proof (latest_last_of e1 records
                    (recordsOf k (sort byDateAsc records)) He1) as H1.
      rewrite Hn1 in H1. rewrite (H1 (recordsOf_sorted_In k records)) in Hb.
      injection Ha as <-. injection Hb as <-. split; reflexivity.
  - intros Hnn. rewrite sort_sum.
    assert (Hact : forall a b, In a (productGroups (sort byDateAsc records)) ->
                     productMovementRow a = Some b ->
                     rowActivity b = reduce_sum movement (snd a)).
    { intros [k g] b _ Hb. apply productMovementRow_activity in Hb. apply Hb. }
    rewrite reduce_sum_filter_pos.
    + rewrite (mapM_sum productMovementRow rowActivity
                        (fun e => reduce_sum movement (snd e)) _ _ Hact Hm).
      unfold productGroups.
      rewrite (groupBy_sum String.eqb item_name movement), sort_sum. reflexivity.
    + intros row Hin. destruct (row_of_group _ _ _ _ Hm Hin) as [k [_ Hk]].
      apply productMovementRow_activity in Hk. destruct Hk as (_ & -> & _).
      apply (nonneg_sum movement _ records); [|exact Hnn|].
      * unfold nonneg_record, movement. intros r Hr. lia.
      * intros r Hr. apply recordsOf_sorted_In in Hr. apply Hr.
Qed.

Lemma weekly_product_rows_witness :
  exists w,
    generateWeeklyReport utc [sampleDay2; sampleMixed; sampleDay1] = Some w /\
    reduce_sum rowActivity (product_movements w) = 106.
Proof.
  destruct (weekly_product_rows utc [sampleDay2; sampleMixed; sampleDay1])
    as (w & Hw & _ & _ & _ & Hsum).
  exists w. split; [exact Hw|]. rewrite Hsum; [reflexivity|].
  repeat constructor; unfold nonneg_record; simpl; lia.
Defined.

Lemma recordsOn_sorted_In (d : Z) (records : list InventoryRecord) :
  forall x, In x (recordsOn d (sort byDateAsc records)) <-> In x records /\ date x = d.
Proof. intros x. rewrite recordsOn_In, sort_In. reflexivity. Qed.

Lemma recordsOn_sort_perm (d : Z) (records : list InventoryRecord) :
  Permutation (recordsOn d records) (recordsOn d (sort byDateAsc records)).
Proof. apply sort_filter_perm. Qed.

Lemma daily_dates (zone : TimeZone) (records : list InventoryRecord) :
  map dy_date (map (dailySummaryRow zone) (dateGroups records))
  = map fst (dateGroups records).
Proof.
  rewrite map_map. apply map_ext. intros [d g]. reflexivity.
Qed.

Lemma daily_row_of_bucket (zone : TimeZone) (records : list InventoryRecord)
  (row : DailySummary) :
  In row (map (dailySummaryRow zone) (dateGroups (sort byDateAsc records))) ->
  recordsOn (dy_date row) (sort byDateAsc records) <> [] /\
  row = dailySummaryRow zone (dy_date row,
                             recordsOn (dy_date row) (sort byDateAsc records)).
Proof.
  intros H. apply in_map_iff in H. destruct H as [[d g] [<- Hin]].
  apply dateGroups_In in Hin. destruct Hin as [-> Hne]. simpl.
  split; [exact Hne|reflexivity].
Qed.

(** X11. The daily summary of the weekly report has exactly one row for
    each date that occurs among the records, in strictly ascending order
    of date.  The totals of a row are the sums over the records of its
    date, [net_change] is [total_stock_in - total_stock_out], and
    [products_active] lies between 1 and [total_transactions].  Over all
    rows, [net_change] adds up to the [net_change] of the weekly summary,
    [total_stock_in] to its [total_stock_in], and [total_transactions] to
    [total_movements]. *)
Theorem weekly_daily_rows (zone : TimeZone) (records : list InventoryRecord) :
  exists w,
    generateWeeklyReport zone records = Some w /\
    StronglySorted (fun a b => dy_date a < dy_date b) (daily_summary w) /\
    (forall d, (exists row, In row (daily_summary w) /\ dy_date row = d) <->
               (exists r, In r records /\ date r = d)) /\
    (forall row, In row (daily_summary w) ->
       let g := recordsOn (dy_date row) records in
       total_transactions row = len g /\
       dy_total_stock_in row = reduce_sum new_stock g /\
       dy_total_stock_out row = reduce_sum issued_production g /\
       dy_total_returns row = reduce_sum returns g /\
       dy_total_rebagging row = reduce_sum rebagging g /\
       dy_total_damaged row = reduce_sum damaged g /\
       dy_net_change row = dy_total_stock_in row - dy_total_stock_out row /\
       1 <= products_active row <= total_transactions row) /\
    reduce_sum dy_net_change (daily_summary w) = ws_net_change (summary w) /\
    reduce_sum dy_total_stock_in (daily_summary w) = ws_total_stock_in (summary w) /\
    reduce_sum total_transactions (daily_summary w) = total_movements w.
Proof.
  destruct (weekly_total zone records) as [w Hw]. exists w. split; [exact Hw|].
  destruct records as [|x l].
  { apply weekly_empty in Hw. subst w. simpl.
    split; [constructor|]. split.
    - intros d. split; [intros [row [[] _]]|intros [r [[] _]]].
    - split; [intros row []|]. repeat split. }
  destruct (weekly_fields zone (x :: l) w) as
      (r0 & rl & rows & _ & _ & _ & _ & _ & Hmov & _ & Hsum & _ & _ & Hds);
    [discriminate|exact Hw|].
  set (records := x :: l) in *. rewrite Hds, Hsum, Hmov.
  split.
  { apply (ordered_strict (fun a b => getTime (dy_date a) - getTime (dy_date b))).
    - intros a b. unfold getTime, msPerDay. lia.
    - apply sort_ordered; intros; lia.
    - apply NoDup_map_sort. rewrite daily_dates.
      apply (keys_groupBy Z.eqb Z.eqb_eq). }
  split.
  { intros d. split.
    - intros [row [Hin <-]]. apply sort_In in Hin.
      destruct (daily_row_of_bucket zone _ _ Hin) as [Hne _].
      destruct (recordsOn (dy_date row) (sort byDateAsc records)) as [|r g] eqn:E;
        [contradiction|].
      exists r. apply recordsOn_sorted_In. rewrite E. left. reflexivity.
    - intros [r [Hin <-]].
      exists (dailySummaryRow zone (date r, recordsOn (date r) (sort byDateAsc records))).
      split; [|reflexivity]. apply sort_In, in_map.
      apply dateGroups_In. split; [reflexivity|].
      intros E. assert (H : In r (recordsOn (date r) (sort byDateAsc records)))
        by (apply recordsOn_sorted_In; split; [exact Hin|reflexivity]).
      rewrite E in H. destruct H. }
  split.
  { intros row Hin. apply sort_In in Hin.
    destruct (daily_row_of_bucket zone _ _ Hin) as [Hne Hrow].
    set (d := dy_date row) in *. cbv zeta.
    assert (Hs : forall f, reduce_sum f (recordsOn d (sort byDateAsc records))
                           = reduce_sum f (recordsOn d records)).
    { intros f. symmetry. apply reduce_sum_perm, recordsOn_sort_perm. }
    rewrite Hrow.
    cbn [dailySummaryRow total_transactions dy_total_stock_in dy_total_stock_out
         dy_total_returns dy_total_rebagging dy_total_damaged dy_net_change
         products_active dy_date].
    rewrite !Hs.
    rewrite <- (len_perm _ _ (recordsOn_sort_perm d records)).
    repeat (split; [reflexivity|]).
    rewrite (len_perm _ _ (recordsOn_sort_perm d records)).
    unfold len. rewrite <- (length_map item_name).
    apply (set_size_bounds String.eqb String.eqb_eq).
    intros E. apply map_eq_nil in E. contradiction. }
  split; [|split].
  - rewrite sort_sum, reduce_sum_map.
    rewrite (reduce_sum_ext _
               (fun e => reduce_sum (fun r => new_stock r - issued_production r) (snd e))).
    + unfold dateGroups. rewrite groupBy_sum. reflexivity.
    + intros [d g] _. simpl. rewrite reduce_sum_minus. reflexivity.
  - rewrite sort_sum, reduce_sum_map.
    rewrite (reduce_sum_ext _ (fun e => reduce_sum new_stock (snd e)))
      by (intros [d g] _; reflexivity).
    unfold dateGroups. rewrite groupBy_sum. reflexivity.
  - rewrite sort_sum, reduce_sum_map.
    rewrite (reduce_sum_ext _ (fun e => reduce_sum (fun _ => 1) (snd e))).
    + unfold dateGroups. rewrite (groupBy_sum Z.eqb date (fun _ => 1)).
      rewrite reduce_sum_const_one, sort_length. reflexivity.
    + intros [d g] _. simpl. unfold len. symmetry. apply reduce_sum_const_one.
Qed.

Lemma weekly_daily_rows_witness :
  exists w,
    generateWeeklyReport utc [sampleDay2; sampleMixed; sampleDay1] = Some w /\
    reduce_sum dy_net_change (daily_summary w) = 0 /\
    (exists row, In row (daily_summary w) /\ dy_date row = 19724).
Proof.
  destruct (weekly_daily_rows utc [sampleDay2; sampleMixed; sampleDay1])
    as (w & Hw & _ & Hdates & _ & Hnet & _).
  exists w. split; [exact Hw|]. split.
  - rewrite Hnet. pose proof Hw as Hc. vm_compute in Hc. injection Hc as <-.
    reflexivity.
  - apply Hdates. exists sampleDay2. split; [left; reflexivity|reflexivity].
Defined.

(** X12. For non-negative quantities the [stock_turnover] of the weekly
    report is a finite, non-negative number: the quantity issued divided
    by the quantity received when something was received, and the quantity
    issued itself when nothing was. *)
Theorem stock_turnover_defined (zone : TimeZone) (records : list InventoryRecord) :
  Forall nonneg_record records ->
  exists w q,
    generateWeeklyReport zone records = Some w /\
    stock_turnover (efficiency_metrics w) = Fin q /\
    (0 <= q)%Q /\
    (0 < reduce_sum new_stock records ->
     (q == inject_Z (reduce_sum issued_production records)
           / inject_Z (reduce_sum new_stock records))%Q) /\
    (reduce_sum new_stock records = 0 ->
     (q == inject_Z (reduce_sum issued_production records))%Q).
Proof.
  intros Hnn. destruct (weekly_total zone records) as [w Hw].
  assert (He : efficiency_metrics w = efficiencyMetrics (weeklySummary records)).
  { destruct records as [|r0 l].
    - apply weekly_empty in Hw. subst w. reflexivity.
    - destruct (weekly_nonempty zone (r0 :: l) w) as (rows & _ & _ & He & _);
        [discriminate|exact Hw|].
      rewrite He. unfold weeklySummary. rewrite !sort_sum. reflexivity. }
  assert (Hout : 0 <= reduce_sum issued_production records).
  { apply (nonneg_sum issued_production _ records);
      [unfold nonneg_record; tauto|exact Hnn|auto]. }
  assert (Hin : 0 <= reduce_sum new_stock records).
  { apply (nonneg_sum new_stock _ records);
      [unfold nonneg_record; tauto|exact Hnn|auto]. }
  exists w. rewrite He. simpl.
  set (o := reduce_sum issued_production records) in *.
  set (i := reduce_sum new_stock records) in *.
  destruct (0 <? o) eqn:Eo.
  - apply Z.ltb_lt in Eo. destruct (i =? 0) eqn:Ei.
    + apply Z.eqb_eq in Ei. unfold div. simpl.
      exists (Qred (inject_Z o / inject_Z 1)). split; [exact Hw|].
      split; [reflexivity|].
      assert (E : (Qred (inject_Z o / inject_Z 1) == inject_Z o)%Q).
      { rewrite Qred_correct. unfold Qeq, Qdiv, Qmult, Qinv, inject_Z.
        cbn -[Z.mul]. lia. }
      split; [|split].
      * rewrite E. unfold Qle, inject_Z. cbn -[Z.mul]. lia.
      * lia.
      * intros _. exact E.
    + apply Z.eqb_neq in Ei. destruct i as [|p|p]; try lia.
      unfold div. simpl (Z.pos p =? 0). cbv iota.
      exists (Qred (inject_Z o / inject_Z (Z.pos p))). split; [exact Hw|].
      split; [reflexivity|].
      split; [|split].
      * rewrite Qred_correct. unfold Qle, Qdiv, Qmult, Qinv, inject_Z.
        cbn -[Z.mul]. lia.
      * intros _. apply Qred_correct.
      * lia.
  - apply Z.ltb_ge in Eo. assert (o = 0) by lia.
    exists 0%Q. split; [exact Hw|]. split; [reflexivity|].
    split; [apply Qle_refl|]. split.
    + intros Hpos. destruct i as [|p|p]; try lia. rewrite H.
      unfold Qeq, Qdiv, Qmult, Qinv, inject_Z. cbn -[Z.mul]. lia.
    + intros _. rewrite H. reflexivity.
Qed.

Lemma stock_turnover_defined_witness :
  exists w q,
    generateWeeklyReport utc [sampleMixed] = Some w /\
    stock_turnover (efficiency_metrics w) = Fin q /\ (q == 3 # 4)%Q.
Proof.
  destruct (stock_turnover_defined utc [sampleMixed]) as (w & q & Hw & Hq & _ & Hpos & _).
  - repeat constructor; unfold nonneg_record; simpl; lia.
  - exists w, q. split; [exact Hw|]. split; [exact Hq|].
    rewrite Hpos by reflexivity. reflexivity.
Defined.

(** ** The most active product of a day *)

Lemma first_of_totals (comparefn : string * Z -> string * Z -> Z)
  (val : InventoryRecord -> Z) (g : list InventoryRecord) :
  g <> [] ->
  exists p,
    first (sort comparefn
                (fold_left (fun m r => add_to String.eqb (item_name r) (val r) m) g []))
    = Some p.
Proof.
  intros Hne. apply sort_nonempty. intros E.
  destruct g as [|r g]; [contradiction|].
  assert (H : In (item_name r, reduce_sum val (recordsOf (item_name r) (r :: g)))
                 (fold_left (fun m r => add_to String.eqb (item_name r) (val r) m)
                            (r :: g) [])).
  { apply (totals_In String.eqb String.eqb_eq item_name val). split; [|reflexivity].
    simpl. rewrite String.eqb_refl. discriminate. }
  rewrite E in H. destruct H.
Qed.

Lemma dailySummaryRow_most_active (zone : TimeZone) (d : Z) (g : list InventoryRecord) :
  let leader :=
    first (sort (fun a b => snd b - snd a)
                (fold_left (fun m r => add_to String.eqb (item_name r) (movement r) m)
                           g [])) in
  most_active_product (dailySummaryRow zone (d, g)) =
    match leader with Some p => orNone (fst p) | None => "None"%string end /\
  most_active_product_movements (dailySummaryRow zone (d, g)) =
    match leader with Some p => snd p | None => 0 end.
Proof. split; reflexivity. Qed.

Lemma dailySummaryRow_top (zone : TimeZone) (d : Z) (g : list InventoryRecord) :
  top_product (dailySummaryRow zone (d, g)) =
  match first (sort (fun a b => Z.abs (snd b) - Z.abs (snd a))
                    (fold_left
                       (fun m r => add_to String.eqb (item_name r)
                                          (new_stock r - issued_production r) m) g []))
  with
  | Some p => orNone (fst p)
  | None => "None"%string
  end.
Proof. reflexivity. Qed.

Lemma dailySummaryRow_leaders (zone : TimeZone) (d : Z) (g : list InventoryRecord) :
  g <> [] ->
  exists name top,
    recordsOf name g <> [] /\ recordsOf top g <> [] /\
    most_active_product (dailySummaryRow zone (d, g)) = orNone name /\
    most_active_product_movements (dailySummaryRow zone (d, g)) =
      reduce_sum movement (recordsOf name g) /\
    top_product (dailySummaryRow zone (d, g)) = orNone top /\
    forall other, recordsOf other g <> [] ->
      reduce_sum movement (recordsOf other g) <= reduce_sum movement (recordsOf name g) /\
      Z.abs (reduce_sum (fun r => new_stock r - issued_production r) (recordsOf other g))
      <= Z.abs (reduce_sum (fun r => new_stock r - issued_production r)
                           (recordsOf top g)).
Proof.
  intros Hne.
  destruct (first_of_totals (fun a b => snd b - snd a) movement g Hne) as [[n v] Hp].
  destruct (first_of_totals (fun a b => Z.abs (snd b) - Z.abs (snd a))
                            (fun r => new_stock r - issued_production r) g Hne)
    as [[t u] Ht].
  destruct (sort_first_least (fun a b : string * Z => snd b - snd a)
              ltac:(intros; lia) ltac:(intros; lia) _ _ Hp) as [Hin Hmax].
  destruct (sort_first_least (fun a b : string * Z => Z.abs (snd b) - Z.abs (snd a))
              ltac:(intros; lia) ltac:(intros; lia) _ _ Ht) as [Hint Hmaxt].
  apply (totals_In String.eqb String.eqb_eq item_name movement) in Hin.
  destruct Hin as [Hn Hv].
  apply (totals_In String.eqb String.eqb_eq item_name
                   (fun r => new_stock r - issued_production r)) in Hint.
  destruct Hint as [Htn Hu].
  exists n, t. split; [exact Hn|]. split; [exact Htn|].
  destruct (dailySummaryRow_most_active zone d g) as [-> ->].
  rewrite dailySummaryRow_top.
  rewrite Hp, Ht. simpl fst. simpl snd.
  split; [reflexivity|]. split; [exact Hv|]. split; [reflexivity|].
  intros other Ho. split.
  - assert (H : In (other, reduce_sum movement (recordsOf other g))
                   (fold_left (fun m r => add_to String.eqb (item_name r) (movement r) m)
                              g [])).
    { apply (totals_In String.eqb String.eqb_eq item_name movement).
      split; [exact Ho|reflexivity]. }
    destruct (Hmax _ H) as [E|Hle].
    + injection E as -> ->. unfold recordsOf. lia.
    + simpl in Hle. unfold recordsOf in *. lia.
  - assert (H : In (other, reduce_sum (fun r => new_stock r - issued_production r)
                                      (recordsOf other g))
                   (fold_left
                      (fun m r => add_to String.eqb (item_name r)
                                         (new_stock r - issued_production r) m) g [])).
    { apply (totals_In String.eqb String.eqb_eq item_name
                       (fun r => new_stock r - issued_production r)).
      split; [exact Ho|reflexivity]. }
    destruct (Hmaxt _ H) as [E|Hle].
    + injection E as -> ->. unfold recordsOf. lia.
    + simpl in Hle. unfold recordsOf in *. lia.
Qed.

Lemma perm_nonempty {A : Type} (l1 l2 : list A) :
  Permutation l1 l2 -> l1 <> [] -> l2 <> [].
Proof.
  intros H Hne E. apply Hne. apply Permutation_nil. rewrite <- E.
  apply Permutation_sym. exact H.
Qed.

(** X13. In each row of the daily summary, [most_active_product] names a
    product with a record on that date whose movements of the day, the
    value of [most_active_product_movements], are not exceeded by those of
    any other product of the day; [top_product] names a product of the day
    whose [new_stock - issued_production] of the day is largest in
    absolute value.  A product whose name is the empty string is shown as
    ["None"]. *)
Theorem daily_leaders (zone : TimeZone) (records : list InventoryRecord) :
  exists w,
    generateWeeklyReport zone records = Some w /\
    forall row, In row (daily_summary w) ->
      let g := recordsOn (dy_date row) records in
      exists name top,
        recordsOf name g <> [] /\ recordsOf top g <> [] /\
        most_active_product row = orNone name /\
        most_active_product_movements row = reduce_sum movement (recordsOf name g) /\
        top_product row = orNone top /\
        forall other, recordsOf other g <> [] ->
          reduce_sum movement (recordsOf other g) <= most_active_product_movements row /\
          Z.abs (reduce_sum (fun r => new_stock r - issued_production r)
                            (recordsOf other g))
          <= Z.abs (reduce_sum (fun r => new_stock r - issued_production r)
                               (recordsOf top g)).
Proof.
  destruct (weekly_total zone records) as [w Hw]. exists w. split; [exact Hw|].
  destruct records as [|x l].
  { apply weekly_empty in Hw. subst w. intros row []. }
  destruct (weekly_fields zone (x :: l) w) as
      (r0 & rl & rows & _ & _ & _ & _ & _ & _ & _ & _ & _ & _ & Hds);
    [discriminate|exact Hw|].
  set (records := x :: l) in *. rewrite Hds.
  intros row Hin. apply sort_In in Hin.
  destruct (daily_row_of_bucket zone _ _ Hin) as [Hne Hrow].
  set (d := dy_date row) in *. cbv zeta.
  assert (Hperm : forall name,
             Permutation (recordsOf name (recordsOn d (sort byDateAsc records)))
                         (recordsOf name (recordsOn d records))).
  { intros name. apply filter_perm, Permutation_sym, recordsOn_sort_perm. }
  assert (Hs : forall f name,
             reduce_sum f (recordsOf name (recordsOn d (sort byDateAsc records)))
             = reduce_sum f (recordsOf name (recordsOn d records))).
  { intros f name. apply reduce_sum_perm, Hperm. }
  destruct (dailySummaryRow_leaders zone d _ Hne)
    as (name & top & Hn & Ht & Hmost & Hmov & Htop & Hall).
  rewrite <- Hrow in Hmost, Hmov, Htop.
  exists name, top.
  split; [apply (perm_nonempty _ _ (Hperm name)); exact Hn|].
  split; [apply (perm_nonempty _ _ (Hperm top)); exact Ht|].
  split; [exact Hmost|]. split; [rewrite Hmov; apply Hs|]. split; [exact Htop|].
  intros other Ho.
  assert (Ho' : recordsOf other (recordsOn d (sort byDateAsc records)) <> []).
  { apply (perm_nonempty _ _ (Permutation_sym (Hperm other))). exact Ho. }
  destruct (Hall other Ho') as [H1 H2]. rewrite !Hs in H1, H2.
  rewrite Hmov, Hs. split; assumption.
Qed.

Lemma daily_leaders_witness :
  20 <= most_active_product_movements
          (dailySummaryRow utc (19723, [sampleMixed; sampleDay1])).
Proof.
  destruct (daily_leaders utc [sampleDay2; sampleMixed; sampleDay1]) as (w & Hw & Hrows).
  pose proof Hw as Hc. vm_compute in Hc. injection Hc as <-.
  destruct (Hrows (dailySummaryRow utc (19723, [sampleMixed; sampleDay1])))
    as (name & top & _ & _ & _ & _ & _ & Hall).
  - left. reflexivity.
  - destruct (Hall "A"%string) as [H _].
    + discriminate.
    + exact H.
Defined.

(** X14. Records outside the date range never influence a report: adding
    any list of records whose dates all lie outside [startDate, endDate]
    to the input, in front or behind, leaves the bundle unchanged. *)
Theorem out_of_range_records_ignored (now : Z) (zone : TimeZone)
  (records before after : list InventoryRecord) (dateRange : DateRange) :
  (forall r, In r before ->
             date r < startDate dateRange \/ endDate dateRange < date r) ->
  (forall r, In r after ->
             date r < startDate dateRange \/ endDate dateRange < date r) ->
  generateReports now zone (before ++ records ++ after) dateRange =
  generateReports now zone records dateRange.
Proof.
  intros Hb Ha.
  assert (Hout : forall l,
             (forall r, In r l ->
                        date r < startDate dateRange \/ endDate dateRange < date r) ->
             filterRecords dateRange l = []).
  { induction l as [|r l IH]; intros H; [reflexivity|].
    unfold filterRecords in *. simpl.
    destruct (inRange dateRange r) eqn:E.
    - exfalso. unfold inRange, getTime, msPerDay in E.
      apply andb_true_iff in E. rewrite !Z.leb_le in E.
      destruct (H r (or_introl eq_refl)); lia.
    - apply IH. intros r' Hr'. apply H. right. exact Hr'. }
  unfold generateReports.
  assert (E : filterRecords dateRange (before ++ records ++ after)
              = filterRecords dateRange records).
  { unfold filterRecords in *. rewrite !filter_app.
    rewrite (Hout before Hb), (Hout after Ha), app_nil_r. reflexivity. }
  rewrite E. reflexivity.
Qed.

Lemma out_of_range_records_ignored_witness :
  generateReports 0 utc ([sampleMixed] ++ [sampleDay2] ++ [sampleDay1])
                  {| startDate := 19724; endDate := 19730 |} =
  generateReports 0 utc [sampleDay2] {| startDate := 19724; endDate := 19730 |}.
Proof.
  apply (out_of_range_records_ignored 0 utc [sampleDay2] [sampleMixed] [sampleDay1]).
  - intros r [<-|[]]. left. reflexivity.
  - intros r [<-|[]]. left. reflexivity.
Defined.

End ReportExtras.

(* ------------------------------------------------------------------ *)
(** * Further properties of the entry form *)
(* ------------------------------------------------------------------ *)

Module FormExtras.
Import JS Inventory Form StoreSpec FormFacts.

(** ** The checks of a save *)

Lemma setHoursZero_fixed (offset t : Z) :
  setHoursZero (fixedOffset offset) t =
  msPerDay * localDay (fixedOffset offset) t - offset.
Proof. reflexivity. Qed.

Lemma startOfDay_fixed (offset t1 t2 : Z) :
  setHoursZero (fixedOffset offset) t1 < setHoursZero (fixedOffset offset) t2 <->
  localDay (fixedOffset offset) t1 < localDay (fixedOffset offset) t2.
Proof. rewrite !setHoursZero_fixed. unfold msPerDay. lia. Qed.

(** Midnight UTC of a calendar date falls on that date east of Greenwich
    and on the day before west of it. *)
Lemma localDay_of_date (offset d : Z) :
  (0 <= offset < msPerDay -> localDay (fixedOffset offset) (getTime d) = d) /\
  (- msPerDay <= offset < 0 -> localDay (fixedOffset offset) (getTime d) = d - 1).
Proof.
  unfold localDay, localTime, getTime, fixedOffset, offsetAt, msPerDay.
  split; intros H; symmetry.
  - apply (Z.div_unique _ _ d offset); lia.
  - apply (Z.div_unique _ _ (d - 1) (offset + 86400000)); lia.
Qed.

Lemma save_outcomes (zone : TimeZone) (now : Z) (formData : FormData) (store : Store) :
  (handleSaveRecord zone now formData store = MissingName <->
   trim (itemName formData) = ""%string) /\
  (handleSaveRecord zone now formData store = MissingDate <->
   trim (itemName formData) <> ""%string /\ formDate formData = None) /\
  (handleSaveRecord zone now formData store = PastDate <->
   trim (itemName formData) <> ""%string /\
   exists d, formDate formData = Some d /\
             setHoursZero zone (getTime d) < setHoursZero zone now) /\
  ((exists store', written (handleSaveRecord zone now formData store) = Some store') <->
   trim (itemName formData) <> ""%string /\
   exists d, formDate formData = Some d /\
             setHoursZero zone now <= setHoursZero zone (getTime d)) /\
  (forall store', written (handleSaveRecord zone now formData store) = Some store' ->
   exists id d, formDate formData = Some d /\
                In (id, buildRecord formData d) store' /\
                item_name (buildRecord formData d) <> ""%string).
Proof.
  assert (Hw : forall d, exists store',
             written (match getDataForDate store (itemName formData) d with
                      | Some existingRecord =>
                          Updated (updateById (fst existingRecord)
                                              (buildRecord formData d) store)
                      | None => Inserted (insertRow (buildRecord formData d) store)
                      end) = Some store').
  { intros d. destruct (getDataForDate store (itemName formData) d);
      eexists; reflexivity. }
  assert (Hne : forall d o,
             match getDataForDate store (itemName formData) d with
             | Some existingRecord =>
                 Updated (updateById (fst existingRecord)
                                     (buildRecord formData d) store)
             | None => Inserted (insertRow (buildRecord formData d) store)
             end = o -> o <> MissingName /\ o <> MissingDate /\ o <> PastDate).
  { intros d o H. destruct (getDataForDate store (itemName formData) d);
      subst o; repeat split; discriminate. }
  unfold handleSaveRecord, isDateInPast. cbv zeta.
  destruct (String.eqb (trim (itemName formData)) "") eqn:En;
    [apply String.eqb_eq in En|apply String.eqb_neq in En].
  { split; [tauto|]. split; [split; [discriminate|tauto]|].
    split; [split; [discriminate|tauto]|].
    split; [split; [intros [s H]; discriminate|tauto]|].
    intros s H. discriminate. }
  destruct (formDate formData) as [d|].
  2:{ split; [split; [discriminate|tauto]|]. split; [tauto|].
      split; [split; [discriminate|intros [_ [d [H _]]]; discriminate]|].
      split; [split; [intros [s H]; discriminate
                     |intros [_ [d [H _]]]; discriminate]|].
      intros s H. discriminate. }
  destruct (setHoursZero zone (getTime d) <? setHoursZero zone now) eqn:Ed;
    [apply Z.ltb_lt in Ed|apply Z.ltb_ge in Ed].
  { split; [split; [discriminate|tauto]|].
    split; [split; [discriminate|intros [_ H]; discriminate]|].
    split; [split; [intros _; split; [exact En|exists d; split; [reflexivity|exact Ed]]
                   |reflexivity]|].
    split; [split; [intros [s H]; discriminate
                   |intros [_ [d' [H Hd]]]; injection H as <-; lia]|].
    intros s H. discriminate. }
  destruct (Hne d _ eq_refl) as (N1 & N2 & N3).
  split; [split; [intros H; contradiction|tauto]|].
  split; [split; [intros H; contradiction|intros [_ H]; discriminate]|].
  split; [split; [intros H; contradiction
                 |intros [_ [d' [H Hd]]]; injection H as <-; lia]|].
  split; [split; [intros _; split; [exact En|exists d; split; [reflexivity|exact Ed]]
                 |intros _; apply Hw]|].
  intros store' H.
  destruct (getDataForDate store (itemName formData) d) as [[id old]|] eqn:E;
    simpl in H; injection H as <-.
  - exists id, d. repeat split; try assumption.
    apply updateById_In with old. eapply getDataForDate_In. exact E.
  - eexists. exists d. repeat split; try assumption.
    unfold insertRow. apply in_or_app. right. left. reflexivity.
Qed.

(** X15. A save writes to the store exactly when the item name, without its
    surrounding white space, is not empty, a date is set, and the start of
    the local day of the date (read as midnight UTC) is not before the start
    of the local day of the clock; the checks are made in this order, and
    the outcome names the first one that fails.  A save that writes leaves
    in the store the record built from the form, whose name is not empty.
    In a time zone with a fixed offset east of Greenwich, or UTC, the date
    passes when it is not before the local date of today; west of
    Greenwich it passes only when it is after the local date of today, so
    that a record dated today is refused. *)
Theorem save_validation (zone : TimeZone) (now : Z) (formData : FormData)
  (store : Store) :
  (handleSaveRecord zone now formData store = MissingName <->
   trim (itemName formData) = ""%string) /\
  (handleSaveRecord zone now formData store = MissingDate <->
   trim (itemName formData) <> ""%string /\ formDate formData = None) /\
  (handleSaveRecord zone now formData store = PastDate <->
   trim (itemName formData) <> ""%string /\
   exists d, formDate formData = Some d /\
             setHoursZero zone (getTime d) < setHoursZero zone now) /\
  ((exists store', written (handleSaveRecord zone now formData store) = Some store') <->
   trim (itemName formData) <> ""%string /\
   exists d, formDate formData = Some d /\
             setHoursZero zone now <= setHoursZero zone (getTime d)) /\
  (forall store', written (handleSaveRecord zone now formData store) = Some store' ->
   exists id d, formDate formData = Some d /\
                In (id, buildRecord formData d) store' /\
                item_name (buildRecord formData d) <> ""%string) /\
  (forall offset d,
     zone = fixedOffset offset ->
     trim (itemName formData) <> ""%string -> formDate formData = Some d ->
     (0 <= offset < msPerDay ->
      ((exists store', written (handleSaveRecord zone now formData store) = Some store')
       <-> localDay zone now <= d)) /\
     (- msPerDay <= offset < 0 ->
      ((exists store', written (handleSaveRecord zone now formData store) = Some store')
       <-> localDay zone now < d))).
Proof.
  destruct (save_outcomes zone now formData store) as (H1 & H2 & H3 & H4 & H5).
  repeat (split; [assumption|]).
  intros offset d -> Hname Hdate.
  assert (Hiff : (exists store',
                     written (handleSaveRecord (fixedOffset offset) now formData store)
                     = Some store') <->
                 localDay (fixedOffset offset) now
                 <= localDay (fixedOffset offset) (getTime d)).
  { rewrite H4. pose proof (startOfDay_fixed offset (getTime d) now) as Hs. split.
    - intros [_ [d' [E Hle]]]. rewrite Hdate in E. injection E as <-. lia.
    - intros Hle. split; [exact Hname|]. exists d. split; [exact Hdate|]. lia. }
  destruct (localDay_of_date offset d) as [East West].
  split; intros Ho; rewrite Hiff; [rewrite (East Ho)|rewrite (West Ho)]; lia.
Qed.

(** Five hours west of Greenwich, at noon local time of day 5, a record
    dated day 5 is refused and a record dated day 6 is written. *)
Lemma save_validation_witness :
  let west := fixedOffset (-5 * 3600000) in
  let now := getTime 5 + 17 * 3600000 in
  let form d := {| itemName := " A "; formDate := Some d; openingStock := 10;
                   newStock := 5; newBalance := 15; issuedProduction := 20;
                   formReturns := 1; formRebagging := 2; formDamaged := 3;
                   closingStock := 0 |} in
  localDay west now = 5 /\
  handleSaveRecord west now (form 5) [] = PastDate /\
  exists store', written (handleSaveRecord west now (form 6) []) = Some store'.
Proof.
  cbv zeta. split; [reflexivity|].
  destruct (save_validation (fixedOffset (-5 * 3600000)) (getTime 5 + 17 * 3600000)
              {| itemName := " A "; formDate := Some 5; openingStock := 10;
                 newStock := 5; newBalance := 15; issuedProduction := 20;
                 formReturns := 1; formRebagging := 2; formDamaged := 3;
                 closingStock := 0 |} []) as (_ & _ & Hpast & _).
  destruct (save_validation (fixedOffset (-5 * 3600000)) (getTime 5 + 17 * 3600000)
              {| itemName := " A "; formDate := Some 6; openingStock := 10;
                 newStock := 5; newBalance := 15; issuedProduction := 20;
                 formReturns := 1; formRebagging := 2; formDamaged := 3;
                 closingStock := 0 |} []) as (_ & _ & _ & _ & _ & Hzone).
  split.
  - apply Hpast. split; [discriminate|]. exists 5. split; [reflexivity|].
    vm_compute. reflexivity.
  - destruct (Hzone (-5 * 3600000) 6 eq_refl) as [_ West].
    + discriminate.
    + reflexivity.
    + apply West; [unfold msPerDay; lia|]. vm_compute. reflexivity.
Defined.

(** ** One row per product and day *)









End FormExtras.


(* ------------------------------------------------------------------ *)
(** * Properties of the product list *)
(* ------------------------------------------------------------------ *)

Module HistoryFacts.
Import JS Inventory Reports Spec ViewSpec History JSFacts MoreJSFacts ReportFacts.
Import ReportExtras.

Lemma productSummary_fields (k : string) (g : list InventoryRecord) (y : ProductSummary) :
  productSummary (k, g) = Some y ->
  exists h,
    first (sort byDateDesc g) = Some h /\
    ps_item_name y = k /\ latest_record y = h /\
    ps_total_records y = len g /\
    current_stock y = closing_stock h /\ last_updated y = date h.
Proof.
  unfold productSummary. rewrite !len_sort.
  destruct (sort byDateDesc g) as [|s0 [|s1 rest]]; [discriminate| |];
    destruct (2 <=? len g); simpl; intros H; try discriminate;
    injection H as <-; simpl; exists s0; repeat split.
Qed.

Lemma productSummary_total (k : string) (g : list InventoryRecord) :
  g <> [] -> exists y, productSummary (k, g) = Some y.
Proof.
  intros Hne. unfold productSummary.
  destruct (first_byDateDesc g Hne) as [h Hh].
  destruct (sort byDateDesc g) as [|s0 [|s1 rest]] eqn:E.
  - discriminate.
  - simpl. eexists. reflexivity.
  - destruct (2 <=? len (s0 :: s1 :: rest)); simpl; eexists; reflexivity.
Qed.

Lemma summaries_total (records : list InventoryRecord) :
  exists summaries, generateProductSummaries records = Some summaries.
Proof.
  unfold generateProductSummaries.
  destruct (rows_of_groups productSummary records) as [rows Hrows].
  - intros k g Hg. apply productSummary_total. exact Hg.
  - unfold productGroups in Hrows. rewrite Hrows. simpl. eexists. reflexivity.
Qed.

Lemma summaries_rows (records : list InventoryRecord) (summaries : list ProductSummary) :
  generateProductSummaries records = Some summaries ->
  exists rows,
    mapM productSummary (productGroups records) = Some rows /\
    summaries = sort (fun a b => getTime (last_updated b) - getTime (last_updated a)) rows.
Proof.
  unfold generateProductSummaries, productGroups. intros H.
  destruct (mapM productSummary (groupBy String.eqb item_name records)) as [rows|];
    [|discriminate].
  simpl in H. injection H as <-. exists rows. split; reflexivity.
Qed.

(** X18. The product list has exactly one summary for each product that
    has a record.  The summary counts the records of the product, its
    [latest_record] is a record of the product that no other record of the
    product postdates, and [current_stock] and [last_updated] are the
    closing stock and the date of that record.  The counts add up to the
    number of records, and the summaries are in descending order of
    [last_updated]. *)
Theorem product_summaries (records : list InventoryRecord) :
  exists summaries,
    generateProductSummaries records = Some summaries /\
    NoDup (map ps_item_name summaries) /\
    (forall name, In name (map ps_item_name summaries) <->
                  exists r, In r records /\ item_name r = name) /\
    (forall s, In s summaries ->
       ps_total_records s = len (recordsOf (ps_item_name s) records) /\
       In (latest_record s) records /\
       item_name (latest_record s) = ps_item_name s /\
       current_stock s = closing_stock (latest_record s) /\
       last_updated s = date (latest_record s) /\
       (forall r, In r records -> item_name r = ps_item_name s ->
                  date r <= last_updated s) /\
       (forall rl, latestOf rl records -> item_name rl = ps_item_name s ->
                   latest_record s = rl)) /\
    totalRecordsCount summaries = len records /\
    StronglySorted (fun a b => last_updated b <= last_updated a) summaries.
Proof.
  destruct (summaries_total records) as [summaries Hs].
  exists summaries. split; [exact Hs|].
  destruct (summaries_rows _ _ Hs) as (rows & Hm & ->).
  assert (Hname : forall e y, productSummary e = Some y -> ps_item_name y = fst e).
  { intros [k g] y Hy. apply productSummary_fields in Hy.
    destruct Hy as (h & _ & Hn & _). exact Hn. }
  destruct (rows_one_per_product _ ps_item_name _ _ Hname Hm) as [Hnd Hnames].
  split; [apply NoDup_map_sort; exact Hnd|].
  split.
  { intros name. rewrite <- Hnames. split; apply Permutation_in, Permutation_map.
    - apply Permutation_sym, sort_perm.
    - apply sort_perm. }
  split; [|split].
  - intros s Hin. apply sort_In in Hin.
    destruct (row_of_group _ _ _ _ Hm Hin) as [k [_ Hk]].
    apply productSummary_fields in Hk.
    destruct Hk as (h & Hh & -> & -> & -> & -> & ->).
    destruct (sort_first_least byDateDesc byDateDesc_total byDateDesc_trans _ _ Hh)
      as [Hhin Hleast].
    apply recordsOf_In in Hhin. destruct Hhin as [Hhin Hhn].
    repeat split; try assumption.
    + intros r Hr Hn.
      destruct (Hleast r) as [->|Hle]; [apply recordsOf_In; split; assumption|lia|].
      unfold byDateDesc, getTime, msPerDay in Hle. lia.
    + intros rl Hlatest Hn. pose proof (latest_is_first _ _ Hlatest) as Hfirst.
      rewrite Hn, Hh in Hfirst. injection Hfirst as ->. reflexivity.
  - unfold totalRecordsCount. rewrite sort_sum.
    rewrite (mapM_sum productSummary ps_total_records
                      (fun e => reduce_sum (fun _ => 1) (snd e)) _ _) with (2 := Hm).
    + unfold productGroups.
      rewrite (groupBy_sum String.eqb item_name (fun _ => 1)).
      apply reduce_sum_const_one.
    + intros [k g] y _ Hy. apply productSummary_fields in Hy.
      destruct Hy as (h & _ & _ & _ & -> & _). simpl.
      unfold len. symmetry. apply reduce_sum_const_one.
  - apply (ordered_StronglySorted
             (fun a b => getTime (last_updated b) - getTime (last_updated a))).
    + intros a b. unfold getTime, msPerDay. lia.
    + apply sort_ordered; intros; lia.
Qed.

Lemma product_summaries_witness :
  exists summaries,
    generateProductSummaries [sampleDay2; sampleMixed; sampleDay1] = Some summaries /\
    totalRecordsCount summaries = 3 /\
    forall s, In s summaries -> ps_item_name s = "A"%string ->
              latest_record s = sampleDay2.
Proof.
  destruct (product_summaries [sampleDay2; sampleMixed; sampleDay1])
    as (summaries & Hs & _ & _ & Hrow & Hsum & _).
  exists summaries. split; [exact Hs|]. split; [rewrite Hsum; reflexivity|].
  intros s Hin Hname. destruct (Hrow s Hin) as (_ & _ & _ & _ & _ & _ & Hlatest).
  apply Hlatest; [|symmetry; exact Hname].
  split; [left; reflexivity|].
  intros r' [<-|[<-|[<-|[]]]] Hn; try discriminate;
    [right; reflexivity|left; reflexivity].
Defined.

Lemma productSummary_trend (k : string) (g : list InventoryRecord) (y : ProductSummary) :
  productSummary (k, g) = Some y ->
  match sort byDateDesc g with
  | s0 :: s1 :: _ =>
      ps_stock_trend y = trendOf (closing_stock s0 - closing_stock s1)
  | _ => ps_stock_trend y = "stable"%string
  end.
Proof.
  unfold productSummary.
  destruct (sort byDateDesc g) as [|s0 [|s1 rest]] eqn:E; [discriminate| |].
  - simpl. intros H. injection H as <-. reflexivity.
  - assert (H2 : (2 <=? len (s0 :: s1 :: rest)) = true).
    { apply Z.leb_le. unfold len. simpl List.length. lia. }
    rewrite H2. simpl. intros H. injection H as <-. simpl. unfold trendOf.
    destruct (closing_stock s1 <? closing_stock s0) eqn:E1;
      destruct (0 <? closing_stock s0 - closing_stock s1) eqn:E2;
      try reflexivity;
      try (apply Z.ltb_lt in E1; apply Z.ltb_ge in E2; lia);
      try (apply Z.ltb_ge in E1; apply Z.ltb_lt in E2; lia).
    destruct (closing_stock s0 <? closing_stock s1) eqn:E3;
      destruct (closing_stock s0 - closing_stock s1 <? 0) eqn:E4;
      try reflexivity;
      try (apply Z.ltb_lt in E3; apply Z.ltb_ge in E4; lia);
      try (apply Z.ltb_ge in E3; apply Z.ltb_lt in E4; lia).
Qed.

Lemma ordered_byDateDesc (g : list InventoryRecord) :
  ordered byDateDesc (sort byDateDesc g).
Proof. apply sort_ordered; [apply byDateDesc_total|apply byDateDesc_trans]. Qed.

(** X19. The [stock_trend] of a product summary looks at the two most
    recent records only.  A product with a single record is ["stable"].
    In a list without repeated records, for a product whose latest record
    is [l] and whose next record is [p], every other record being older
    than [p], the trend is the word for the sign of
    [closing_stock l - closing_stock p], whatever the older records say. *)
Theorem summary_trend (records : list InventoryRecord) :
  NoDup records ->
  exists summaries,
    generateProductSummaries records = Some summaries /\
    forall s, In s summaries ->
      (ps_total_records s = 1 -> ps_stock_trend s = "stable"%string) /\
      (forall l p,
          In l records -> In p records ->
          item_name l = ps_item_name s -> item_name p = ps_item_name s ->
          date p < date l ->
          (forall r, In r records -> item_name r = ps_item_name s ->
                     r = l \/ r = p \/ date r < date p) ->
          ps_stock_trend s = trendOf (closing_stock l - closing_stock p)).
Proof.
  intros Hnodup. destruct (summaries_total records) as [summaries Hs].
  exists summaries. split; [exact Hs|].
  destruct (summaries_rows _ _ Hs) as (rows & Hm & ->).
  intros s Hin. apply sort_In in Hin.
  destruct (row_of_group _ _ _ _ Hm Hin) as [k [Hne Hk]].
  pose proof (productSummary_trend _ _ _ Hk) as Htrend.
  apply productSummary_fields in Hk. destruct Hk as (h & Hh & Hn & _ & Hcount & _).
  rewrite Hn, Hcount.
  assert (Hperm : Permutation (recordsOf k records) (sort byDateDesc (recordsOf k records)))
    by apply sort_perm.
  assert (Hsnd : NoDup (sort byDateDesc (recordsOf k records))).
  { apply (Permutation_NoDup Hperm). unfold recordsOf. apply NoDup_filter. exact Hnodup. }
  pose proof (ordered_byDateDesc (recordsOf k records)) as Hord.
  assert (Hmem : forall x, In x (sort byDateDesc (recordsOf k records)) <->
                           In x records /\ item_name x = k).
  { intros x. rewrite sort_In. apply recordsOf_In. }
  split.
  - intros H1. unfold len in H1. rewrite (Permutation_length Hperm) in H1.
    destruct (sort byDateDesc (recordsOf k records)) as [|s0 [|s1 rest]];
      try exact Htrend. simpl List.length in H1. lia.
  - intros l p Hl Hp Hnl Hnp Hlt Hall.
    destruct (sort byDateDesc (recordsOf k records)) as [|s0 [|s1 rest]] eqn:E.
    + exfalso. apply (proj2 (Hmem l)). split; assumption.
    + exfalso.
      assert (H1 : In l [s0]) by (apply Hmem; split; assumption).
      assert (H2 : In p [s0]) by (apply Hmem; split; assumption).
      destruct H1 as [<-|[]], H2 as [<-|[]]. lia.
    + inversion Hord as [|a t Ha0 Hord']; subst a t.
      inversion Hord' as [|a t Ha1 _]; subst a t.
      inversion Hsnd as [|a t Hnot0 Hsnd']; subst a t.
      assert (Hd0 : forall x, In x (s1 :: rest) -> date x <= date s0).
      { intros x Hx. specialize (Ha0 x Hx).
        unfold byDateDesc, getTime, msPerDay in Ha0. lia. }
      assert (Hd1 : forall x, In x rest -> date x <= date s1).
      { intros x Hx. specialize (Ha1 x Hx).
        unfold byDateDesc, getTime, msPerDay in Ha1. lia. }
      assert (Hs0 : In s0 records /\ item_name s0 = k)
        by (apply Hmem; left; reflexivity).
      assert (Hs1 : In s1 records /\ item_name s1 = k)
        by (apply Hmem; right; left; reflexivity).
      assert (E0 : s0 = l).
      { assert (Hin0 : In l (s0 :: s1 :: rest)) by (apply Hmem; split; assumption).
        destruct Hin0 as [H|H]; [exact H|].
        specialize (Hd0 l H).
        destruct (Hall s0 (proj1 Hs0) (proj2 Hs0)) as [H0|[H0|H0]];
          [exact H0|subst s0; lia|lia]. }
      assert (E1 : s1 = p).
      { assert (Hin1 : In p (s0 :: s1 :: rest)) by (apply Hmem; split; assumption).
        destruct Hin1 as [H|[H|H]]; [subst; lia|exact H|].
        specialize (Hd1 p H).
        destruct (Hall s1 (proj1 Hs1) (proj2 Hs1)) as [H1|[H1|H1]];
          [|exact H1|lia].
        exfalso. apply Hnot0. left. congruence. }
      rewrite E0, E1 in Htrend. exact Htrend.
Qed.

Lemma summary_trend_witness :
  exists summaries,
    generateProductSummaries [sampleDay2; sampleMixed; sampleDay1] = Some summaries /\
    forall s, In s summaries -> ps_item_name s = "A"%string ->
              ps_stock_trend s = "decreasing"%string.
Proof.
  destruct (summary_trend [sampleDay2; sampleMixed; sampleDay1])
    as (summaries & Hs & Hrow).
  - repeat constructor; simpl; intuition discriminate.
  - exists summaries. split; [exact Hs|].
    intros s Hin Hname. destruct (Hrow s Hin) as [_ Htwo].
    rewrite (Htwo sampleDay2 sampleDay1).
    + reflexivity.
    + left. reflexivity.
    + right. right. left. reflexivity.
    + symmetry. exact Hname.
    + symmetry. exact Hname.
    + reflexivity.
    + intros r [<-|[<-|[<-|[]]]] Hn; try (rewrite Hname in Hn; discriminate);
        [left; reflexivity|right; left; reflexivity].
Defined.

Lemma count_by_sign {A : Type} (c : A -> Z) (l : list A) :
  len (filter (fun x => 0 <? c x) l) + len (filter (fun x => c x =? 0) l)
  + len (filter (fun x => c x <? 0) l) = len l.
Proof.
  unfold len. induction l as [|a l IH]; [reflexivity|].
  simpl filter.
  destruct (Z.ltb_spec 0 (c a)), (Z.eqb_spec (c a) 0), (Z.ltb_spec (c a) 0);
    try lia; simpl List.length; lia.
Qed.

(** X20. The "In Stock" and "Out of Stock" counters of the product list
    never count a product twice, so together they are at most the number
    of products; they add up to it when no record has a negative closing
    stock, a product whose latest closing stock is negative being counted
    by neither. *)
Theorem stock_counters (records : list InventoryRecord) :
  exists summaries,
    generateProductSummaries records = Some summaries /\
    inStockCount summaries + outOfStockCount summaries <= len summaries /\
    ((forall r, In r records -> 0 <= closing_stock r) ->
     inStockCount summaries + outOfStockCount summaries = len summaries) /\
    (forall s, In s summaries -> current_stock s < 0 ->
     inStockCount summaries + outOfStockCount summaries < len summaries).
Proof.
  destruct (summaries_total records) as [summaries Hs].
  exists summaries. split; [exact Hs|].
  pose proof (count_by_sign current_stock summaries) as Hc.
  unfold inStockCount, outOfStockCount.
  assert (Hneg : 0 <= len (filter (fun x => current_stock x <? 0) summaries))
    by (unfold len; lia).
  split; [lia|]. split.
  - intros Hnn.
    assert (E : filter (fun x => current_stock x <? 0) summaries = []).
    { destruct (filter (fun x => current_stock x <? 0) summaries) as [|s l] eqn:E;
        [reflexivity|].
      assert (Hin : In s (filter (fun x => current_stock x <? 0) summaries))
        by (rewrite E; left; reflexivity).
      apply filter_In in Hin. destruct Hin as [Hin Hlt]. apply Z.ltb_lt in Hlt.
      destruct (summaries_rows _ _ Hs) as (rows & Hm & ->).
      apply sort_In in Hin.
      destruct (row_of_group _ _ _ _ Hm Hin) as [k [_ Hk]].
      apply productSummary_fields in Hk.
      destruct Hk as (h & Hh & _ & _ & _ & Hcur & _).
      destruct (sort_first_least byDateDesc byDateDesc_total byDateDesc_trans _ _ Hh)
        as [Hhin _].
      apply recordsOf_In in Hhin. specialize (Hnn h (proj1 Hhin)). lia. }
    rewrite E in Hc. change (len []) with 0 in Hc. lia.
  - intros s Hin Hlt.
    assert (H : In s (filter (fun x => current_stock x <? 0) summaries)).
    { apply filter_In. split; [exact Hin|]. apply Z.ltb_lt. exact Hlt. }
    destruct (filter (fun x => current_stock x <? 0) summaries) as [|a l];
      [destruct H|].
    unfold len in *. simpl List.length in Hc. lia.
Qed.

Lemma stock_counters_witness :
  exists summaries,
    generateProductSummaries [sampleDay2; sampleMixed; sampleDay1] = Some summaries /\
    inStockCount summaries + outOfStockCount summaries = len summaries.
Proof.
  destruct (stock_counters [sampleDay2; sampleMixed; sampleDay1])
    as (summaries & Hs & _ & Heq & _).
  exists summaries. split; [exact Hs|]. apply Heq.
  intros r [<-|[<-|[<-|[]]]]; simpl; lia.
Defined.

(** The name and the stock of the rows of the two components stem from the
    same record of each bucket. *)
Lemma summaries_match_rows (now : Z) (groups : list (string * list InventoryRecord))
  (summaries : list ProductSummary) (rows : list OutOfStockRow) :
  mapM productSummary groups = Some summaries ->
  mapM (outOfStockRow now) groups = Some rows ->
  map (fun s => (ps_item_name s, current_stock s)) summaries =
  map (fun row => (oos_item_name row, last_stock row)) rows.
Proof.
  revert summaries rows. induction groups as [|[k g] groups IH];
    intros summaries rows Hs Hr; cbn [mapM] in Hs, Hr.
  - injection Hs as <-. injection Hr as <-. reflexivity.
  - destruct (productSummary (k, g)) as [s|] eqn:Es; [|discriminate].
    destruct (mapM productSummary groups) as [ss|]; [|discriminate].
    destruct (outOfStockRow now (k, g)) as [row|] eqn:Er; [|discriminate].
    destruct (mapM (outOfStockRow now) groups) as [rs|]; [|discriminate].
    cbn [JS.bind] in Hs, Hr. injection Hs as <-. injection Hr as <-. cbn [map].
    rewrite (IH ss rs eq_refl eq_refl). f_equal.
    apply productSummary_fields in Es. destruct Es as (h & Hh & -> & _ & _ & -> & _).
    unfold outOfStockRow in Er. rewrite Hh in Er. simpl in Er.
    injection Er as <-. reflexivity.
Qed.

(** X21. The product list and the out-of-stock report agree: on the same
    records, a product is in the out-of-stock view exactly when its summary
    has [current_stock = 0], and the "Out of Stock" counter is the number
    of rows of the view. *)
Theorem out_of_stock_counter_matches_report (now : Z) (records : list InventoryRecord) :
  exists summaries rows,
    generateProductSummaries records = Some summaries /\
    generateOutOfStockReport now records = Some rows /\
    outOfStockCount summaries = len rows /\
    forall name,
      In name (map oos_item_name rows) <->
      exists s, In s summaries /\ ps_item_name s = name /\ current_stock s = 0.
Proof.
  destruct (summaries_total records) as [summaries Hs].
  destruct (outOfStock_total now records) as [rows Hr].
  exists summaries, rows. split; [exact Hs|]. split; [exact Hr|].
  destruct (summaries_rows _ _ Hs) as (ss & Hms & ->).
  destruct (outOfStock_rows _ _ _ Hr) as (rs & Hmr & ->).
  pose proof (summaries_match_rows now _ _ _ Hms Hmr) as Hmatch.
  assert (Hfilter :
            map (fun s => (ps_item_name s, current_stock s))
                (filter (fun p => current_stock p =? 0) ss) =
            map (fun row => (oos_item_name row, last_stock row))
                (filter (fun item => last_stock item =? 0) rs)).
  { clear -Hmatch. revert rs Hmatch. induction ss as [|s ss IH]; intros rs H.
    - destruct rs; [reflexivity|discriminate].
    - destruct rs as [|r rs]; [discriminate|]. simpl in H.
      injection H as Hn Hc Ht. simpl. rewrite Hc.
      destruct (last_stock r =? 0); simpl; rewrite (IH rs Ht); [|reflexivity].
      rewrite Hn, Hc. reflexivity. }
  split.
  - unfold outOfStockCount, len. rewrite sort_length.
    rewrite <- (length_map (fun s => (ps_item_name s, current_stock s))).
    rewrite (Permutation_length
               (Permutation_map _ (filter_perm (fun p => current_stock p =? 0) _ _
                  (Permutation_sym (sort_perm _ ss))))).
    rewrite Hfilter, length_map. reflexivity.
  - intros name. split.
    + intros Hin. apply in_map_iff in Hin. destruct Hin as [row [<- Hin]].
      apply sort_In in Hin.
      assert (H : In (oos_item_name row, last_stock row)
                     (map (fun row => (oos_item_name row, last_stock row))
                          (filter (fun item => last_stock item =? 0) rs)))
        by (apply (in_map (fun row => (oos_item_name row, last_stock row)));
              exact Hin).
      rewrite <- Hfilter in H. apply in_map_iff in H.
      destruct H as [s [E Hs']]. injection E as En Ec.
      apply filter_In in Hs'. destruct Hs' as [Hs' Hz]. apply Z.eqb_eq in Hz.
      exists s. split; [apply sort_In; exact Hs'|]. split; [exact En|exact Hz].
    + intros [s [Hin [<- Hz]]]. apply sort_In in Hin.
      assert (H : In (ps_item_name s, current_stock s)
                     (map (fun s => (ps_item_name s, current_stock s))
                          (filter (fun p => current_stock p =? 0) ss))).
      { apply (in_map (fun s => (ps_item_name s, current_stock s))).
        apply filter_In. split; [exact Hin|]. apply Z.eqb_eq. exact Hz. }
      rewrite Hfilter in H. apply in_map_iff in H.
      destruct H as [row [E Hrow]]. injection E as En Ec.
      apply in_map_iff. exists row. split; [exact En|]. apply sort_In. exact Hrow.
Qed.

Lemma out_of_stock_counter_matches_report_witness :
  exists summaries rows,
    generateProductSummaries [sampleDay2; sampleMixed; sampleDay1] = Some summaries /\
    generateOutOfStockReport 0 [sampleDay2; sampleMixed; sampleDay1] = Some rows /\
    outOfStockCount summaries = 1 /\ In "A"%string (map oos_item_name rows).
Proof.
  destruct (out_of_stock_counter_matches_report 0 [sampleDay2; sampleMixed; sampleDay1])
    as (summaries & rows & Hs & Hr & Hcount & Hiff).
  exists summaries, rows. split; [exact Hs|]. split; [exact Hr|]. split.
  - rewrite Hcount. pose proof Hr as Hc. vm_compute in Hc. injection Hc as <-.
    reflexivity.
  - apply Hiff. pose proof Hs as Hc. vm_compute in Hc. injection Hc as <-.
    eexists. split; [left; reflexivity|]. split; reflexivity.
Defined.

(** ** The search results *)

Lemma record_of_keepMostRecent (k : string) (r : InventoryRecord)
  (m : list (string * InventoryRecord)) :
  record_of k (keepMostRecent r m) = keep k (record_of k m) r.
Proof.
  unfold keep. induction m as [|[k0 ex] m IH]; simpl.
  - destruct (String.eqb (item_name r) k); reflexivity.
  - destruct (String.eqb k0 (item_name r)) eqn:E0.
    + apply String.eqb_eq in E0. subst k0.
      destruct (String.eqb (item_name r) k) eqn:E2;
        destruct (getTime (date ex) <? getTime (date r)) eqn:Ed;
        simpl; rewrite ?E2; reflexivity.
    + simpl. destruct (String.eqb k0 k) eqn:E1.
      * destruct (String.eqb (item_name r) k) eqn:E2; [|reflexivity].
        apply String.eqb_eq in E1, E2. subst. rewrite String.eqb_refl in E0.
        discriminate.
      * exact IH.
Qed.

Lemma record_of_fold (k : string) (l : list InventoryRecord)
  (m : list (string * InventoryRecord)) :
  record_of k (fold_left (fun m r => keepMostRecent r m) l m) =
  fold_left (keep k) l (record_of k m).
Proof.
  revert m. induction l as [|r l IH]; intros m; simpl; [reflexivity|].
  rewrite IH, record_of_keepMostRecent. reflexivity.
Qed.

(** The record kept for a product is one of its records, and none of its
    records is more recent. *)
Lemma keep_fold_spec (k : string) (l : list InventoryRecord) :
  match fold_left (keep k) l None with
  | None => forall r, In r l -> item_name r <> k
  | Some r => In r l /\ item_name r = k /\
              forall r', In r' l -> item_name r' = k -> date r' <= date r
  end.
Proof.
  induction l as [|x l IH] using rev_ind; [intros r []|].
  rewrite fold_left_app. simpl. unfold keep at 1.
  destruct (String.eqb (item_name x) k) eqn:E.
  - apply String.eqb_eq in E.
    destruct (fold_left (keep k) l None) as [ex|].
    + destruct IH as (Hin & Hn & Hmax).
      destruct (getTime (date ex) <? getTime (date x)) eqn:Ed.
      * apply Z.ltb_lt in Ed. unfold getTime, msPerDay in Ed.
        split; [apply in_or_app; right; left; reflexivity|]. split; [exact E|].
        intros r' Hr' Hn'. apply in_app_or in Hr'.
        destruct Hr' as [Hr'|[<-|[]]]; [specialize (Hmax r' Hr' Hn'); lia|lia].
      * apply Z.ltb_ge in Ed. unfold getTime, msPerDay in Ed.
        split; [apply in_or_app; left; exact Hin|]. split; [exact Hn|].
        intros r' Hr' Hn'. apply in_app_or in Hr'.
        destruct Hr' as [Hr'|[<-|[]]]; [apply Hmax; assumption|lia].
    + split; [apply in_or_app; right; left; reflexivity|]. split; [exact E|].
      intros r' Hr' Hn'. apply in_app_or in Hr'.
      destruct Hr' as [Hr'|[<-|[]]]; [exfalso; apply (IH r' Hr' Hn')|lia].
  - apply String.eqb_neq in E.
    destruct (fold_left (keep k) l None) as [ex|].
    + destruct IH as (Hin & Hn & Hmax).
      split; [apply in_or_app; left; exact Hin|]. split; [exact Hn|].
      intros r' Hr' Hn'. apply in_app_or in Hr'.
      destruct Hr' as [Hr'|[<-|[]]]; [apply Hmax; assumption|contradiction].
    + intros r Hr. apply in_app_or in Hr.
      destruct Hr as [Hr|[<-|[]]]; [apply IH; exact Hr|exact E].
Qed.

Lemma keys_keepMostRecent_in (k : string) (r : InventoryRecord)
  (m : list (string * InventoryRecord)) :
  In k (map fst (keepMostRecent r m)) -> k = item_name r \/ In k (map fst m).
Proof.
  induction m as [|[k0 ex] m IH]; simpl; intros Hk.
  - destruct Hk as [<-|[]]. left. reflexivity.
  - destruct (String.eqb k0 (item_name r)).
    + destruct (getTime (date ex) <? getTime (date r)); simpl in Hk; right; exact Hk.
    + simpl in Hk. destruct Hk as [<-|Hk]; [right; left; reflexivity|].
      destruct (IH Hk); [left|right; right]; assumption.
Qed.

Lemma keys_keepMostRecent (r : InventoryRecord) (m : list (string * InventoryRecord)) :
  NoDup (map fst m) -> NoDup (map fst (keepMostRecent r m)).
Proof.
  induction m as [|[k0 ex] m IH]; simpl; intros Hnd.
  - constructor; [intros []|constructor].
  - destruct (String.eqb k0 (item_name r)) eqn:E.
    + destruct (getTime (date ex) <? getTime (date r)); exact Hnd.
    + inversion Hnd as [|x s Hnotin Hnd']; subst. simpl.
      constructor; [|apply IH; assumption].
      intros Hin. destruct (keys_keepMostRecent_in _ _ _ Hin) as [->|Hin'].
      * rewrite String.eqb_refl in E. discriminate.
      * contradiction.
Qed.

Lemma keys_fold_keep (l : list InventoryRecord) (m : list (string * InventoryRecord)) :
  NoDup (map fst m) ->
  NoDup (map fst (fold_left (fun m r => keepMostRecent r m) l m)).
Proof.
  revert m. induction l as [|r l IH]; intros m Hm; simpl.
  - exact Hm.
  - apply IH, keys_keepMostRecent, Hm.
Qed.

Lemma record_of_In (k : string) (r : InventoryRecord)
  (m : list (string * InventoryRecord)) :
  NoDup (map fst m) -> (In (k, r) m <-> record_of k m = Some r).
Proof.
  induction m as [|[k0 ex] m IH]; simpl; intros Hnd.
  - split; [intros []|discriminate].
  - inversion Hnd as [|x s Hnotin Hnd']; subst.
    destruct (String.eqb k0 k) eqn:E.
    + apply String.eqb_eq in E. subst k0. split.
      * intros [H|H]; [congruence|].
        exfalso. apply Hnotin. apply (in_map fst) in H. exact H.
      * intros H. left. congruence.
    + split.
      * intros [H|H]; [|apply IH; assumption].
        injection H as -> ->. rewrite String.eqb_refl in E. discriminate.
      * intros H. right. apply IH; assumption.
Qed.

(** X22. The search keeps one record per product among the records the
    store returned: every product of the answer appears exactly once in
    the results, the record shown for it is one of its records, no record
    of the product has a later date, and the results are in descending
    order of date. *)
Theorem search_results_latest_per_product (records : list InventoryRecord) :
  NoDup (map item_name (searchResults records)) /\
  (forall r, In r (searchResults records) ->
     In r records /\
     forall r', In r' records -> item_name r' = item_name r -> date r' <= date r) /\
  (forall r, In r records ->
     exists r0, In r0 (searchResults records) /\ item_name r0 = item_name r) /\
  StronglySorted (fun a b => date b <= date a) (searchResults records).
Proof.
  assert (E : searchResults records =
              sort byDateDesc
                   (map snd (fold_left (fun m r => keepMostRecent r m) records []))).
  { unfold searchResults. destruct records; reflexivity. }
  rewrite E. clear E.
  set (m := fold_left (fun m r => keepMostRecent r m) records []).
  assert (Hkeys : NoDup (map fst m)) by (apply keys_fold_keep; constructor).
  assert (Hspec : forall k r, In (k, r) m ->
             In r records /\ item_name r = k /\
             forall r', In r' records -> item_name r' = k -> date r' <= date r).
  { intros k r Hin. apply (record_of_In k r m Hkeys) in Hin.
    unfold m in Hin. rewrite record_of_fold in Hin. simpl in Hin.
    pose proof (keep_fold_spec k records) as H. rewrite Hin in H. exact H. }
  assert (Hnames : map item_name (map snd m) = map fst m).
  { rewrite map_map. apply map_ext_in. intros [k r] Hin. simpl.
    apply (Hspec k r Hin). }
  split; [|split; [|split]].
  - apply NoDup_map_sort. rewrite Hnames. exact Hkeys.
  - intros r Hin. apply sort_In, in_map_iff in Hin.
    destruct Hin as [[k r0] [<- Hin]]. simpl.
    destruct (Hspec k r0 Hin) as (H1 & H2 & H3). rewrite H2. split; assumption.
  - intros r Hr.
    pose proof (keep_fold_spec (item_name r) records) as H.
    destruct (fold_left (keep (item_name r)) records None) as [r0|] eqn:E.
    + exists r0. split; [|apply H].
      apply sort_In, in_map_iff. exists (item_name r, r0). split; [reflexivity|].
      apply (record_of_In _ _ m Hkeys). unfold m. rewrite record_of_fold. exact E.
    + exfalso. apply (H r Hr). reflexivity.
  - apply (ordered_StronglySorted byDateDesc).
    + intros a b H. unfold byDateDesc, getTime, msPerDay in H. lia.
    + apply ordered_byDateDesc.
Qed.

Lemma search_results_latest_per_product_witness :
  exists r0, In r0 (searchResults [sampleDay1; sampleMixed; sampleDay2]) /\
             item_name r0 = "A"%string /\ 19724 <= date r0.
Proof.
  destruct (search_results_latest_per_product [sampleDay1; sampleMixed; sampleDay2])
    as (_ & Hmax & Hall & _).
  destruct (Hall sampleDay1) as [r0 [Hin Hname]]; [left; reflexivity|].
  exists r0. split; [exact Hin|]. split; [exact Hname|].
  destruct (Hmax r0 Hin) as [_ H].
  apply (H sampleDay2); [right; right; left; reflexivity|].
  rewrite Hname. reflexivity.
Defined.

End HistoryFacts.

(* ------------------------------------------------------------------ *)
(** * Properties of the pages *)
(* ------------------------------------------------------------------ *)

Module PagingFacts.
Import JS Reports Paging.

Lemma ceil_bounds (n : Z) (p : positive) :
  (Qceiling (Qred (inject_Z n / inject_Z (Z.pos p))) - 1) * Z.pos p < n
  <= Qceiling (Qred (inject_Z n / inject_Z (Z.pos p))) * Z.pos p.
Proof.
  set (t := Qceiling (Qred (inject_Z n / inject_Z (Z.pos p)))).
  assert (Et : t = Qceiling (inject_Z n / inject_Z (Z.pos p))).
  { unfold t. apply Qceiling_comp. apply Qred_correct. }
  pose proof (Qle_ceiling (inject_Z n / inject_Z (Z.pos p))) as H1.
  pose proof (Qceiling_lt (inject_Z n / inject_Z (Z.pos p))) as H2.
  rewrite <- Et in H1, H2.
  unfold Qle, Qdiv, Qmult, Qinv, inject_Z in H1. cbn -[Z.mul] in H1.
  unfold Qlt, Qdiv, Qmult, Qinv, inject_Z in H2. cbn -[Z.mul] in H2.
  lia.
Qed.

Lemma firstn_plus {A : Type} (a b : nat) (l : list A) :
  firstn (a + b) l = firstn a l ++ firstn b (skipn a l).
Proof.
  revert l. induction a as [|a IH]; intros l; simpl; [reflexivity|].
  destruct l as [|x l]; simpl.
  - rewrite firstn_nil. reflexivity.
  - rewrite IH. reflexivity.
Qed.

(** A page is the chunk of [pageSize] elements behind the pages before
    it. *)
Lemma page_as_chunk {A : Type} (p pageSize : Z) (l : list A) :
  0 < pageSize -> 1 <= p ->
  getCurrentPageData p pageSize l =
  firstn (Z.to_nat pageSize) (skipn (Z.to_nat ((p - 1) * pageSize)) l).
Proof.
  intros Hs Hp. unfold getCurrentPageData, slice.
  set (start := (p - 1) * pageSize).
  assert (Hstart : 0 <= start) by (unfold start; nia).
  destruct (Z.ltb_spec start 0) as [H|_]; [lia|].
  destruct (Z.ltb_spec (start + pageSize) 0) as [H|_]; [lia|].
  unfold len. set (n := List.length l).
  destruct (Z_le_gt_dec (Z.of_nat n) start) as [Hge|Hlt].
  - rewrite (Z.min_r start) by lia.
    rewrite !skipn_all2 by (fold n; lia). rewrite !firstn_nil. reflexivity.
  - rewrite (Z.min_l start) by lia.
    set (rest := skipn (Z.to_nat start) l).
    assert (Hrest : List.length rest = (n - Z.to_nat start)%nat)
      by (unfold rest; apply length_skipn).
    destruct (Z_le_gt_dec (start + pageSize) (Z.of_nat n)) as [Hfit|Hover].
    + rewrite Z.min_l by lia. f_equal. lia.
    + rewrite Z.min_r by lia.
      rewrite (firstn_all2 (n := Z.to_nat pageSize)) by lia.
      apply firstn_all2. lia.
Qed.

Lemma pagesUpTo_firstn {A : Type} (m : nat) (pageSize : Z) (l : list A) :
  0 < pageSize ->
  pagesUpTo m pageSize l = firstn (m * Z.to_nat pageSize) l.
Proof.
  intros Hs. induction m as [|m IH]; [reflexivity|].
  cbn [pagesUpTo]. rewrite IH, page_as_chunk by lia.
  replace (Z.to_nat ((Z.of_nat (S m) - 1) * pageSize)) with (m * Z.to_nat pageSize)%nat
    by nia.
  rewrite <- firstn_plus. f_equal. lia.
Qed.

(** X23. For a positive page size, [totalPages] is the least number of
    pages that hold the list.  The pages [1 .. totalPages], one after the
    other, give back the list; each of them is non-empty and has at most
    [pageSize] elements, and every page behind them is empty. *)
Theorem pages_partition {A : Type} (l : list A) (pageSize : Z) :
  0 < pageSize ->
  exists t,
    totalPages l pageSize = ofZ t /\
    (t - 1) * pageSize < len l <= t * pageSize /\
    pagesUpTo (Z.to_nat t) pageSize l = l /\
    (forall p, 1 <= p <= t ->
               getCurrentPageData p pageSize l <> [] /\
               len (getCurrentPageData p pageSize l) <= pageSize) /\
    (forall p, t < p -> getCurrentPageData p pageSize l = []).
Proof.
  intros Hs. destruct pageSize as [|s|s]; try lia.
  exists (Qceiling (Qred (inject_Z (len l) / inject_Z (Z.pos s)))).
  pose proof (ceil_bounds (len l) s) as Hb.
  set (t := Qceiling (Qred (inject_Z (len l) / inject_Z (Z.pos s)))) in *.
  split; [reflexivity|]. split; [exact Hb|].
  assert (Hlen : 0 <= len l) by (unfold len; lia).
  assert (Ht : 0 <= t) by nia.
  split; [|split].
  - rewrite pagesUpTo_firstn by lia. apply firstn_all2. unfold len in Hb. nia.
  - intros p Hp. rewrite page_as_chunk by lia.
    assert (Hlt : (p - 1) * Z.pos s < len l) by nia.
    split.
    + destruct (skipn (Z.to_nat ((p - 1) * Z.pos s)) l) as [|x rest] eqn:E.
      * apply (f_equal (@List.length A)) in E. rewrite length_skipn in E.
        unfold len in Hlt. simpl in E. nia.
      * destruct (Z.to_nat (Z.pos s)) eqn:Es; [lia|]. discriminate.
    + unfold len.
      pose proof (firstn_le_length (Z.to_nat (Z.pos s))
                    (skipn (Z.to_nat ((p - 1) * Z.pos s)) l)). lia.
  - intros p Hp. rewrite page_as_chunk by lia.
    rewrite skipn_all2; [apply firstn_nil|]. unfold len in Hb. nia.
Qed.

Lemma pages_partition_witness :
  exists t,
    totalPages [1; 2; 3; 4; 5; 6; 7] 3 = ofZ t /\
    pagesUpTo (Z.to_nat t) 3 [1; 2; 3; 4; 5; 6; 7] = [1; 2; 3; 4; 5; 6; 7] /\
    getCurrentPageData 3 3 [1; 2; 3; 4; 5; 6; 7] <> [].
Proof.
  destruct (pages_partition [1; 2; 3; 4; 5; 6; 7] 3) as (t & Ht & _ & Hall & Hpage & _).
  - reflexivity.
  - exists t. split; [exact Ht|]. split; [exact Hall|].
    apply Hpage. vm_compute in Ht. injection Ht as <-. lia.
Defined.

(** X24. On a page that exists, the line "Showing a to b of n" counts the
    elements of the page: [b - a + 1] is the number of elements shown.  On
    the first page of an empty list it reads "1 to 0". *)
Theorem showing_range_counts_page {A : Type} (l : list A) (currentPage pageSize : Z) :
  0 < pageSize -> 1 <= currentPage ->
  (currentPage - 1) * pageSize <= len l ->
  len (getCurrentPageData currentPage pageSize l) =
  showingTo currentPage pageSize l - showingFrom currentPage pageSize + 1.
Proof.
  intros Hs Hp Hstart. rewrite page_as_chunk by lia.
  unfold showingTo, showingFrom, len in *.
  rewrite length_firstn, length_skipn. nia.
Qed.

Lemma showing_range_counts_page_witness :
  len (getCurrentPageData 3 3 [1; 2; 3; 4; 5; 6; 7]) =
  showingTo 3 3 [1; 2; 3; 4; 5; 6; 7] - showingFrom 3 3 + 1.
Proof.
  apply showing_range_counts_page; [reflexivity|lia|].
  vm_compute. discriminate.
Defined.

End PagingFacts.

(* ------------------------------------------------------------------ *)
(** * Properties of the history of one product *)
(* ------------------------------------------------------------------ *)

Module DetailFacts.
Import JS Inventory Reports Detail JSFacts MoreJSFacts.

Lemma orZero_id (x : Z) : orZero x = x.
Proof. unfold orZero. destruct (Z.eqb_spec x 0); congruence. Qed.

Lemma stockMovement_totals (r : InventoryRecord) :
  mv_stock_in (stockMovement r) = new_stock r + returns r + rebagging r /\
  mv_stock_out (stockMovement r) = issued_production r + damaged r /\
  mv_net_change (stockMovement r) =
    (new_stock r + returns r + rebagging r) - (issued_production r + damaged r).
Proof. unfold stockMovement. simpl. rewrite !orZero_id. repeat split. Qed.

(** X25. The movement type of a record is [stock_in] exactly when stock
    came in and none went out, [stock_out] exactly when stock went out and
    none came in, and [mixed] exactly when both happened.  For
    non-negative quantities the only other type is [stable], given exactly
    when nothing moved: [net_increase] and [net_decrease] never occur. *)
Theorem movement_type_cases (r : InventoryRecord) :
  let m := stockMovement r in
  (mv_movement_type m = stock_in <-> 0 < mv_stock_in m /\ mv_stock_out m = 0) /\
  (mv_movement_type m = stock_out <-> 0 < mv_stock_out m /\ mv_stock_in m = 0) /\
  (mv_movement_type m = mixed <-> 0 < mv_stock_in m /\ 0 < mv_stock_out m) /\
  (nonneg_record r ->
   (mv_movement_type m = stable <-> mv_stock_in m = 0 /\ mv_stock_out m = 0) /\
   mv_movement_type m <> net_increase /\ mv_movement_type m <> net_decrease).
Proof.
  cbv zeta. destruct (stockMovement_totals r) as (Hi & Ho & Hn).
  unfold stockMovement in *. cbn [mv_movement_type mv_stock_in mv_stock_out
                                  mv_net_change] in *.
  rewrite !orZero_id in *.
  set (i := new_stock r + returns r + rebagging r) in *.
  set (o := issued_production r + damaged r) in *.
  assert (Hnn : nonneg_record r -> 0 <= i /\ 0 <= o).
  { unfold nonneg_record, i, o. intros H. lia. }
  destruct (Z.ltb_spec 0 i), (Z.eqb_spec o 0), (Z.ltb_spec 0 o), (Z.eqb_spec i 0);
    simpl; try lia;
    try (destruct (Z.ltb_spec 0 (i - o)), (Z.ltb_spec (i - o) 0); try lia);
    repeat split; intros; try discriminate; try lia;
    try (destruct (Hnn ltac:(assumption)); lia);
    try (match goal with H : _ /\ _ |- _ => destruct H; lia end).
Qed.

Lemma movement_type_cases_witness :
  mv_movement_type (stockMovement Spec.sampleMixed) <> net_increase.
Proof.
  destruct (movement_type_cases Spec.sampleMixed) as (_ & _ & _ & H).
  apply H. unfold nonneg_record. simpl. lia.
Defined.

Lemma reduce_sum_orZero (f : InventoryRecord -> Z) (l : list InventoryRecord) :
  reduce_sum (fun record => orZero (f record)) l = reduce_sum f l.
Proof. apply reduce_sum_ext. intros x _. apply orZero_id. Qed.

Lemma summary_totals (records : list InventoryRecord) :
  hs_total_stock_in (calculateSummary records) =
    reduce_sum new_stock records + reduce_sum returns records
    + reduce_sum rebagging records /\
  hs_total_stock_out (calculateSummary records) =
    reduce_sum issued_production records + reduce_sum damaged records /\
  hs_total_returns (calculateSummary records) = reduce_sum returns records /\
  hs_total_rebagging (calculateSummary records) = reduce_sum rebagging records /\
  hs_total_damaged (calculateSummary records) = reduce_sum damaged records.
Proof.
  unfold calculateSummary. simpl. rewrite !reduce_sum_orZero.
  split; [|split; [|repeat split]].
  - rewrite <- !reduce_sum_plus. apply reduce_sum_ext. intros x _.
    rewrite !orZero_id. reflexivity.
  - rewrite <- reduce_sum_plus. apply reduce_sum_ext. intros x _.
    rewrite !orZero_id. reflexivity.
Qed.

(** X26. The summary of a product and its list of movements agree: there
    is one movement per record, in the order of the records, and the
    [stock_in], [stock_out] and [net_change] of the movements add up to
    [total_stock_in], [total_stock_out] and their difference.  Here stock
    in counts returns and rebagging and stock out counts damage, so these
    totals exceed the weekly report's [total_stock_in] and
    [total_stock_out] on the same records by the returns and rebagging and
    by the damage.  [average_daily_usage] is a finite number, the stock
    out per record. *)
Theorem history_summary_balances (records : list InventoryRecord) :
  let s := calculateSummary records in
  let ms := processStockMovements records in
  map mv_date ms = map date records /\
  reduce_sum mv_stock_in ms = hs_total_stock_in s /\
  reduce_sum mv_stock_out ms = hs_total_stock_out s /\
  reduce_sum mv_net_change ms = hs_total_stock_in s - hs_total_stock_out s /\
  hs_total_stock_in s =
    ws_total_stock_in (weeklySummary records) + hs_total_returns s
    + hs_total_rebagging s /\
  hs_total_stock_out s =
    ws_total_stock_out (weeklySummary records) + hs_total_damaged s /\
  exists q, average_daily_usage s = Fin q /\
            (q * inject_Z (len records) == inject_Z (hs_total_stock_out s))%Q.
Proof.
  cbv zeta. destruct (summary_totals records) as (Hi & Ho & Hr & Hb & Hd).
  unfold processStockMovements.
  split; [rewrite map_map; reflexivity|].
  assert (Si : reduce_sum mv_stock_in (map stockMovement records) =
               hs_total_stock_in (calculateSummary records)).
  { rewrite reduce_sum_map, Hi, <- !reduce_sum_plus. apply reduce_sum_ext.
    intros x _. apply stockMovement_totals. }
  assert (So : reduce_sum mv_stock_out (map stockMovement records) =
               hs_total_stock_out (calculateSummary records)).
  { rewrite reduce_sum_map, Ho, <- reduce_sum_plus. apply reduce_sum_ext.
    intros x _. apply stockMovement_totals. }
  split; [exact Si|]. split; [exact So|]. split.
  { rewrite <- Si, <- So, !reduce_sum_map, <- reduce_sum_minus.
    apply reduce_sum_ext. intros x _.
    destruct (stockMovement_totals x) as (-> & -> & ->). reflexivity. }
  split; [rewrite Hi, Hr, Hb; reflexivity|].
  split; [rewrite Ho, Hd; reflexivity|].
  destruct records as [|r l]; [exists 0%Q; split; reflexivity|].
  unfold calculateSummary at 1. cbn [average_daily_usage].
  change (reduce_sum (fun record => orZero (issued_production record)
                                    + orZero (damaged record)) (r :: l))
    with (hs_total_stock_out (calculateSummary (r :: l))).
  generalize (hs_total_stock_out (calculateSummary (r :: l))). intros out.
  assert (Hpos : 0 < len (r :: l)) by (unfold len; simpl List.length; lia).
  destruct (Z.ltb_spec 0 (len (r :: l))) as [_|Hzero]; [|lia].
  destruct (len (r :: l)) as [|p|p] eqn:E; try lia.
  unfold div. simpl (Z.pos p =? 0). cbv iota.
  eexists. split; [reflexivity|].
  rewrite Qred_correct. unfold Qeq, Qdiv, Qmult, Qinv, inject_Z. cbn -[Z.mul]. lia.
Qed.

Lemma history_summary_balances_witness :
  reduce_sum mv_net_change
             (processStockMovements [Spec.sampleDay1; Spec.sampleDay2]) = -10.
Proof.
  destruct (history_summary_balances [Spec.sampleDay1; Spec.sampleDay2])
    as (_ & _ & _ & H & _).
  rewrite H. reflexivity.
Defined.

(** X27. The share of damaged stock shown among the insights divides by
    [total_stock_in] without a guard: for non-negative quantities and a
    product with damaged units, it is a finite percentage exactly when
    some stock came in, and [Infinity] when none did. *)
Theorem damaged_share_unguarded (records : list InventoryRecord) :
  Forall nonneg_record records ->
  0 < hs_total_damaged (calculateSummary records) ->
  (isFinite (damagedShare (calculateSummary records)) = true <->
   0 < hs_total_stock_in (calculateSummary records)) /\
  (hs_total_stock_in (calculateSummary records) = 0 ->
   damagedShare (calculateSummary records) = PInf).
Proof.
  intros Hnn Hd. unfold damagedShare.
  destruct (summary_totals records) as (Hi & _).
  assert (Hin : 0 <= hs_total_stock_in (calculateSummary records)).
  { rewrite Hi.
    assert (forall f, (forall r, nonneg_record r -> 0 <= f r) ->
                      0 <= reduce_sum f records).
    { intros f Hf. apply reduce_sum_nonneg. intros x Hx. apply Hf.
      rewrite Forall_forall in Hnn. apply Hnn, Hx. }
    pose proof (H new_stock ltac:(unfold nonneg_record; tauto)).
    pose proof (H returns ltac:(unfold nonneg_record; tauto)).
    pose proof (H rebagging ltac:(unfold nonneg_record; tauto)). lia. }
  generalize dependent (hs_total_stock_in (calculateSummary records)). intros i _ Hin.
  generalize dependent (hs_total_damaged (calculateSummary records)). intros d Hd.
  unfold mulDouble, divDouble, div. destruct (Z.eqb_spec i 0) as [->|Hne].
  - destruct (Z.eqb_spec d 0); [lia|].
    destruct (Z.ltb_spec 0 d); [|lia]. simpl.
    split; [split; [discriminate|lia]|reflexivity].
  - cbn [mulZ isFinite]. split; [split; [lia|reflexivity]|lia].
Qed.

Lemma damaged_share_unguarded_witness :
  damagedShare
    (calculateSummary
       [ {| item_name := "A"; date := 0; opening_stock := 9; new_stock := 0;
            new_balance := 9; issued_production := 0; returns := 0;
            rebagging := 0; damaged := 4; closing_stock := 5 |} ]) = PInf.
Proof.
  apply damaged_share_unguarded.
  - repeat constructor; unfold nonneg_record; simpl; lia.
  - reflexivity.
  - reflexivity.
Defined.

End DetailFacts.
